(** * sb-pyorbbecsdk: the packaging script [setup.py]

    A shallow embedding of the build helpers of [setup.py]:
    - [PrebuiltExtension];
    - [CustomBuildExt]: [run], [build_extension], [copy_all_files],
      [_fix_file_permissions], [_record_installed_files];
    - [PlatformSpecificWheel]: [get_tag] and the three per-OS resolvers;
    - [read_long_description] and [get_requirements];
    - [check_prerequisites] and its module-level invocation.

    Python text is a [string] of 8-bit characters; text decoded from a file
    is a list of code points.  Exceptions are values of [exn] carried by
    [result].  The file system is one shared store, a finite map from
    physical locations to nodes, threaded through every call.

    What the model leaves out: ownership and access rights (no call fails
    for lack of permission, so what is proved of a read, a copy or a change
    of mode is stated for the calls that return), hard links, and the
    characters beyond ASCII in the output of [ldd] (the version pattern is
    the one of [re] on ASCII text). *)

From Stdlib Require Import ZArith Ascii String List Bool Lia Sorted.
From stdpp Require Import base tactics option list gmap strings pretty.

Open Scope string_scope.
Open Scope list_scope.

(** ** Python values: exceptions and results *)

Inductive exn : Type :=
| SubprocessError
| FileNotFoundError
| FileExistsError
| NotADirectoryError
| IsADirectoryError
| PermissionError
| SameFileError
| OSError
| ValueError
| UnicodeDecodeError
| RecursionError
| RuntimeError (msg : string).

(** [isinstance(e, OSError)] for the classes above. *)
Definition is_OSError (e : exn) : bool :=
  match e with
  | FileNotFoundError | FileExistsError | NotADirectoryError
  | IsADirectoryError | PermissionError | SameFileError | OSError => true
  | _ => false
  end.

(** [isinstance(e, ValueError)]. *)
Definition is_ValueError (e : exn) : bool :=
  match e with
  | ValueError | UnicodeDecodeError => true
  | _ => false
  end.

Definition is_RuntimeError (e : exn) : bool :=
  match e with
  | RuntimeError _ => true
  | _ => false
  end.

Inductive result (A : Type) : Type :=
| Ok (a : A)
| Raise (e : exn).

Arguments Ok {A} a.
Arguments Raise {A} e.

Definition is_ok {A} (r : result A) : bool :=
  match r with Ok _ => true | Raise _ => false end.

(** ** Python [str] operations *)

Definition is_sep (c : ascii) : bool := Ascii.eqb c "/".

(** [s.startswith(p)] *)
Definition startswith (p s : string) : bool := String.prefix p s.

(** [s.endswith(suf)] *)
Definition endswith (suf s : string) : bool :=
  let n := String.length s in
  let m := String.length suf in
  (m <=? n)%nat && String.eqb (String.substring (n - m) m s) suf.

(** [sub in s] *)
Fixpoint str_in (sub s : string) : bool :=
  String.prefix sub s ||
  match s with
  | EmptyString => false
  | String _ s' => str_in sub s'
  end.

(** [a >= b] on [str]: lexicographic order on code points. *)
Definition str_ge (a b : string) : bool := negb (String.ltb a b).

Definition lower_ascii (c : ascii) : ascii :=
  let n := nat_of_ascii c in
  if (65 <=? n)%nat && (n <=? 90)%nat then ascii_of_nat (n + 32) else c.

(** [s.lower()] *)
Fixpoint lower (s : string) : string :=
  match s with
  | EmptyString => EmptyString
  | String c s' => String (lower_ascii c) (lower s')
  end.

(** [s.split('/')] *)
Fixpoint split_sep (s : string) : list string :=
  match s with
  | EmptyString => [EmptyString]
  | String c s' =>
      if is_sep c then EmptyString :: split_sep s'
      else match split_sep s' with
           | x :: xs => String c x :: xs
           | [] => [String c EmptyString]
           end
  end.

(** ['/'.join(l)] *)
Definition join_sep (l : list string) : string := String.concat "/" l.

(** [s.rstrip('/')] *)
Fixpoint rstrip_sep (s : string) : string :=
  match s with
  | EmptyString => EmptyString
  | String c s' =>
      let r := rstrip_sep s' in
      if String.eqb r "" && is_sep c then EmptyString else String c r
  end.

(** [(p[:i], p[i:])] with [i = p.rfind('/') + 1]. *)
Fixpoint split_last (p : string) : string * string :=
  match p with
  | EmptyString => (EmptyString, EmptyString)
  | String c p' =>
      let (h, t) := split_last p' in
      if String.eqb h "" then
        if is_sep c then ("/", t) else (EmptyString, String c t)
      else (String c h, t)
  end.

(** ** [posixpath] *)

(** [os.path.isabs] *)
Definition isabs (s : string) : bool := startswith "/" s.

(** [os.path.join(a, b)] *)
Definition join (a b : string) : string :=
  if startswith "/" b then b
  else if String.eqb a "" || endswith "/" a then a +:+ b
  else a +:+ "/" +:+ b.

(** [os.path.join(a, *p)] *)
Definition join_all (a : string) (p : list string) : string :=
  fold_left join p a.

(** [os.path.dirname] *)
Definition dirname (p : string) : string :=
  let head := fst (split_last p) in
  if String.eqb (rstrip_sep head) "" then head else rstrip_sep head.

(** [os.path.basename] *)
Definition basename (p : string) : string := snd (split_last p).

(** One iteration of the loop of [normpath] over the components. *)
Definition norm_step (initial_slashes : bool) (new_comps : list string)
    (comp : string) : list string :=
  if String.eqb comp "" || String.eqb comp "." then new_comps
  else if negb (String.eqb comp "..")
          || (negb initial_slashes && match new_comps with [] => true | _ => false end)
          || match last new_comps with Some l => String.eqb l ".." | None => false end
       then new_comps ++ [comp]
       else removelast new_comps.

Definition norm_comps (initial_slashes : bool) (comps : list string) : list string :=
  fold_left (norm_step initial_slashes) comps [].

(** The number of leading slashes [normpath] keeps: 0, 1 or 2. *)
Definition initial_slashes (path : string) : nat :=
  if startswith "/" path then
    if startswith "//" path && negb (startswith "///" path) then 2 else 1
  else 0.

(** [os.path.normpath] *)
Definition normpath (path : string) : string :=
  if String.eqb path "" then "."
  else
    let n := initial_slashes path in
    let comps := norm_comps (0 <? n)%nat (split_sep path) in
    let p := match n with
             | 0 => join_sep comps
             | 1 => "/" +:+ join_sep comps
             | _ => "//" +:+ join_sep comps
             end in
    if String.eqb p "" then "." else p.

(** [os.path.abspath], with the working directory as a parameter. *)
Definition abspath (cwd path : string) : string :=
  normpath (if isabs path then path else join cwd path).

Definition nonempty (s : string) : bool := negb (String.eqb s "").

(** [[x for x in s.split('/') if x]] *)
Definition comps (s : string) : list string :=
  List.filter nonempty (split_sep s).

(** [[x for x in abspath(p).split('/') if x]] *)
Definition abs_list (cwd p : string) : list string :=
  comps (abspath cwd p).

(** [len(os.path.commonprefix([l1, l2]))] on two lists of components. *)
Fixpoint common_len (l1 l2 : list string) : nat :=
  match l1, l2 with
  | x :: l1', y :: l2' => if String.eqb x y then S (common_len l1' l2') else 0
  | _, _ => 0
  end.

(** [os.path.relpath(path, start)]: [ValueError] on an empty [path]. *)
Definition relpath (cwd path start : string) : result string :=
  if String.eqb path "" then Raise ValueError
  else
    let start_list := abs_list cwd start in
    let path_list := abs_list cwd path in
    let i := common_len start_list path_list in
    let rel_list := repeat ".." (List.length start_list - i) ++ skipn i path_list in
    match rel_list with
    | [] => Ok "."
    | a :: p => Ok (join_all a p)
    end.

(** [pathlib]'s [PurePath.suffix] of a final component. *)
Fixpoint last_dot (s : string) : option string :=
  match s with
  | EmptyString => None
  | String c s' =>
      match last_dot s' with
      | Some x => Some x
      | None => if Ascii.eqb c "." then Some s else None
      end
  end.

Definition suffix (name : string) : string :=
  match last_dot name with
  | Some suf =>
      let i := String.length name - String.length suf in
      if (0 <? i)%nat && (i <? String.length name - 1)%nat then suf else ""
  | None => ""
  end.

(** Insertion sort of a list of [str] by the order [le]. *)
Fixpoint insert_by (le : string -> string -> bool) (x : string) (l : list string)
    : list string :=
  match l with
  | [] => [x]
  | y :: l' => if le x y then x :: l else y :: insert_by le x l'
  end.

Definition sort_by (le : string -> string -> bool) (l : list string) : list string :=
  fold_right (insert_by le) [] l.

(** [sorted] on a list of [str]. *)
Definition sorted (l : list string) : list string := sort_by String.leb l.

Definition nl : string := String (ascii_of_nat 10) EmptyString.

(** [str(n)] for a length. *)
Definition str_of_nat (n : nat) : string := pretty n.

(** ** The file system

    A node is a regular file (permission bits and contents), a symbolic link
    (the text of its target) or a directory.  The store maps the physical
    location of every entry, the list of names from the root, to its node; the
    root itself is a directory and has no entry. *)

Inductive node : Type :=
| File (mode : Z) (data : string)
| Link (target : string)
| Dir.

Abbreviation loc := (list string).
Abbreviation store := (gmap (list string) node).

(** The world: the store, the working directory, what was printed, and the
    order in which the system hands out the names of a directory.  The order
    is not specified; it is given by a rank of the names that no operation
    changes, names of equal rank coming in alphabetical order. *)
Record world : Type := mkWorld {
  files : store;
  cwd : string;
  stdout : list string;
  rank : string -> nat
}.

Definition node_at (fs : store) (l : loc) : option node :=
  match l with
  | [] => Some Dir
  | _ => fs !! l
  end.

Definition is_nil {A} (l : list A) : bool :=
  match l with [] => true | _ => false end.

(** The kernel gives up after this many symbolic links in one resolution. *)
Definition MAXSYMLINKS : nat := 40.

(** The names a path text denotes, from the root: the text is taken relative
    to the working directory and empty components are dropped. *)
Definition path_comps (cwd p : string) : list string :=
  comps (join cwd p).

(** Path resolution.  [walk n fs follow cur rest] walks the names [rest] from
    the directory at [cur].  A symbolic link in the middle of the path is
    always followed, one at the end only when [follow] is set.  The result is
    the physical location the path denotes; the entry there may be missing
    when only the last name does not exist. *)
Fixpoint walk (links : nat) (fs : store) (follow : bool)
    (cur : loc) (rest : list string) {struct links} : result loc :=
  (fix go (cur : loc) (rest : list string) {struct rest} : result loc :=
     match rest with
     | [] => Ok cur
     | c :: rest' =>
         if String.eqb c "" || String.eqb c "." then go cur rest'
         else if String.eqb c ".." then go (removelast cur) rest'
         else
           match node_at fs (cur ++ [c]) with
           | None =>
               if is_nil rest' then Ok (cur ++ [c]) else Raise FileNotFoundError
           | Some Dir => go (cur ++ [c]) rest'
           | Some (File _ _) =>
               if is_nil rest' then Ok (cur ++ [c]) else Raise NotADirectoryError
           | Some (Link t) =>
               if is_nil rest' && negb follow then Ok (cur ++ [c])
               else
                 match links with
                 | O => Raise OSError
                 | S links' =>
                     walk links' fs follow
                       (if isabs t then [] else cur)
                       (comps t ++ rest')
                 end
           end
     end) cur rest.

(** Where a path text leads in a world. *)
Definition locate (follow : bool) (w : world) (p : string) : result loc :=
  walk MAXSYMLINKS (files w) follow [] (path_comps (cwd w) p).

(** [os.stat] / [os.lstat] as far as the node found. *)
Definition stat_node (follow : bool) (w : world) (p : string) : result node :=
  match locate follow w p with
  | Ok l =>
      match node_at (files w) l with
      | Some n => Ok n
      | None => Raise FileNotFoundError
      end
  | Raise e => Raise e
  end.

(** [os.path.exists]: follows links, [False] on any error. *)
Definition path_exists (w : world) (p : string) : bool :=
  is_ok (stat_node true w p).

(** [os.path.islink] *)
Definition islink (w : world) (p : string) : bool :=
  match stat_node false w p with
  | Ok (Link _) => true
  | _ => false
  end.

(** [os.path.isdir] *)
Definition isdir (w : world) (p : string) : bool :=
  match stat_node true w p with
  | Ok Dir => true
  | _ => false
  end.

(** The name of [k] inside the directory at [d], when [k] is an entry of it. *)
Fixpoint child_name (d k : loc) : option string :=
  match d, k with
  | [], [n] => Some n
  | x :: d', y :: k' => if String.eqb x y then child_name d' k' else None
  | _, _ => None
  end.

(** The names of the entries of the directory at [d]. *)
Definition entries (fs : store) (d : loc) : list string :=
  omap (fun kv => child_name d (fst kv)) (map_to_list fs).

(** The names [names] of a directory in the order of the world [w]. *)
Definition listing (w : world) (names : list string) : list string :=
  sort_by (fun x y =>
             (rank w x <? rank w y)%nat
             || (rank w x =? rank w y)%nat && String.leb x y) names.

(** [k] lies strictly below [d]. *)
Fixpoint below (d k : loc) : bool :=
  match d, k with
  | [], _ :: _ => true
  | x :: d', y :: k' => String.eqb x y && below d' k'
  | _, _ => false
  end.

(** [k] is [d] or lies below it. *)
Definition within (d k : loc) : bool :=
  bool_decide (d = k) || below d k.

(** The locations of all entries below the directory at [d]. *)
Definition descendants (fs : store) (d : loc) : list loc :=
  List.filter (below d) (List.map fst (map_to_list fs)).

(** ** Effects: a state and exception monad over the world *)

Definition M (A : Type) : Type := world -> world * result A.

Definition ret {A} (a : A) : M A := fun w => (w, Ok a).

Definition raise {A} (e : exn) : M A := fun w => (w, Raise e).

Definition bind {A B} (m : M A) (k : A -> M B) : M B :=
  fun w =>
    match m w with
    | (w', Ok a) => k a w'
    | (w', Raise e) => (w', Raise e)
    end.

#[global] Instance M_ret : MRet M := @ret.
#[global] Instance M_bind : MBind M := fun A B k m => bind m k.

(** [try: body except <classes>: handler] *)
Definition try_except {A} (body : M A) (classes : exn -> bool)
    (handler : exn -> M A) : M A :=
  fun w =>
    match body w with
    | (w', Raise e) => if classes e then handler e w' else (w', Raise e)
    | r => r
    end.

(** A read-only question to the world. *)
Definition ask {A} (f : world -> A) : M A := fun w => (w, Ok (f w)).

Definition set_files (w : world) (fs : store) : world :=
  mkWorld fs (cwd w) (stdout w) (rank w).

(** [print(s)] *)
Definition print (s : string) : M unit :=
  fun w => (mkWorld (files w) (cwd w) (stdout w ++ [s]) (rank w), Ok tt).

(** [for x in l: body(x)] *)
Fixpoint for_each {A} (l : list A) (body : A -> M unit) : M unit :=
  match l with
  | [] => ret tt
  | x :: l' => body x ;; for_each l' body
  end.

(** ** [os] and [shutil] *)

(** [os.readlink] *)
Definition os_readlink (p : string) : M string :=
  fun w =>
    match stat_node false w p with
    | Ok (Link t) => (w, Ok t)
    | Ok _ => (w, Raise OSError)
    | Raise e => (w, Raise e)
    end.

(** [os.listdir] *)
Definition os_listdir (p : string) : M (list string) :=
  fun w =>
    match locate true w p with
    | Ok l =>
        match node_at (files w) l with
        | Some Dir => (w, Ok (listing w (entries (files w) l)))
        | Some _ => (w, Raise NotADirectoryError)
        | None => (w, Raise FileNotFoundError)
        end
    | Raise e => (w, Raise e)
    end.

(** [os.unlink]: removes a file or a link, never a directory. *)
Definition os_unlink (p : string) : M unit :=
  fun w =>
    match locate false w p with
    | Ok l =>
        match node_at (files w) l with
        | Some Dir => (w, Raise IsADirectoryError)
        | Some _ => (set_files w (delete l (files w)), Ok tt)
        | None => (w, Raise FileNotFoundError)
        end
    | Raise e => (w, Raise e)
    end.

(** [shutil.rmtree]: removes a directory with all below it; refuses a
    symbolic link and fails on any other entry that is not a directory. *)
Definition shutil_rmtree (p : string) : M unit :=
  fun w =>
    match locate false w p with
    | Ok l =>
        match node_at (files w) l with
        | Some Dir =>
            (set_files w (filter (fun kv => within l (fst kv) = false) (files w)), Ok tt)
        | Some (Link _) => (w, Raise OSError)
        | Some (File _ _) => (w, Raise NotADirectoryError)
        | None => (w, Raise FileNotFoundError)
        end
    | Raise e => (w, Raise e)
    end.

(** The longest path text the system takes, counted with its final zero. *)
Definition PATH_MAX : nat := 4096.

(** [os.symlink(target, p)]: the last name of [p] is not followed and must
    be free; an empty target is refused, and so is one that does not fit
    [PATH_MAX] ([OSError] with [ENAMETOOLONG]). *)
Definition os_symlink (target p : string) : M unit :=
  fun w =>
    if String.eqb target "" then (w, Raise FileNotFoundError)
    else if (PATH_MAX <=? String.length target)%nat then (w, Raise OSError)
    else
      match locate false w p with
      | Ok l =>
          match node_at (files w) l with
          | Some _ => (w, Raise FileExistsError)
          | None => (set_files w (<[l := Link target]> (files w)), Ok tt)
          end
      | Raise e => (w, Raise e)
      end.

(** The loop of [os.makedirs(name, exist_ok=True)] over the leading parts of
    the path: a missing one is created, an existing one must be, or lead to, a
    directory. *)
Fixpoint makedirs_go (fs : store) (pre rest : list string) : store * result unit :=
  match rest with
  | [] => (fs, Ok tt)
  | c :: rest' =>
      let pre' := pre ++ [c] in
      match walk MAXSYMLINKS fs false [] pre' with
      | Raise e => (fs, Raise e)
      | Ok l =>
          match node_at fs l with
          | None => makedirs_go (<[l := Dir]> fs) pre' rest'
          | Some Dir => makedirs_go fs pre' rest'
          | Some (File _ _) =>
              (fs, Raise (if is_nil rest' then FileExistsError else NotADirectoryError))
          | Some (Link _) =>
              match walk MAXSYMLINKS fs true [] pre' with
              | Raise e => (fs, Raise e)
              | Ok l' =>
                  match node_at fs l' with
                  | Some Dir => makedirs_go fs pre' rest'
                  | Some _ =>
                      (fs, Raise (if is_nil rest' then FileExistsError
                                  else NotADirectoryError))
                  | None =>
                      (fs, Raise (if is_nil rest' then FileExistsError
                                  else FileNotFoundError))
                  end
              end
          end
      end
  end.

(** [os.makedirs(name, exist_ok=True)] *)
Definition os_makedirs (name : string) : M unit :=
  fun w =>
    let (fs, r) := makedirs_go (files w) [] (path_comps (cwd w) name) in
    (set_files w fs, r).

(** [shutil.copy2(src, dst)]: contents and permission bits; both paths are
    followed through symbolic links, and a directory at [dst] receives the
    file under the source's name.  Access rights are not consulted: the
    caller is taken to be allowed to read [src] and to write [dst], so the
    [PermissionError] of an unreadable source or a protected destination is
    not among the results.  A store holds one entry per file: two names of
    one file (hard links) are not modelled. *)
Definition shutil_copy2 (src dst : string) : M unit :=
  fun w =>
    let dst := if isdir w dst then join dst (basename src) else dst in
    match locate true w src, locate true w dst with
    | Ok ls, Ok ld =>
        match node_at (files w) ls with
        | Some (File m data) =>
            if bool_decide (ls = ld) then (w, Raise SameFileError)
            else
              match node_at (files w) ld with
              | Some Dir => (w, Raise IsADirectoryError)
              | _ => (set_files w (<[ld := File m data]> (files w)), Ok tt)
              end
        | Some Dir => (w, Raise IsADirectoryError)
        | _ => (w, Raise FileNotFoundError)
        end
    | Raise e, _ => (w, Raise e)
    | _, Raise e => (w, Raise e)
    end.

Definition S_IFREG : Z := 32768.   (* 0o100000 *)
Definition S_IFDIR : Z := 16384.   (* 0o040000 *)
Definition PERM_MASK : Z := 4095.  (* 0o7777 *)

(** [os.stat(p).st_mode]: the type bits with the permission bits.  The
    permissions of directories are not tracked. *)
Definition os_stat_mode (p : string) : M Z :=
  fun w =>
    match stat_node true w p with
    | Ok (File m _) => (w, Ok (Z.lor S_IFREG m))
    | Ok _ => (w, Ok (Z.lor S_IFDIR 493))
    | Raise e => (w, Raise e)
    end.

(** [os.chmod(p, mode)]: only the permission bits of [mode] are kept.  The
    caller is taken to own the file, as the build that staged it does: the
    [PermissionError] of a file of another owner is not among the results. *)
Definition os_chmod (p : string) (mode : Z) : M unit :=
  fun w =>
    match locate true w p with
    | Ok l =>
        match node_at (files w) l with
        | Some (File _ data) =>
            (set_files w (<[l := File (Z.land mode PERM_MASK) data]> (files w)), Ok tt)
        | Some _ => (w, Ok tt)
        | None => (w, Raise FileNotFoundError)
        end
    | Raise e => (w, Raise e)
    end.

(** [for x in l: acc = body(x, acc)], for loops that build a local value. *)
Fixpoint fold_each {A S} (l : list A) (body : A -> S -> M S) (acc : S) : M S :=
  match l with
  | [] => ret acc
  | x :: l' => acc' ← body x acc; fold_each l' body acc'
  end.

(** [for root, dirs, files in os.walk(top): acc = body(root, dirs, files, acc)],
    top down, not entering linked directories; a directory that cannot be
    listed is skipped. *)
Fixpoint os_walk {S} (depth : nat) (top : string)
    (body : string -> list string -> list string -> S -> M S) (acc : S) : M S :=
  match depth with
  | O => raise RecursionError
  | S depth' =>
      fun w =>
        match os_listdir top w with
        | (_, Raise _) => (w, Ok acc)
        | (_, Ok names) =>
            let dirs := List.filter (fun n => isdir w (join top n)) names in
            let nondirs := List.filter (fun n => negb (isdir w (join top n))) names in
            (acc ← body top dirs nondirs acc;
             fold_each dirs (fun dn acc =>
               let new_path := join top dn in
               l ← ask (fun w => islink w new_path);
               if l : bool then ret acc else os_walk depth' new_path body acc) acc) w
        end
  end.

(** ** [class PrebuiltExtension] *)

Record PrebuiltExtension : Type := mkExt {
  name : string;
  lib_dir : string
}.

(** [PrebuiltExtension.__init__]: the library directory is made absolute. *)
Definition PrebuiltExtension_init (cwd name lib_dir : string) : PrebuiltExtension :=
  mkExt name (abspath cwd lib_dir).

(** ** [class CustomBuildExt]

    The command object: its extensions and setuptools' [get_ext_fullpath]. *)

Record build_ext : Type := mkBuildExt {
  extensions : list PrebuiltExtension;
  get_ext_fullpath : string -> string
}.

(** The body of the [if os.path.islink(source_path)] branch of
    [copy_all_files]. *)
Definition copy_link (source_path destination_path : string) : M unit :=
  link_target ← os_readlink source_path;
  let link_target :=
    if negb (isabs link_target)
    then join (dirname source_path) link_target
    else link_target in
  (e ← ask (fun w => path_exists w destination_path);
   if e : bool then
     l ← ask (fun w => islink w destination_path);
     if l : bool then os_unlink destination_path
     else shutil_rmtree destination_path
   else ret tt) ;;
  try_except
    (rel_target ← (fun w => (w, relpath (cwd w) link_target (dirname destination_path)));
     os_symlink rel_target destination_path ;;
     print ("Created symbolic link: " +:+ destination_path +:+ " -> " +:+ rel_target))
    (fun e => is_OSError e || is_ValueError e)
    (fun _ =>
       os_symlink link_target destination_path ;;
       print ("Created symbolic link: " +:+ destination_path +:+ " -> " +:+ link_target)).

(** The body of the loop of [copy_all_files] for one [item]; [recurse] is
    the method itself, for the directories. *)
Definition copy_entry (recurse : string -> string -> M unit)
    (source_dir destination_dir item : string) : M unit :=
  let source_path := join source_dir item in
  let destination_path := join destination_dir item in
  l ← ask (fun w => islink w source_path);
  if l : bool then copy_link source_path destination_path
  else
    d ← ask (fun w => isdir w source_path);
    if d : bool then recurse source_path destination_path
    else
      shutil_copy2 source_path destination_path ;;
      print ("Copied: " +:+ source_path +:+ " -> " +:+ destination_path).

(** [copy_all_files]; [depth] is the recursion depth the interpreter still
    allows. *)
Fixpoint copy_all_files (depth : nat) (source_dir destination_dir : string) : M unit :=
  match depth with
  | O => raise RecursionError
  | S depth' =>
      os_makedirs destination_dir ;;
      items ← os_listdir source_dir;
      for_each items (copy_entry (copy_all_files depth') source_dir destination_dir)
  end.

(** The test of [_fix_file_permissions] on a path and its last name. *)
Definition is_shared_lib (filepath file : string) : bool :=
  endswith ".so" filepath || endswith ".dylib" filepath || str_in ".so." file.

Definition extdir_of (self : build_ext) (w : world) (ext : PrebuiltExtension) : string :=
  abspath (cwd w) (dirname (get_ext_fullpath self (name ext))).

(** The body of the loops of [_fix_file_permissions] for one file. *)
Definition fix_one (root file : string) : M unit :=
  let filepath := join root file in
  if is_shared_lib filepath file then
    m ← os_stat_mode filepath;
    os_chmod filepath (Z.lor m 493)   (* 0o755 *)
  else ret tt.

(** [_fix_file_permissions] *)
Definition _fix_file_permissions (depth : nat) (self : build_ext) : M unit :=
  for_each (extensions self) (fun ext =>
    extdir ← ask (fun w => extdir_of self w ext);
    e ← ask (fun w => path_exists w extdir);
    if e : bool then
      os_walk depth extdir (fun root dirs files _ =>
        for_each files (fun file => fix_one root file)) tt
    else ret tt).

(** [_record_installed_files] *)
Definition _record_installed_files (depth : nat) (extdir : string) : M unit :=
  installed_files ←
    os_walk depth extdir (fun root dirs files installed_files =>
      fold_each files (fun file installed_files =>
        r ← (fun w => (w, relpath (cwd w) (join root file) extdir));
        mret (installed_files ++ [r])) installed_files) [];
  print ("Installed " +:+ str_of_nat (List.length installed_files) +:+ " files:") ;;
  for_each (sorted installed_files) (fun file => print ("  - " +:+ file)).

(** [Path(d).rglob("*")]: every entry below the directory, when [d] leads to
    one. *)
Definition rglob_all (w : world) (d : string) : list loc :=
  match locate true w d with
  | Ok l =>
      match node_at (files w) l with
      | Some Dir => descendants (files w) l
      | _ => []
      end
  | Raise _ => []
  end.

(** [build_extension] *)
Definition build_extension (depth : nat) (self : build_ext)
    (ext : PrebuiltExtension) : M unit :=
  d ← ask (fun w => isdir w (lib_dir ext));
  if negb d then raise FileNotFoundError
  else
    lib_files ← ask (fun w => rglob_all w (lib_dir ext));
    if is_nil lib_files then raise FileNotFoundError
    else
      print ("Found " +:+ str_of_nat (List.length lib_files) +:+ " files in "
             +:+ lib_dir ext) ;;
      extdir ← ask (fun w => extdir_of self w ext);
      os_makedirs extdir ;;
      copy_all_files depth (lib_dir ext) extdir ;;
      _record_installed_files depth extdir.

(** [run] *)
Definition run (depth : nat) (self : build_ext) : M unit :=
  for_each (extensions self) (fun ext => build_extension depth self ext) ;;
  _fix_file_permissions depth self.

(** ** [class PlatformSpecificWheel] *)

(** The host as the resolver sees it: [platform.system()],
    [platform.machine()], and what [subprocess.run(['ldd', '--version'])]
    gave, its standard output or the exception it raised. *)
Record host : Type := mkHost {
  system : string;
  machine : string;
  ldd : result string
}.

(** The digits [0] to [9]: what [\d] matches among the ASCII characters.  On
    other characters [\d] goes by the Unicode tables; the search below is the
    search of [re] on ASCII text. *)
Definition is_digit (c : ascii) : bool :=
  (48 <=? nat_of_ascii c)%nat && (nat_of_ascii c <=? 57)%nat.

(** The longest run of digits at the start of [s], and the rest. *)
Fixpoint span_digits (s : string) : string * string :=
  match s with
  | EmptyString => (EmptyString, EmptyString)
  | String c s' =>
      if is_digit c then
        let (d, r) := span_digits s' in (String c d, r)
      else (EmptyString, s)
  end.

(** Group 1 of a match of [(\d+\.\d+)(\.\d+)?] at the start of [s]. *)
Definition match_version (s : string) : option string :=
  let (d1, r1) := span_digits s in
  if String.eqb d1 "" then None
  else
    match r1 with
    | String c r2 =>
        if Ascii.eqb c "." then
          let (d2, _) := span_digits r2 in
          if String.eqb d2 "" then None else Some (d1 +:+ "." +:+ d2)
        else None
    | EmptyString => None
    end.

(** [re.search(r'(\d+\.\d+)(\.\d+)?', s)], group 1 of the leftmost match. *)
Fixpoint re_search_version (s : string) : option string :=
  match match_version s with
  | Some v => Some v
  | None =>
      match s with
      | EmptyString => None
      | String _ s' => re_search_version s'
      end
  end.

(** The chain of comparisons of [_get_linux_platform_tag]. *)
Definition manylinux_tag (glibc_version : string) : string :=
  if str_ge glibc_version "2.35" then "manylinux_2_35_x86_64"
  else if str_ge glibc_version "2.34" then "manylinux_2_34_x86_64"
  else if str_ge glibc_version "2.31" then "manylinux_2_31_x86_64"
  else if str_ge glibc_version "2.17" then "manylinux_2_17_x86_64"
  else "manylinux_2_12_x86_64".

Definition is_probe_caught (e : exn) : bool :=
  match e with
  | SubprocessError | FileNotFoundError => true
  | _ => false
  end.

(** [_get_linux_platform_tag].  Each [try] block yields [Some tag] when it
    returns from the function and [None] when control falls out of it. *)
Definition _get_linux_platform_tag (h : host) (plat : string) : M string :=
  r ← try_except
        (out ← (fun w => (w, ldd h));
         if str_in "glibc" out || str_in "GLIBC" out then
           match re_search_version out with
           | Some glibc_version =>
               print ("Detected glibc version: " +:+ glibc_version) ;;
               mret (Some (manylinux_tag glibc_version))
           | None => mret None
           end
         else mret None)
        is_probe_caught
        (fun _ => mret None);
  match r with
  | Some tag => mret tag
  | None =>
      r2 ← try_except
             (let libc_path := "/lib64/libc.so.6" in
              e ← ask (fun w => path_exists w libc_path);
              if e : bool then mret (Some "manylinux_2_34_x86_64") else mret None)
             (fun _ => true)
             (fun _ => mret None);
      match r2 with
      | Some tag => mret tag
      | None => mret "manylinux_2_34_x86_64"
      end
  end.

(** [_get_macos_platform_tag] *)
Definition _get_macos_platform_tag (h : host) (plat : string) : string :=
  let arch := lower (machine h) in
  if String.eqb arch "arm64" then "macosx_11_0_arm64" else "macosx_10_15_x86_64".

(** [_get_windows_platform_tag] *)
Definition _get_windows_platform_tag (plat : string) : string :=
  if str_in "amd64" plat || str_in "x64" plat then "win_amd64" else "win32".

(** [get_tag]; [super_tag] is what [super().get_tag()] returned. *)
Definition get_tag (h : host) (super_tag : string * string * string)
    : M (string * string * string) :=
  let '(python, abi, plat) := super_tag in
  let system := lower (system h) in
  plat ← (if String.eqb system "linux" then _get_linux_platform_tag h plat
          else if String.eqb system "darwin" then mret (_get_macos_platform_tag h plat)
          else if String.eqb system "windows" then mret (_get_windows_platform_tag plat)
          else mret plat);
  mret (python, abi, plat).

(** ** [check_prerequisites] *)

Definition library_extensions : list string :=
  [".so"; ".dylib"; ".dll"; ".pyd"; ".a"; ".lib"].

Definition last_name (l : loc) : string :=
  match last l with Some n => n | None => "" end.

Definition help_text : string :=
  nl +:+ nl +:+ "Please compile the C++ SDK first:" +:+ nl
  +:+ "1. mkdir build && cd build" +:+ nl
  +:+ "2. cmake -Dpybind11_DIR=$(python -c 'import pybind11; print(pybind11.get_cmake_dir())') .." +:+ nl
  +:+ "3. make -j4" +:+ nl
  +:+ "4. make install" +:+ nl.

(** The list [errors] at the end of the two checks; [here] is the directory
    of [setup.py].  [iterdir] raises on an entry that is not a directory. *)
Definition collect_errors (here : string) : M (list string) :=
  let lib_dir := join (join here "install") "lib" in
  ex ← ask (fun w => path_exists w lib_dir);
  errors ← (if negb ex then mret ["Directory '" +:+ lib_dir +:+ "' does not exist."]
            else
              items ← os_listdir lib_dir;
              if is_nil items then mret ["Directory '" +:+ lib_dir +:+ "' is empty."]
              else mret []);
  ex2 ← ask (fun w => path_exists w lib_dir);
  if ex2 : bool then
    found ← ask (fun w => rglob_all w lib_dir);
    let has_libs :=
      existsb (fun file => existsb (String.eqb (suffix (last_name file))) library_extensions)
        found in
    if negb has_libs then
      mret (errors ++ ["No library files found in '" +:+ lib_dir +:+ "'"])
    else mret errors
  else mret errors.

Definition check_prerequisites (here : string) : M unit :=
  errors ← collect_errors here;
  if negb (is_nil errors) then
    raise (RuntimeError (String.concat nl errors +:+ help_text))
  else mret tt.

(** The module-level [try: check_prerequisites() except RuntimeError as e:];
    a normal return means that the script goes on to [setup(...)]. *)
Definition module_check (here : string) : M unit :=
  try_except (check_prerequisites here)
    is_RuntimeError
    (fun e =>
       match e with
       | RuntimeError msg =>
           print ("Warning: " +:+ msg) ;;
           print "Continuing setup, but installation may fail if libraries are missing."
       | _ => mret tt
       end).

(** ** Reference values for the statements below *)

(** What [ldd --version] prints on a system with glibc 2.4. *)
Definition ubuntu_6_10 : string := "ldd (Ubuntu GLIBC 2.4-1ubuntu12) 2.4".

(** No name is preferred: listings are alphabetical. *)
Definition by_name : string -> nat := fun _ => 0.

Definition empty_world : world := mkWorld ∅ "/" [] by_name.

(** The tag the threshold table assigns to a version read as two numbers,
    as the specification words it. *)
Definition threshold_tag (major minor : nat) : string :=
  if (major =? 2)%nat && (35 <=? minor)%nat || (3 <=? major)%nat then "manylinux_2_35_x86_64"
  else if (major =? 2)%nat && (34 <=? minor)%nat then "manylinux_2_34_x86_64"
  else if (major =? 2)%nat && (31 <=? minor)%nat then "manylinux_2_31_x86_64"
  else if (major =? 2)%nat && (17 <=? minor)%nat then "manylinux_2_17_x86_64"
  else "manylinux_2_12_x86_64".

Definition linux_tags : list string :=
  ["manylinux_2_35_x86_64"; "manylinux_2_34_x86_64"; "manylinux_2_31_x86_64";
   "manylinux_2_17_x86_64"; "manylinux_2_12_x86_64"].

(** A host whose [ldd] exists but may not be executed. *)
Definition locked_ldd_host : host := mkHost "Linux" "x86_64" (Raise PermissionError).

(** A host without [ldd]. *)
Definition no_ldd_host : host := mkHost "Linux" "aarch64" (Raise FileNotFoundError).

(** [lib_dir] of [check_prerequisites] for a script in the directory [here]. *)
Definition lib_dir_of (here : string) : string := join (join here "install") "lib".

(** Some entry below the directory has a known library extension. *)
Definition has_library (w : world) (lib : string) : bool :=
  existsb (fun file => existsb (String.eqb (suffix (last_name file))) library_extensions)
    (rglob_all w lib).

(** The violations the validator looks for, each with the lines it reports.
    It asks [os.path.exists] first and lists the directory next: an entry at
    [lib] that is no directory is none of them, and on it the validator does
    not report but stops with the [NotADirectoryError] of the listing. *)
Inductive violation (w : world) (lib : string) : list string -> Prop :=
| lib_dir_absent :
    path_exists w lib = false ->
    violation w lib ["Directory '" +:+ lib +:+ "' does not exist."]
| lib_dir_empty :
    isdir w lib = true ->
    rglob_all w lib = [] ->
    violation w lib ["Directory '" +:+ lib +:+ "' is empty.";
                     "No library files found in '" +:+ lib +:+ "'"]
| lib_dir_without_library :
    isdir w lib = true ->
    (exists items, os_listdir lib w = (w, Ok items) /\ items <> []) ->
    has_library w lib = false ->
    violation w lib ["No library files found in '" +:+ lib +:+ "'"].

(** A source directory with a library and a link to it, and a destination
    that still holds a link of the same name whose target is gone. *)
Definition stale_store : store :=
  list_to_map [
    (["s"], Dir);
    (["s"; "liba.so.1"], File 420 "ELF");
    (["s"; "liba.so"], Link "liba.so.1");
    (["d"], Dir);
    (["d"; "liba.so"], Link "old/liba.so.0")].

Definition stale_world : world := mkWorld stale_store "/" [] by_name.

(** The same source, and a destination that holds a regular file under the
    link's name. *)
Definition file_collision_world : world :=
  mkWorld (list_to_map [
    (["s"], Dir);
    (["s"; "liba.so.1"], File 420 "ELF");
    (["s"; "liba.so"], Link "liba.so.1");
    (["d"], Dir);
    (["d"; "liba.so"], File 420 "OLD")]) "/" [] by_name.

(** The same source, and a destination that holds a directory, and one that
    holds a link whose target exists, under the link's name. *)
Definition dir_collision_world : world :=
  mkWorld (list_to_map [
    (["s"], Dir);
    (["s"; "liba.so.1"], File 420 "ELF");
    (["s"; "liba.so"], Link "liba.so.1");
    (["d"], Dir);
    (["d"; "liba.so"], Dir);
    (["d"; "liba.so"; "junk"], File 420 "OLD")]) "/" [] by_name.

Definition live_link_collision_world : world :=
  mkWorld (list_to_map [
    (["s"], Dir);
    (["s"; "liba.so.1"], File 420 "ELF");
    (["s"; "liba.so"], Link "liba.so.1");
    (["d"], Dir);
    (["d"; "liba.so.0"], File 420 "OLD");
    (["d"; "liba.so"], Link "liba.so.0")]) "/" [] by_name.

(** The path [abspath] normalises: [p] itself when absolute, else [p] under
    the working directory. *)
Definition absolute (cwd p : string) : string :=
  if isabs p then p else join cwd p.

(** A name as it stands in a normalised absolute path: not empty, no
    separator inside, neither [.] nor [..]. *)
Definition plain (x : string) : Prop :=
  split_sep x = [x] /\ x <> "".

Definition proper (x : string) : Prop :=
  plain x /\ x <> "." /\ x <> "..".

(** A built library with its development link, and an empty staging
    directory. *)
Definition fresh_world : world :=
  mkWorld (list_to_map [
    (["p"], Dir);
    (["p"; "install"], Dir);
    (["p"; "install"; "lib"], Dir);
    (["p"; "install"; "lib"; "libfoo.so.1"], File 420 "ELF");
    (["p"; "install"; "lib"; "libfoo.so"], Link "libfoo.so.1");
    (["p"; "build"], Dir);
    (["p"; "build"; "lib"], Dir)]) "/p" [] by_name.

(** Every name of [rest], walked from [cur], is a directory of the store. *)
Fixpoint dirs_along (fs : store) (cur : loc) (rest : list string) : Prop :=
  match rest with
  | [] => True
  | c :: rest' => node_at fs (cur ++ [c]) = Some Dir /\ dirs_along fs (cur ++ [c]) rest'
  end.

(** The permission bits [os.chmod(p, os.stat(p).st_mode | 0o755)] leaves on a
    file whose bits were [m]. *)
Definition with_755 (m : Z) : Z := Z.lor (Z.land m PERM_MASK) 493.

(** [fs'] is [fs] where some files received [with_755]. *)
Definition touched (fs fs' : store) : Prop :=
  forall k,
    fs' !! k = fs !! k
    \/ exists m data, fs !! k = Some (File m data)
                      /\ fs' !! k = Some (File (with_755 m) data).

Definition perm_step (w w' : world) : Prop :=
  cwd w' = cwd w /\ touched (files w) (files w').

(** The walk of [_fix_file_permissions] below one directory. *)
Definition fix_walk (depth : nat) (top : string) : M unit :=
  os_walk depth top (fun root dirs files _ =>
    for_each files (fun file => fix_one root file)) tt.

(** A name that marks a shared library: it ends in [.so] or [.dylib], or has
    [.so.] inside, as in [libfoo.so.1]. *)
Definition shared_lib_name (file : string) : bool :=
  endswith ".so" file || endswith ".dylib" file || str_in ".so." file.

(** [s] contains a separator. *)
Fixpoint has_sep (s : string) : bool :=
  match s with
  | EmptyString => false
  | String c s' => is_sep c || has_sep s'
  end.

(** A staging directory with one library that only its owner may read and
    write (mode [0o600]). *)
Definition private_lib_world : world :=
  mkWorld (list_to_map [
    (["d"], Dir);
    (["d"; "libfoo.so"], File 384 "ELF")]) "/" [] by_name.

(** [ext_modules] of the call of [setup], for a script in [/p]. *)
Definition the_extension : PrebuiltExtension :=
  PrebuiltExtension_init "/p" "pyorbbecsdk" "install/lib".

Definition staging_command : build_ext :=
  mkBuildExt [the_extension] (fun n => "/d/" +:+ n +:+ ".so").

(** Every name in the store is a proper name. *)
Definition wf_store (fs : store) : Prop :=
  forall k nd, fs !! k = Some nd -> Forall proper k.

(** Every name of [rest], walked from [cur], is a directory of the store or
    does not exist. *)
Fixpoint dirs_or_free (fs : store) (cur : loc) (rest : list string) : Prop :=
  match rest with
  | [] => True
  | c :: rest' =>
      (node_at fs (cur ++ [c]) = Some Dir \/ node_at fs (cur ++ [c]) = None)
      /\ dirs_or_free fs (cur ++ [c]) rest'
  end.

(** From [w] to [w'] the store changed only at [d] and below it. *)
Definition only_within (d : loc) (w w' : world) : Prop :=
  cwd w' = cwd w
  /\ forall k, within d k = false -> files w' !! k = files w !! k.

(** From [w] to [w'] the store changed only at [d] and below it, or by the
    creation of a missing directory on the way to [d]. *)
Definition only_dest (d : loc) (w w' : world) : Prop :=
  cwd w' = cwd w
  /\ forall k,
       within d k = false ->
       files w' !! k = files w !! k
       \/ (k <> [] /\ k `prefix_of` d /\ files w !! k = None /\ files w' !! k = Some Dir).

(** A rebuilt source, and a staging directory left from an earlier run: its
    [libfoo.so] is the link the earlier run made to a library of the source
    tree; in the source [libfoo.so] is now a regular file. *)
Definition rebuilt_world : world :=
  mkWorld (list_to_map [
    (["s"], Dir);
    (["s"; "libfoo.so"], File 420 "NEW");
    (["s"; "libfoo.so.1"], File 420 "OLD");
    (["d"], Dir);
    (["d"; "libfoo.so"], Link "../s/libfoo.so.1")]) "/" [] by_name.

(** From [w] to [w'] the store is the same, or has one entry put at [l]. *)
Definition at_most_insert (l : loc) (w w' : world) : Prop :=
  cwd w' = cwd w
  /\ (files w' = files w \/ exists nd, files w' = <[l := nd]> (files w)).

(** What a call of the replicator into a fresh place may assume and
    guarantees: on a destination whose leading parts are real directories or
    missing and below which nothing exists, only the destination changes. *)
Definition replicates_into_fresh (recurse : string -> string -> M unit) : Prop :=
  forall (source_dir destination_dir : string) (w : world) (d : loc),
    path_comps (cwd w) destination_dir = d -> Forall proper d ->
    wf_store (files w) ->
    dirs_or_free (files w) [] d ->
    (forall k, below d k = true -> files w !! k = None) ->
    only_dest d w (fst (recurse source_dir destination_dir w))
    /\ wf_store (files (fst (recurse source_dir destination_dir w))).

(** The test for a proper name, and for a store of proper names. *)
Definition properb (c : string) : bool :=
  match split_sep c with
  | [x] => String.eqb x c
  | _ => false
  end
  && nonempty c && negb (String.eqb c ".") && negb (String.eqb c "..").

Definition wf_storeb (fs : store) : bool :=
  forallb (fun kv => forallb properb (fst kv)) (map_to_list fs).

(** The tags the macOS and the Windows resolver choose from. *)
Definition macos_tags : list string :=
  ["macosx_11_0_arm64"; "macosx_10_15_x86_64"].

Definition windows_tags : list string := ["win_amd64"; "win32"].

(** The platform tags [get_tag] can return on host [h] when the parent class
    proposed [plat]. *)
Definition platform_tags (h : host) (plat : string) : list string :=
  let system := lower (system h) in
  if String.eqb system "linux" then linux_tags
  else if String.eqb system "darwin" then macos_tags
  else if String.eqb system "windows" then windows_tags
  else [plat].

(** [s.isascii()] *)
Fixpoint isascii (s : string) : bool :=
  match s with
  | EmptyString => true
  | String c s' => (nat_of_ascii c <? 128)%nat && isascii s'
  end.

(** [s] consists of decimal digits. *)
Fixpoint all_digits (s : string) : bool :=
  match s with
  | EmptyString => true
  | String c s' => is_digit c && all_digits s'
  end.

(** [s] does not start with a digit. *)
Definition no_digit_ahead (s : string) : Prop :=
  match s with
  | EmptyString => True
  | String c _ => is_digit c = false
  end.

(** Nothing was printed from [w] to [w']. *)
Definition quiet (w w' : world) : Prop := stdout w' = stdout w.

(** The lines [_record_installed_files] prints for the list it collected. *)
Definition installed_report (installed_files : list string) : list string :=
  ("Installed " +:+ str_of_nat (List.length installed_files) +:+ " files:")
  :: List.map (fun file => "  - " +:+ file) (sorted installed_files).

(** Each name of the list is at most the next one, in the order of [str]. *)
Definition ascending (l : list string) : Prop :=
  Sorted (fun a b => String.leb a b = true) l.

(** The test of [check_prerequisites] on one name: its [suffix] is a known
    library extension. *)
Definition has_library_suffix (name : string) : bool :=
  existsb (String.eqb (suffix name)) library_extensions.

(** A directory [/p/install/lib] that is a regular file. *)
Definition lib_is_a_file_world : world :=
  mkWorld (list_to_map [
    (["p"], Dir);
    (["p"; "install"], Dir);
    (["p"; "install"; "lib"], File 420 "")]) "/p" [] by_name.

(** A source link with an absolute target, and an empty destination. *)
Definition absolute_link_world : world :=
  mkWorld (list_to_map [
    (["opt"], Dir);
    (["opt"; "liba.so.1"], File 420 "ELF");
    (["s"], Dir);
    (["s"; "liba.so"], Link "/opt/liba.so.1");
    (["d"], Dir)]) "/" [] by_name.

(** A destination [/out/lib] of which nothing exists yet, and no source. *)
Definition no_source_world : world :=
  mkWorld (list_to_map [(["s"], Dir)]) "/" [] by_name.

(** ** Text files: [read_long_description] and [get_requirements]

    What is read from a file in text mode is a Python [str] with characters
    beyond one byte: a list of code points.  The bytes of a file are the
    characters of its [data].  Access rights are not enforced. *)

Abbreviation text := (list N).

Definition bytes_of (data : string) : list N :=
  List.map N_of_ascii (list_ascii_of_string data).

(** [data.decode('latin-1')]: every byte is its own code point. *)
Definition decode_latin1 (data : string) : result text := Ok (bytes_of data).

(** A continuation byte, [0x80..0xBF]. *)
Definition is_cont (b : N) : bool := (128 <=? b)%N && (b <=? 191)%N.

(** The strict UTF-8 decoder on a list of bytes: the shortest form only, no
    surrogates, nothing above [U+10FFFF]. *)
Fixpoint utf8 (bs : list N) : option text :=
  match bs with
  | [] => Some []
  | b0 :: r0 =>
      if (b0 <? 128)%N then cons b0 <$> utf8 r0
      else if (194 <=? b0)%N && (b0 <=? 223)%N then
        match r0 with
        | b1 :: r1 =>
            if is_cont b1
            then cons ((b0 - 192) * 64 + (b1 - 128))%N <$> utf8 r1
            else None
        | _ => None
        end
      else if (224 <=? b0)%N && (b0 <=? 239)%N then
        match r0 with
        | b1 :: b2 :: r2 =>
            if ((if (b0 =? 224)%N then 160 else 128) <=? b1)%N
               && (b1 <=? (if (b0 =? 237)%N then 159 else 191))%N
               && is_cont b2
            then cons ((b0 - 224) * 4096 + (b1 - 128) * 64 + (b2 - 128))%N <$> utf8 r2
            else None
        | _ => None
        end
      else if (240 <=? b0)%N && (b0 <=? 244)%N then
        match r0 with
        | b1 :: b2 :: b3 :: r3 =>
            if ((if (b0 =? 240)%N then 144 else 128) <=? b1)%N
               && (b1 <=? (if (b0 =? 244)%N then 143 else 191))%N
               && is_cont b2 && is_cont b3
            then cons ((b0 - 240) * 262144 + (b1 - 128) * 4096
                       + (b2 - 128) * 64 + (b3 - 128))%N <$> utf8 r3
            else None
        | _ => None
        end
      else None
  end.

(** [data.decode('utf-8')] *)
Definition decode_utf8 (data : string) : result text :=
  match utf8 (bytes_of data) with
  | Some t => Ok t
  | None => Raise UnicodeDecodeError
  end.

(** Reading in text mode with [newline=None]: [\r\n] and [\r] become [\n]. *)
Fixpoint universal_newlines (t : text) : text :=
  match t with
  | [] => []
  | c :: r =>
      if (c =? 13)%N then
        10%N :: match r with
                | c' :: r' => if (c' =? 10)%N then universal_newlines r'
                              else universal_newlines r
                | [] => []
                end
      else c :: universal_newlines r
  end.

(** [open(p, 'r', encoding=...).read()]: the whole file as text.  The
    permission bits are not consulted: the caller is taken to be allowed to
    read the file, so [PermissionError] is not among the results. *)
Definition read_text (decode : string -> result text) (p : string) : M text :=
  fun w =>
    match stat_node true w p with
    | Ok (File _ data) =>
        match decode data with
        | Ok t => (w, Ok (universal_newlines t))
        | Raise e => (w, Raise e)
        end
    | Ok _ => (w, Raise IsADirectoryError)
    | Raise e => (w, Raise e)
    end.

Definition is_UnicodeDecodeError (e : exn) : bool :=
  match e with
  | UnicodeDecodeError => true
  | _ => false
  end.

(** [read_long_description]; [here] is the directory of [setup.py]. *)
Definition read_long_description (here : string) : M text :=
  let readme_path := join here "README.md" in
  e ← ask (fun w => path_exists w readme_path);
  if e : bool then
    try_except (read_text decode_utf8 readme_path)
      is_UnicodeDecodeError
      (fun _ => read_text decode_latin1 readme_path)
  else mret [].

(** The lines of a text as iterating over the file gives them: each with its
    [\n], the last one without when the text does not end in one. *)
Fixpoint readlines_go (cur t : text) : list text :=
  match t with
  | [] => if is_nil cur then [] else [cur]
  | c :: r =>
      if (c =? 10)%N then (cur ++ [c]) :: readlines_go [] r
      else readlines_go (cur ++ [c]) r
  end.

Definition readlines (t : text) : list text := readlines_go [] t.

(** [c.isspace()] *)
Definition isspace (c : N) : bool :=
  (9 <=? c)%N && (c <=? 13)%N
  || (28 <=? c)%N && (c <=? 32)%N
  || (c =? 133)%N || (c =? 160)%N || (c =? 5760)%N
  || (8192 <=? c)%N && (c <=? 8202)%N
  || (c =? 8232)%N || (c =? 8233)%N || (c =? 8239)%N || (c =? 8287)%N
  || (c =? 12288)%N.

(** [s.lstrip()], [s.rstrip()], [s.strip()] *)
Fixpoint lstrip (s : text) : text :=
  match s with
  | [] => []
  | c :: r => if isspace c then lstrip r else s
  end.

Definition rstrip (s : text) : text := rev (lstrip (rev s)).

Definition strip (s : text) : text := rstrip (lstrip s).

(** [line.startswith('#')] *)
Definition starts_with_hash (line : text) : bool :=
  match line with
  | c :: _ => (c =? 35)%N
  | [] => false
  end.

(** The list comprehension of [get_requirements] over the lines. *)
Definition requirements_of (lines : list text) : list text :=
  List.map strip
    (List.filter (fun line => negb (is_nil (strip line)) && negb (starts_with_hash line))
       lines).

(** [get_requirements] *)
Definition get_requirements (here : string) : M (list text) :=
  let req_path := join here "requirements.txt" in
  e ← ask (fun w => path_exists w req_path);
  if e : bool then
    t ← read_text decode_utf8 req_path;
    mret (requirements_of (readlines t))
  else mret [].

(** A script directory whose [README.md] and [requirements.txt] hold the two
    bytes [0xE9 0x0A]: Latin-1 for an accented letter and a newline, not
    valid UTF-8. *)
Definition latin1_files_world : world :=
  mkWorld (list_to_map [
    (["p"], Dir);
    (["p"; "README.md"], File 420 (String (ascii_of_nat 233) nl));
    (["p"; "requirements.txt"], File 420 (String (ascii_of_nat 233) nl))])
    "/p" [] by_name.

(** A script directory whose [requirements.txt] holds a comment, an indented
    comment, a blank line and a requirement between spaces, with [\r\n] line
    ends. *)
Definition cr : string := String (ascii_of_nat 13) EmptyString.

Definition text_files_world : world :=
  mkWorld (list_to_map [
    (["p"], Dir);
    (["p"; "requirements.txt"],
       File 420 ("# build" +:+ cr +:+ nl +:+ "  # pinned" +:+ cr +:+ nl
                 +:+ cr +:+ nl +:+ " numpy>=1.20 " +:+ cr +:+ nl))])
    "/p" [] by_name.


(** A staging directory that holds only a link with a library name; the
    library itself lies outside, readable by its owner alone. *)
Definition linked_lib_world : world :=
  mkWorld (list_to_map [
    (["opt"], Dir);
    (["opt"; "libfoo.so.1"], File 384 "ELF");
    (["d"], Dir);
    (["d"; "libfoo.so"], Link "/opt/libfoo.so.1")]) "/" [] by_name.

(** A run of [k] separators. *)
Fixpoint slashes (k : nat) : string :=
  match k with
  | O => EmptyString
  | S k' => String "/" (slashes k')
  end.

(** * Properties *)

(** ** Reasoning about the monad *)

Lemma bind_unfold {A B} (m : M A) (k : A -> M B) (w : world) :
  (m ≫= k) w = match m w with
               | (w', Ok a) => k a w'
               | (w', Raise e) => (w', Raise e)
               end.
Proof. reflexivity. Qed.

Lemma bind_raise {A B} (m : M A) (k : A -> M B) (w w' : world) (e : exn) :
  m w = (w', Raise e) -> (m ≫= k) w = (w', Raise e).
Proof. intros H. rewrite bind_unfold, H. reflexivity. Qed.

Lemma bind_ask {A B} (f : world -> A) (k : A -> M B) (w : world) :
  (ask f ≫= k) w = k (f w) w.
Proof. reflexivity. Qed.

(** ** The platform tag resolver *)

(** C1.  On the output of glibc 2.4 the resolver detects the version "2.4"
    and answers with the tag of the 2.35 threshold, where the threshold table
    read on numbers gives the oldest tag: the versions are compared as text.
    In the other direction a version 2.100 gets the oldest tag. *)
Theorem linux_tag_compares_versions_as_text :
  re_search_version ubuntu_6_10 = Some "2.4"
  /\ threshold_tag 2 4 = "manylinux_2_12_x86_64"
  /\ (forall (w : world) (plat : string),
        snd (_get_linux_platform_tag (mkHost "Linux" "x86_64" (Ok ubuntu_6_10)) plat w)
        = Ok "manylinux_2_35_x86_64")
  /\ threshold_tag 2 100 = "manylinux_2_35_x86_64"
  /\ manylinux_tag "2.100" = "manylinux_2_12_x86_64".
Proof. repeat split. Qed.

Lemma two_digits (n : nat) :
  10 <= n <= 99 ->
  exists a b : nat, 1 <= a <= 9 /\ b <= 9 /\ n = 10 * a + b.
Proof.
  intros H. exists (n / 10), (n mod 10).
  pose proof (Nat.div_mod_eq n 10).
  pose proof (Nat.mod_upper_bound n 10).
  assert (n / 10 < 10) by (apply Nat.Div0.div_lt_upper_bound; lia).
  assert (1 <= n / 10) by (apply Nat.div_le_lower_bound; lia).
  lia.
Qed.

(** Where the text comparison and the numbers agree: glibc 2 with a minor
    version of two digits. *)
Lemma manylinux_tag_two_digit_minor (minor : nat) :
  10 <= minor <= 99 ->
  manylinux_tag ("2." +:+ pretty minor) = threshold_tag 2 minor.
Proof.
  intros H. destruct (two_digits minor H) as (a & b & Ha & Hb & ->).
  do 10 (destruct a as [|a]; [try lia; do 10 (destruct b as [|b]; [vm_compute; reflexivity|]); lia|]).
  lia.
Qed.


Lemma manylinux_tag_in (v : string) : In (manylinux_tag v) linux_tags.
Proof. unfold manylinux_tag, linux_tags. repeat (destruct (str_ge _ _)); simpl; tauto. Qed.

(** What the Linux resolver does, path by path. *)
Lemma linux_tag_cases (h : host) (plat : string) (w : world) :
  match ldd h with
  | Raise e =>
      if is_probe_caught e
      then _get_linux_platform_tag h plat w = (w, Ok "manylinux_2_34_x86_64")
      else _get_linux_platform_tag h plat w = (w, Raise e)
  | Ok out =>
      if str_in "glibc" out || str_in "GLIBC" out then
        match re_search_version out with
        | Some v =>
            _get_linux_platform_tag h plat w
            = (mkWorld (files w) (cwd w)
                 (stdout w ++ ["Detected glibc version: " +:+ v]) (rank w),
               Ok (manylinux_tag v))
        | None => _get_linux_platform_tag h plat w = (w, Ok "manylinux_2_34_x86_64")
        end
      else _get_linux_platform_tag h plat w = (w, Ok "manylinux_2_34_x86_64")
  end.
Proof.
  unfold _get_linux_platform_tag.
  cbv [mbind M_bind bind try_except mret M_ret ret print ask].
  destruct (ldd h) as [out|e].
  - destruct (str_in "glibc" out || str_in "GLIBC" out).
    + destruct (re_search_version out); [reflexivity|].
      destruct (path_exists w "/lib64/libc.so.6"); reflexivity.
    + destruct (path_exists w "/lib64/libc.so.6"); reflexivity.
  - destruct (is_probe_caught e); [|reflexivity].
    destruct (path_exists w "/lib64/libc.so.6"); reflexivity.
Qed.

(** C6.  The resolver does raise outward: with an [ldd] that may not be
    executed, running it raises [PermissionError], which is neither of the
    two classes the first [try] block handles, and [get_tag] raises it,
    whatever the tags of the parent class and the state of the file system;
    no tag is returned and nothing is printed.  The second [try] block, which
    handles every exception, is never reached. *)
Theorem get_tag_lets_permission_error_out (python abi plat : string) (w : world) :
  get_tag locked_ldd_host (python, abi, plat) w = (w, Raise PermissionError).
Proof. reflexivity. Qed.

(** C9.  Whenever [get_tag] takes the Linux branch, either it returns and
    the platform tag ends in [x86_64], whatever [platform.machine()] says and
    on each of its paths (a parsed version, the look at the file system, the
    default), or the probe raised an exception of a class the resolver does
    not handle, which is what [get_tag] raises. *)
Theorem linux_tag_ends_in_x86_64 (h : host) (st : string * string * string)
    (w : world) :
  lower (system h) = "linux" ->
  match get_tag h st w with
  | (_, Ok st') => endswith "x86_64" (snd st') = true
  | (_, Raise e) => ldd h = Raise e /\ is_probe_caught e = false
  end.
Proof.
  intros Hs. destruct st as [[python abi] plat]. unfold get_tag.
  rewrite Hs. simpl String.eqb. rewrite bind_unfold.
  pose proof (linux_tag_cases h plat w) as Hc.
  assert (Hin : forall t, In t linux_tags -> endswith "x86_64" t = true).
  { intros t Ht. simpl in Ht. intuition (subst; reflexivity). }
  destruct (ldd h) as [out|e].
  - destruct (str_in "glibc" out || str_in "GLIBC" out).
    + destruct (re_search_version out) as [v|]; rewrite Hc;
        [apply Hin, manylinux_tag_in | reflexivity].
    + rewrite Hc. reflexivity.
  - destruct (is_probe_caught e) eqn:He; rewrite Hc; [reflexivity|now split].
Qed.

Lemma linux_tag_ends_in_x86_64_witness :
  lower (system no_ldd_host) = "linux"
  /\ match get_tag no_ldd_host ("cp310", "cp310", "linux_aarch64") empty_world with
     | (_, Ok st') => endswith "x86_64" (snd st') = true
     | (_, Raise e) => ldd no_ldd_host = Raise e /\ is_probe_caught e = false
     end.
Proof.
  split; [reflexivity|].
  apply (linux_tag_ends_in_x86_64 no_ldd_host ("cp310", "cp310", "linux_aarch64")
           empty_world).
  reflexivity.
Defined.

(** ** Path resolution *)

Lemma walk_nil (n : nat) (fs : store) (f : bool) (cur : loc) :
  walk n fs f cur [] = Ok cur.
Proof. destruct n; reflexivity. Qed.

Lemma walk_cons (n : nat) (fs : store) (f : bool) (cur : loc) (c : string)
    (rest : list string) :
  walk n fs f cur (c :: rest) =
  if String.eqb c "" || String.eqb c "." then walk n fs f cur rest
  else if String.eqb c ".." then walk n fs f (removelast cur) rest
  else
    match node_at fs (cur ++ [c]) with
    | None => if is_nil rest then Ok (cur ++ [c]) else Raise FileNotFoundError
    | Some Dir => walk n fs f (cur ++ [c]) rest
    | Some (File _ _) => if is_nil rest then Ok (cur ++ [c]) else Raise NotADirectoryError
    | Some (Link t) =>
        if is_nil rest && negb f then Ok (cur ++ [c])
        else
          match n with
          | O => Raise OSError
          | S n' =>
              walk n' fs f (if isabs t then [] else cur) (comps t ++ rest)
          end
    end.
Proof. destruct n; reflexivity. Qed.

(** A path that leads to something other than a link leads there whether or
    not a final link would be followed. *)
Lemma walk_follow_irrelevant (fs : store) (n : nat) :
  forall (rest : list string) (cur l : loc),
    walk n fs false cur rest = Ok l ->
    (forall t, node_at fs l <> Some (Link t)) ->
    walk n fs true cur rest = Ok l.
Proof.
  induction n as [|n IHn].
  - induction rest as [|c rest IH]; intros cur l Hw Hl.
    + rewrite walk_nil in *. exact Hw.
    + rewrite walk_cons in *.
      destruct (String.eqb c "" || String.eqb c "."); [eauto|].
      destruct (String.eqb c ".."); [eauto|].
      destruct (node_at fs (cur ++ [c])) as [[m d|t|]|] eqn:Hn; eauto.
      destruct (is_nil rest); simpl in *; [|discriminate].
      injection Hw as <-. exfalso. eapply Hl; eauto.
  - induction rest as [|c rest IH]; intros cur l Hw Hl.
    + rewrite walk_nil in *. exact Hw.
    + rewrite walk_cons in *.
      destruct (String.eqb c "" || String.eqb c "."); [eauto|].
      destruct (String.eqb c ".."); [eauto|].
      destruct (node_at fs (cur ++ [c])) as [[m d|t|]|] eqn:Hn; eauto.
      destruct (is_nil rest); simpl in *; [|eauto].
      injection Hw as <-. exfalso. eapply Hl; eauto.
Qed.

Lemma stat_node_follow_irrelevant (w : world) (p : string) (l : loc) (nd : node) :
  locate false w p = Ok l ->
  node_at (files w) l = Some nd ->
  (forall t, nd <> Link t) ->
  locate true w p = Ok l.
Proof.
  unfold locate. intros Hl Hn Hk. apply walk_follow_irrelevant; [exact Hl|].
  intros t Ht. rewrite Hn in Ht. injection Ht as ->. eapply Hk; eauto.
Qed.

Lemma not_exists_not_isdir (w : world) (p : string) :
  path_exists w p = false -> isdir w p = false.
Proof.
  unfold path_exists, isdir. destruct (stat_node true w p); [discriminate|reflexivity].
Qed.

(** ** [build_extension] *)

(** C5.  When the library directory does not exist, is not a directory or has
    nothing below it, [build_extension] raises [FileNotFoundError] and the
    world is the one it started from: nothing was created or written.  With
    the one extension of this package, [run] ends the same way. *)
Theorem build_extension_missing_source (depth : nat) (self : build_ext)
    (ext : PrebuiltExtension) (w : world) :
  path_exists w (lib_dir ext) = false
  \/ isdir w (lib_dir ext) = false
  \/ rglob_all w (lib_dir ext) = [] ->
  build_extension depth self ext w = (w, Raise FileNotFoundError)
  /\ (extensions self = [ext] -> run depth self w = (w, Raise FileNotFoundError)).
Proof.
  intros H.
  assert (Hb : build_extension depth self ext w = (w, Raise FileNotFoundError)).
  { unfold build_extension. rewrite bind_ask.
    destruct H as [H | [H | H]].
    - rewrite (not_exists_not_isdir _ _ H). reflexivity.
    - rewrite H. reflexivity.
    - destruct (isdir w (lib_dir ext)); [|reflexivity].
      change (negb true) with false. cbv iota. rewrite bind_ask, H. reflexivity. }
  split; [exact Hb|].
  intros He. unfold run. rewrite He. simpl for_each.
  erewrite bind_raise; [reflexivity|].
  erewrite bind_raise; [reflexivity|exact Hb].
Qed.

Lemma build_extension_missing_source_witness :
  let self := mkBuildExt [mkExt "pyorbbecsdk" "/p/install/lib"] (fun n => n) in
  let ext := mkExt "pyorbbecsdk" "/p/install/lib" in
  path_exists empty_world (lib_dir ext) = false
  /\ build_extension 1000 self ext empty_world = (empty_world, Raise FileNotFoundError)
  /\ (extensions self = [ext] -> run 1000 self empty_world = (empty_world, Raise FileNotFoundError)).
Proof.
  intros self ext. split; [reflexivity|].
  apply (build_extension_missing_source 1000 self ext empty_world).
  left. reflexivity.
Defined.

(** ** The order of a listing *)

Lemma insert_by_perm (le : string -> string -> bool) (x : string) (l : list string) :
  insert_by le x l ≡ₚ x :: l.
Proof.
  induction l as [|y l IH]; [reflexivity|].
  simpl. destruct (le x y); [reflexivity|].
  rewrite IH. apply Permutation_swap.
Qed.

Lemma sort_by_perm (le : string -> string -> bool) (l : list string) :
  sort_by le l ≡ₚ l.
Proof.
  induction l as [|x l IH]; [reflexivity|].
  simpl. rewrite insert_by_perm. now rewrite IH.
Qed.

Lemma listing_perm (w : world) (names : list string) : listing w names ≡ₚ names.
Proof. apply sort_by_perm. Qed.

Lemma in_listing (w : world) (names : list string) (n : string) :
  In n (listing w names) <-> In n names.
Proof. rewrite <- !list_elem_of_In. now rewrite listing_perm. Qed.

Lemma NoDup_listing (w : world) (names : list string) :
  NoDup names -> NoDup (listing w names).
Proof. now rewrite listing_perm. Qed.

Lemma listing_nil (w : world) : listing w [] = [].
Proof. reflexivity. Qed.

(** ** [check_prerequisites] *)

Lemma child_below (d k : loc) (n : string) :
  child_name d k = Some n -> below d k = true.
Proof.
  revert k. induction d as [|x d IH]; intros [|y k] H; simpl in *; try discriminate.
  - reflexivity.
  - destruct (String.eqb x y); [|discriminate]. simpl. eauto.
Qed.

Lemma entries_nil_of_descendants (fs : store) (d : loc) :
  descendants fs d = [] -> entries fs d = [].
Proof.
  unfold descendants, entries.
  induction (map_to_list fs) as [|[k nd] l IH]; [reflexivity|].
  simpl. destruct (child_name d k) as [n|] eqn:Hc.
  - rewrite (child_below _ _ _ Hc). discriminate.
  - destruct (below d k); [discriminate|]. exact IH.
Qed.

Lemma isdir_inv (w : world) (p : string) :
  isdir w p = true ->
  exists l, locate true w p = Ok l /\ node_at (files w) l = Some Dir.
Proof.
  unfold isdir, stat_node. destruct (locate true w p) as [l|]; [|discriminate].
  destruct (node_at (files w) l) as [[| |]|] eqn:Hn; try discriminate.
  intros _. exists l. split; [reflexivity|exact Hn].
Qed.

Lemma isdir_exists (w : world) (p : string) :
  isdir w p = true -> path_exists w p = true.
Proof.
  unfold isdir, path_exists. destruct (stat_node true w p); [reflexivity|discriminate].
Qed.

Lemma collect_errors_violation (here : string) (w : world) (errors : list string) :
  violation w (lib_dir_of here) errors ->
  collect_errors here w = (w, Ok errors).
Proof.
  intros Hv. unfold collect_errors. fold (lib_dir_of here).
  cbv [mbind M_bind bind ask mret M_ret ret].
  inversion Hv as [Ha | Hd He | Hd (items & Hl & Hne) Hn]; subst errors.
  - rewrite Ha. cbn [negb]. rewrite Ha. reflexivity.
  - rewrite (isdir_exists _ _ Hd). cbn [negb].
    destruct (isdir_inv _ _ Hd) as (l & Hl & Hn).
    unfold os_listdir. rewrite Hl, Hn.
    unfold rglob_all in He. rewrite Hl, Hn in He.
    rewrite (entries_nil_of_descendants _ _ He), listing_nil. cbn [is_nil].
    rewrite (isdir_exists _ _ Hd).
    unfold rglob_all. rewrite Hl, Hn, He. reflexivity.
  - rewrite (isdir_exists _ _ Hd). cbn [negb].
    rewrite Hl. destruct items as [|i items]; [congruence|]. cbn [is_nil].
    rewrite (isdir_exists _ _ Hd).
    unfold has_library in Hn. rewrite Hn. reflexivity.
Qed.

(** Where the validator reports.  On each violation it tests for (nothing is
    found at the path of the directory, the directory is empty, or it holds
    no file with a known library extension) [check_prerequisites] raises a
    [RuntimeError] whose message lists the violations found, and the
    module-level invocation catches it, prints it as a warning, prints that it
    continues, and returns normally, so the script goes on to [setup]. *)
Theorem prerequisite_violation_is_a_warning (here : string) (w : world)
    (errors : list string) :
  violation w (lib_dir_of here) errors ->
  errors <> []
  /\ check_prerequisites here w
     = (w, Raise (RuntimeError (String.concat nl errors +:+ help_text)))
  /\ module_check here w
     = (mkWorld (files w) (cwd w)
          ((stdout w ++ ["Warning: " +:+ String.concat nl errors +:+ help_text])
           ++ ["Continuing setup, but installation may fail if libraries are missing."])
          (rank w),
        Ok tt).
Proof.
  intros Hv.
  assert (Hne : errors <> []) by (inversion Hv; discriminate).
  assert (Hc : check_prerequisites here w
               = (w, Raise (RuntimeError (String.concat nl errors +:+ help_text)))).
  { unfold check_prerequisites. rewrite bind_unfold, (collect_errors_violation _ _ _ Hv).
    destruct errors; [congruence|reflexivity]. }
  split; [exact Hne|]. split; [exact Hc|].
  unfold module_check, try_except. rewrite Hc. reflexivity.
Qed.

Lemma prerequisite_violation_is_a_warning_witness :
  violation empty_world (lib_dir_of "/p") ["Directory '/p/install/lib' does not exist."]
  /\ module_check "/p" empty_world
     = (mkWorld (files empty_world) (cwd empty_world)
          ((stdout empty_world
            ++ ["Warning: " +:+ String.concat nl ["Directory '/p/install/lib' does not exist."]
                +:+ help_text])
           ++ ["Continuing setup, but installation may fail if libraries are missing."])
          (rank empty_world),
        Ok tt).
Proof.
  assert (Hv : violation empty_world (lib_dir_of "/p")
                 ["Directory '/p/install/lib' does not exist."]).
  { apply (lib_dir_absent empty_world (lib_dir_of "/p")). reflexivity. }
  split; [exact Hv|].
  apply (prerequisite_violation_is_a_warning "/p" empty_world _ Hv).
Defined.

(** C8.  A violation can end the run at this check.  When [install/lib] is a
    regular file, so that no library directory is there ([isdir] is false,
    and [build_extension] reports the same world as a directory that does not
    exist), the validator takes the path for existing, listing it raises
    [NotADirectoryError], no diagnostic is produced, and the module-level
    invocation, which handles [RuntimeError] only, lets the exception out:
    nothing is printed and the script does not go on to [setup]. *)
Theorem prerequisite_check_stops_on_a_file :
  isdir lib_is_a_file_world (lib_dir_of "/p") = false
  /\ path_exists lib_is_a_file_world (lib_dir_of "/p") = true
  /\ check_prerequisites "/p" lib_is_a_file_world
     = (lib_is_a_file_world, Raise NotADirectoryError)
  /\ module_check "/p" lib_is_a_file_world
     = (lib_is_a_file_world, Raise NotADirectoryError)
  /\ forall depth self,
       build_extension depth self (PrebuiltExtension_init "/p" "pyorbbecsdk" "install/lib")
         lib_is_a_file_world
       = (lib_is_a_file_world, Raise FileNotFoundError).
Proof. repeat split. Qed.


(** ** The symbolic-link branch of [copy_all_files] *)

Lemma islink_inv (w : world) (p : string) :
  islink w p = true ->
  exists l t, locate false w p = Ok l /\ node_at (files w) l = Some (Link t)
              /\ os_readlink p w = (w, Ok t).
Proof.
  unfold islink, os_readlink, stat_node.
  destruct (locate false w p) as [l|]; [|discriminate].
  destruct (node_at (files w) l) as [[| |]|] eqn:Hn; try discriminate.
  intros _. eauto.
Qed.

Lemma islink_file (w : world) (p : string) (l : loc) (m : Z) (data : string) :
  locate false w p = Ok l ->
  node_at (files w) l = Some (File m data) ->
  islink w p = false /\ path_exists w p = true.
Proof.
  intros Hl Hn. unfold islink, path_exists, stat_node.
  rewrite (stat_node_follow_irrelevant w p l _ Hl Hn) by discriminate.
  rewrite Hl, Hn. split; reflexivity.
Qed.

Lemma copy_link_over_regular_file (source_path destination_path : string)
    (w : world) (l : loc) (m : Z) (data : string) :
  islink w source_path = true ->
  locate false w destination_path = Ok l ->
  node_at (files w) l = Some (File m data) ->
  shutil_rmtree destination_path w = (w, Raise NotADirectoryError)
  /\ copy_link source_path destination_path w = (w, Raise NotADirectoryError).
Proof.
  intros Hs Hl Hn.
  assert (Hr : shutil_rmtree destination_path w = (w, Raise NotADirectoryError)).
  { unfold shutil_rmtree. rewrite Hl, Hn. reflexivity. }
  split; [exact Hr|].
  destruct (islink_inv _ _ Hs) as (ls & t & _ & _ & Hrl).
  destruct (islink_file _ _ _ _ _ Hl Hn) as [Hil Hex].
  unfold copy_link. rewrite bind_unfold, Hrl.
  erewrite bind_raise; [reflexivity|].
  rewrite bind_ask, Hex, bind_ask, Hil. exact Hr.
Qed.

Lemma copy_entry_link (recurse : string -> string -> M unit)
    (source_dir destination_dir item : string) (w : world) :
  islink w (join source_dir item) = true ->
  copy_entry recurse source_dir destination_dir item w
  = copy_link (join source_dir item) (join destination_dir item) w.
Proof. intros H. unfold copy_entry. now rewrite bind_ask, H. Qed.

Lemma for_each_raise {A} (x : A) (l : list A) (body : A -> M unit)
    (w w' : world) (e : exn) :
  body x w = (w', Raise e) -> for_each (x :: l) body w = (w', Raise e).
Proof. intros H. simpl for_each. now rewrite bind_unfold, H. Qed.

(** C10.  When the entry [item] of the source directory is a link and its
    destination path holds a regular file, the collision branch calls
    [shutil.rmtree] on that file, which raises [NotADirectoryError]; the loop
    of the replicator stops there with the world unchanged: the file stays
    and no link is made. *)
Theorem link_over_regular_file_raises (recurse : string -> string -> M unit)
    (source_dir destination_dir item : string) (rest : list string)
    (w : world) (l : loc) (m : Z) (data : string) :
  islink w (join source_dir item) = true ->
  locate false w (join destination_dir item) = Ok l ->
  node_at (files w) l = Some (File m data) ->
  shutil_rmtree (join destination_dir item) w = (w, Raise NotADirectoryError)
  /\ copy_entry recurse source_dir destination_dir item w
     = (w, Raise NotADirectoryError)
  /\ for_each (item :: rest) (copy_entry recurse source_dir destination_dir) w
     = (w, Raise NotADirectoryError).
Proof.
  intros Hs Hl Hn.
  destruct (copy_link_over_regular_file _ _ _ _ _ _ Hs Hl Hn) as [Hr Hc].
  assert (He : copy_entry recurse source_dir destination_dir item w
               = (w, Raise NotADirectoryError)).
  { now rewrite (copy_entry_link _ _ _ _ _ Hs). }
  split; [exact Hr|]. split; [exact He|]. now apply for_each_raise.
Qed.

Lemma link_over_regular_file_raises_witness :
  islink file_collision_world (join "/s" "liba.so") = true
  /\ locate false file_collision_world (join "/d" "liba.so") = Ok ["d"; "liba.so"]
  /\ node_at (files file_collision_world) ["d"; "liba.so"] = Some (File 420 "OLD")
  /\ for_each ["liba.so"] (copy_entry (copy_all_files 999) "/s" "/d") file_collision_world
     = (file_collision_world, Raise NotADirectoryError).
Proof.
  split; [reflexivity|]. split; [reflexivity|]. split; [reflexivity|].
  apply (link_over_regular_file_raises (copy_all_files 999) "/s" "/d" "liba.so" []
           file_collision_world ["d"; "liba.so"] 420 "OLD"); reflexivity.
Defined.

(** The whole replication of that source into that destination ends with
    the same exception, and the file is still there. *)
Example copy_all_files_over_regular_file :
  let r := copy_all_files 1000 "/s" "/d" file_collision_world in
  snd r = Raise NotADirectoryError
  /\ files (fst r) !! ["d"; "liba.so"] = Some (File 420 "OLD").
Proof. repeat split. Qed.

(** What happens in general when the destination holds a link whose target is
    missing: [os.path.exists] says no, nothing is removed, both [os.symlink]
    calls find the name taken. *)
Lemma copy_link_dangling_collision (source_path destination_path : string)
    (w : world) (l : loc) (t' : string) :
  islink w source_path = true ->
  locate false w destination_path = Ok l ->
  node_at (files w) l = Some (Link t') ->
  path_exists w destination_path = false ->
  exists e, copy_link source_path destination_path w = (w, Raise e)
            /\ is_OSError e = true.
Proof.
  intros Hs Hl Hn Hex.
  destruct (islink_inv _ _ Hs) as (ls & t & _ & _ & Hrl).
  assert (Hsym : forall target, exists e,
             os_symlink target destination_path w = (w, Raise e)
             /\ is_OSError e = true).
  { intros target. unfold os_symlink.
    destruct (String.eqb target ""); [eexists; split; reflexivity|].
    destruct (PATH_MAX <=? String.length target)%nat; [eexists; split; reflexivity|].
    rewrite Hl, Hn. eexists; split; reflexivity. }
  unfold copy_link. rewrite bind_unfold, Hrl.
  set (link_target := if negb (isabs t) then join (dirname source_path) t else t).
  rewrite bind_unfold, bind_ask, Hex. cbv [ret].
  unfold try_except. rewrite bind_unfold.
  destruct (Hsym link_target) as (e2 & H2 & He2).
  destruct (relpath (cwd w) link_target (dirname destination_path)) as [rel|e] eqn:Hrel.
  - destruct (Hsym rel) as (e1 & H1 & He1).
    rewrite bind_unfold, H1, He1. cbn [orb]. rewrite bind_unfold, H2.
    exists e2. split; [reflexivity|exact He2].
  - unfold relpath in Hrel.
    destruct (String.eqb link_target "") eqn:He.
    + injection Hrel as <-. cbn [is_OSError is_ValueError orb].
      rewrite bind_unfold, H2. exists e2. split; [reflexivity|exact He2].
    + destruct (_ ++ _); discriminate.
Qed.

(** C3.  The replication of [/s], with its link [liba.so], into [/d], where
    [/d/liba.so] is a link whose target no longer exists: the stale link is
    not removed, the link branch raises [FileExistsError], and so does the
    whole run, which leaves the stale link in place. *)
Theorem copy_link_stale_link_collision :
  islink stale_world "/s/liba.so" = true
  /\ islink stale_world "/d/liba.so" = true
  /\ path_exists stale_world "/d/liba.so" = false
  /\ copy_link "/s/liba.so" "/d/liba.so" stale_world
     = (stale_world, Raise FileExistsError)
  /\ snd (copy_all_files 1000 "/s" "/d" stale_world) = Raise FileExistsError
  /\ files (fst (copy_all_files 1000 "/s" "/d" stale_world)) !! ["d"; "liba.so"]
     = Some (Link "old/liba.so.0").
Proof. repeat split. Qed.

(** A colliding directory and a colliding link whose target exists are
    removed and replaced. *)
Example copy_link_replaces_directory :
  let w' := fst (copy_link "/s/liba.so" "/d/liba.so" dir_collision_world) in
  snd (copy_link "/s/liba.so" "/d/liba.so" dir_collision_world) = Ok tt
  /\ files w' !! ["d"; "liba.so"] = Some (Link "../s/liba.so.1")
  /\ files w' !! ["d"; "liba.so"; "junk"] = None.
Proof. repeat split. Qed.

Example copy_link_replaces_live_link :
  let w' := fst (copy_link "/s/liba.so" "/d/liba.so" live_link_collision_world) in
  snd (copy_link "/s/liba.so" "/d/liba.so" live_link_collision_world) = Ok tt
  /\ files w' !! ["d"; "liba.so"] = Some (Link "../s/liba.so.1").
Proof. repeat split. Qed.

(** ** Texts and their components *)

Lemma append_cons (x : ascii) (a b : string) : String x a +:+ b = String x (a +:+ b).
Proof. reflexivity. Qed.

Lemma append_assoc (a b c : string) : (a +:+ b) +:+ c = a +:+ b +:+ c.
Proof.
  induction a as [|x a IH]; [reflexivity|]. rewrite !append_cons. now rewrite IH.
Qed.

Lemma split_sep_not_nil (s : string) : split_sep s <> [].
Proof.
  destruct s as [|c s]; simpl; [discriminate|].
  destruct (is_sep c); [discriminate|]. destruct (split_sep s); discriminate.
Qed.

Lemma split_sep_app_sep (a b : string) :
  split_sep (a +:+ "/" +:+ b) = split_sep a ++ split_sep b.
Proof.
  induction a as [|c a IH]; [reflexivity|].
  rewrite append_cons. simpl. rewrite IH. destruct (is_sep c); [reflexivity|].
  pose proof (split_sep_not_nil a) as Hn.
  destruct (split_sep a) as [|x xs]; [congruence|reflexivity].
Qed.

Lemma comps_app_sep (a b : string) : comps (a +:+ "/" +:+ b) = comps a ++ comps b.
Proof. unfold comps. rewrite split_sep_app_sep. apply List.filter_app. Qed.

Lemma comps_empty : comps "" = [].
Proof. reflexivity. Qed.

Lemma substring_one_last (c : ascii) (a : string) :
  String.substring (String.length a) 1 (String c a)
  = match a with
    | EmptyString => String c EmptyString
    | String _ _ => String.substring (String.length a - 1) 1 a
    end.
Proof. destruct a as [|x a]; simpl; [reflexivity|]. now rewrite Nat.sub_0_r. Qed.

Lemma endswith_sep_inv (a : string) :
  endswith "/" a = true -> exists a', a = a' +:+ "/".
Proof.
  unfold endswith. induction a as [|c a IH]; [discriminate|].
  change (String.length (String c a)) with (S (String.length a)).
  change (String.length "/") with 1.
  replace (S (String.length a) - 1) with (String.length a) by lia.
  rewrite substring_one_last. simpl Nat.leb. simpl andb.
  destruct a as [|x a].
  - intros H. apply String.eqb_eq in H. injection H as ->. now exists "".
  - intros H. destruct IH as [a' Ha'].
    + change (String.length "/") with 1. simpl Nat.leb. simpl andb. exact H.
    + exists (String c a'). rewrite append_cons. now rewrite <- Ha'.
Qed.

Lemma isabs_cons (c : ascii) (s : string) : isabs (String c s) = is_sep c.
Proof.
  unfold isabs, startswith, is_sep. cbn [String.prefix].
  destruct (ascii_dec "/" c) as [<-|Hne].
  - destruct s; reflexivity.
  - symmetry. apply Ascii.eqb_neq. congruence.
Qed.

Lemma isabs_append (a b : string) : a <> "" -> isabs (a +:+ b) = isabs a.
Proof.
  destruct a as [|c a]; [congruence|]. intros _. rewrite append_cons.
  now rewrite !isabs_cons.
Qed.

(** [join] on a relative second part. *)
Lemma join_relative (a b : string) :
  isabs b = false ->
  join a b = if String.eqb a "" || endswith "/" a then a +:+ b else a +:+ "/" +:+ b.
Proof. intros H. unfold join. unfold isabs in H. now rewrite H. Qed.

Lemma comps_join (a b : string) :
  isabs b = false -> comps (join a b) = comps a ++ comps b.
Proof.
  intros H. rewrite (join_relative _ _ H).
  destruct (String.eqb a "") eqn:Ha.
  - apply String.eqb_eq in Ha. subst a. reflexivity.
  - simpl. destruct (endswith "/" a) eqn:He; [|apply comps_app_sep].
    destruct (endswith_sep_inv _ He) as [a' ->].
    rewrite append_assoc, comps_app_sep.
    change (a' +:+ "/") with (a' +:+ "/" +:+ "").
    rewrite comps_app_sep, comps_empty, app_nil_r. reflexivity.
Qed.

Lemma isabs_join (a b : string) :
  a <> "" -> isabs b = false -> isabs (join a b) = isabs a.
Proof.
  intros Ha Hb. rewrite (join_relative _ _ Hb).
  destruct (String.eqb a "" || endswith "/" a); now apply isabs_append.
Qed.

Lemma join_empty_l (b : string) : join "" b = b.
Proof. unfold join. destruct (startswith "/" b); reflexivity. Qed.

Lemma join_absolute (a b : string) : isabs b = true -> join a b = b.
Proof. intros H. unfold join. unfold isabs in H. now rewrite H. Qed.

(** Every component of a text is free of separators. *)
Lemma split_sep_parts (s : string) :
  Forall (fun x => split_sep x = [x]) (split_sep s).
Proof.
  induction s as [|c s IH]; simpl.
  - constructor; [reflexivity|constructor].
  - destruct (is_sep c) eqn:Hc; [constructor; [reflexivity|exact IH]|].
    pose proof (split_sep_not_nil s) as Hn.
    destruct (split_sep s) as [|x xs]; [congruence|].
    inversion IH as [|? ? Hx Hxs]; subst. constructor; [|exact Hxs].
    simpl. rewrite Hc, Hx. reflexivity.
Qed.

Lemma comps_plain (s : string) : Forall plain (comps s).
Proof.
  unfold comps. pose proof (split_sep_parts s) as H.
  induction H as [|x l Hx Hl IH]; simpl; [constructor|].
  destruct (nonempty x) eqn:Hn; [|exact IH].
  constructor; [|exact IH]. split; [exact Hx|].
  intros ->. discriminate.
Qed.

Lemma plain_comps (x : string) : plain x -> comps x = [x].
Proof.
  intros [Hs Hn]. unfold comps. rewrite Hs. simpl. unfold nonempty.
  destruct (String.eqb_spec x ""); [congruence|reflexivity].
Qed.

Lemma plain_relative (x : string) : plain x -> isabs x = false.
Proof.
  intros [Hs Hn]. destruct x as [|c x]; [congruence|].
  rewrite isabs_cons. destruct (is_sep c) eqn:Hc; [|reflexivity].
  simpl in Hs. rewrite Hc in Hs. discriminate.
Qed.

Lemma dotdot_plain : plain "..".
Proof. split; [reflexivity|discriminate]. Qed.

Lemma comps_join_sep (l : list string) : Forall plain l -> comps (join_sep l) = l.
Proof.
  induction 1 as [|x l Hx Hl IH]; [reflexivity|].
  destruct l as [|y l].
  - simpl. now apply plain_comps.
  - change (join_sep (x :: y :: l)) with (x +:+ "/" +:+ join_sep (y :: l)).
    rewrite comps_app_sep, IH, (plain_comps _ Hx). reflexivity.
Qed.

Lemma comps_join_all (a : string) (p : list string) :
  a <> "" -> Forall plain p ->
  comps (join_all a p) = comps a ++ p /\ isabs (join_all a p) = isabs a
  /\ join_all a p <> "".
Proof.
  intros Ha Hp. unfold join_all. revert a Ha.
  induction Hp as [|x p Hx Hp IH]; intros a Ha; simpl.
  - now rewrite app_nil_r.
  - assert (Hj : join a x <> "").
    { rewrite (join_relative _ _ (plain_relative _ Hx)).
      destruct a; [congruence|]. destruct (_ || _); discriminate. }
    destruct (IH _ Hj) as (H1 & H2 & H3).
    split; [|split; [|exact H3]].
    + rewrite H1, (comps_join _ _ (plain_relative _ Hx)), (plain_comps _ Hx).
      now rewrite <- app_assoc.
    + rewrite H2. apply isabs_join; [exact Ha|now apply plain_relative].
Qed.

(** ** [normpath] on components *)

Lemma Forall_removelast {A} (P : A -> Prop) (l : list A) :
  Forall P l -> Forall P (removelast l).
Proof.
  induction 1 as [|x l Hx Hl IH]; [constructor|].
  simpl. destruct l; [constructor|]. constructor; assumption.
Qed.

Lemma norm_step_proper (b : bool) (acc : list string) (c : string) :
  proper c -> norm_step b acc c = acc ++ [c].
Proof.
  intros ((_ & H0) & H1 & H2). unfold norm_step.
  destruct (String.eqb_spec c ""); [congruence|].
  destruct (String.eqb_spec c "."); [congruence|].
  destruct (String.eqb_spec c ".."); [congruence|]. reflexivity.
Qed.

Lemma last_proper (acc : list string) :
  Forall proper acc ->
  match last acc with Some l => String.eqb l ".." | None => false end = false.
Proof.
  intros H. destruct (last acc) as [l|] eqn:Hl; [|reflexivity].
  apply last_Some_elem_of in Hl.
  rewrite Forall_forall in H. apply H in Hl.
  destruct Hl as (_ & _ & Hl). now apply String.eqb_neq.
Qed.

Lemma norm_step_parent (acc : list string) :
  Forall proper acc -> norm_step true acc ".." = removelast acc.
Proof. intros H. unfold norm_step. simpl. now rewrite (last_proper _ H). Qed.

Lemma plain_cases (c : string) :
  plain c -> c = "." \/ c = ".." \/ proper c.
Proof.
  intros H. destruct (String.eqb_spec c "."); [now left|].
  destruct (String.eqb_spec c ".."); [now right; left|]. right; right. now split.
Qed.

Lemma norm_fold_filter (b : bool) (l : list string) :
  forall acc,
    fold_left (norm_step b) (List.filter nonempty l) acc
    = fold_left (norm_step b) l acc.
Proof.
  induction l as [|c l IH]; intros acc; [reflexivity|].
  simpl. unfold nonempty at 1. destruct (String.eqb_spec c "") as [->|Hc]; simpl.
  - apply IH.
  - apply IH.
Qed.

Lemma norm_fold_proper (l : list string) :
  Forall plain l ->
  forall acc, Forall proper acc -> Forall proper (fold_left (norm_step true) l acc).
Proof.
  induction 1 as [|c l Hc Hl IH]; intros acc Hacc; [exact Hacc|].
  simpl. apply IH.
  destruct (plain_cases _ Hc) as [-> | [-> | Hp]].
  - exact Hacc.
  - rewrite (norm_step_parent _ Hacc). now apply Forall_removelast.
  - rewrite (norm_step_proper _ _ _ Hp). apply Forall_app. split; [exact Hacc|].
    constructor; [exact Hp|constructor].
Qed.

Lemma norm_fold_append (l : list string) :
  Forall proper l ->
  forall acc, fold_left (norm_step true) l acc = acc ++ l.
Proof.
  induction 1 as [|c l Hc Hl IH]; intros acc; simpl.
  - now rewrite app_nil_r.
  - rewrite (norm_step_proper _ _ _ Hc), IH, <- app_assoc. reflexivity.
Qed.

Lemma norm_fold_parents (k : nat) :
  forall acc,
    Forall proper acc ->
    fold_left (norm_step true) (repeat ".." k) acc = firstn (List.length acc - k) acc.
Proof.
  induction k as [|k IH]; intros acc Hacc; simpl.
  - rewrite Nat.sub_0_r. symmetry. apply firstn_all.
  - rewrite (norm_step_parent _ Hacc), IH by now apply Forall_removelast.
    rewrite removelast_firstn_len, length_firstn, firstn_firstn. f_equal. lia.
Qed.

Lemma comps_normpath (s : string) :
  isabs s = true -> comps (normpath s) = norm_comps true (comps s).
Proof.
  intros Hs. unfold normpath.
  destruct s as [|c s]; [discriminate|]. simpl String.eqb. cbv iota.
  unfold initial_slashes. unfold isabs in Hs. rewrite Hs.
  set (L := norm_comps _ _).
  assert (HL : L = norm_comps true (comps (String c s))).
  { subst L. unfold norm_comps, comps.
    destruct (_ && _); simpl Nat.ltb; now rewrite norm_fold_filter. }
  assert (Hp : Forall plain (norm_comps true (comps (String c s)))).
  { unfold norm_comps. eapply Forall_impl.
    - apply norm_fold_proper; [apply comps_plain|constructor].
    - intros x Hx. apply Hx. }
  rewrite <- HL in Hp.
  assert (H1 : comps ("/" +:+ join_sep L) = L).
  { change ("/" +:+ join_sep L) with ("" +:+ "/" +:+ join_sep L).
    rewrite comps_app_sep, comps_empty. simpl. now apply comps_join_sep. }
  assert (H2 : comps ("//" +:+ join_sep L) = L).
  { change ("//" +:+ join_sep L) with ("" +:+ "/" +:+ ("/" +:+ join_sep L)).
    rewrite comps_app_sep, comps_empty. simpl. exact H1. }
  rewrite <- HL.
  destruct (_ && _); cbv iota beta.
  - change ("//" +:+ join_sep L) with (String "/" (String "/" (join_sep L))).
    simpl String.eqb. cbv iota. exact H2.
  - change ("/" +:+ join_sep L) with (String "/" (join_sep L)).
    simpl String.eqb. cbv iota. exact H1.
Qed.

Lemma isabs_absolute (cwd p : string) : isabs cwd = true -> isabs (absolute cwd p) = true.
Proof.
  intros Hc. unfold absolute. destruct (isabs p) eqn:Hp; [exact Hp|].
  rewrite isabs_join; [exact Hc| |exact Hp]. intros ->. discriminate.
Qed.

Lemma abs_list_norm (cwd p : string) :
  isabs cwd = true -> abs_list cwd p = norm_comps true (comps (absolute cwd p)).
Proof. intros Hc. apply comps_normpath. now apply isabs_absolute. Qed.

Lemma abs_list_proper (cwd p : string) :
  isabs cwd = true -> Forall proper (abs_list cwd p).
Proof.
  intros Hc. rewrite (abs_list_norm _ _ Hc).
  apply norm_fold_proper; [apply comps_plain|constructor].
Qed.

Lemma comps_absolute_join (cwd start rel : string) :
  isabs rel = false ->
  comps (absolute cwd (join start rel)) = comps (absolute cwd start) ++ comps rel.
Proof.
  intros Hr. unfold absolute.
  destruct (String.eqb_spec start "") as [->|Hs].
  - rewrite join_empty_l, Hr. change (isabs "") with false. cbv iota.
    rewrite (comps_join _ _ Hr), (comps_join cwd "") by reflexivity.
    now rewrite comps_empty, app_nil_r.
  - rewrite (isabs_join _ _ Hs Hr). destruct (isabs start) eqn:Ha.
    + now apply comps_join.
    + rewrite !comps_join, app_assoc; [reflexivity|exact Ha|exact Hr|].
      now rewrite (isabs_join _ _ Hs Hr).
Qed.

Lemma common_len_firstn (l1 l2 : list string) :
  firstn (common_len l1 l2) l1 = firstn (common_len l1 l2) l2
  /\ common_len l1 l2 <= List.length l1.
Proof.
  revert l2. induction l1 as [|x l1 IH]; intros [|y l2]; simpl; try (split; [reflexivity|lia]).
  destruct (String.eqb_spec x y) as [->|Hne]; simpl; [|split; [reflexivity|lia]].
  destruct (IH l2) as [H1 H2]. rewrite H1. split; [reflexivity|lia].
Qed.

(** The round trip of [relpath] on POSIX paths: the relative text it
    returns, read from [start], names the absolute path [path] names. *)
Lemma relpath_round_trip (cwd path start rel : string) :
  isabs cwd = true ->
  relpath cwd path start = Ok rel ->
  isabs rel = false /\ rel <> ""
  /\ abs_list cwd (join start rel) = abs_list cwd path.
Proof.
  intros Hc. unfold relpath. destruct (String.eqb path ""); [discriminate|].
  pose proof (abs_list_proper cwd start Hc) as Hsl.
  pose proof (abs_list_proper cwd path Hc) as Hpl.
  set (sl := abs_list cwd start) in *. set (pl := abs_list cwd path) in *.
  destruct (common_len_firstn sl pl) as [Hcp Hle].
  set (i := common_len sl pl) in *.
  assert (Hfold : fold_left (norm_step true)
                    (repeat ".." (List.length sl - i) ++ skipn i pl) sl = pl).
  { rewrite fold_left_app, (norm_fold_parents _ _ Hsl).
    replace (List.length sl - (List.length sl - i)) with i by lia.
    rewrite norm_fold_append.
    - rewrite Hcp. apply firstn_skipn.
    - now apply Forall_drop. }
  assert (Hplain : Forall plain (repeat ".." (List.length sl - i) ++ skipn i pl)).
  { apply Forall_app. split.
    - apply Forall_forall. intros x Hx. apply list_elem_of_In, repeat_spec in Hx.
      subst. apply dotdot_plain.
    - apply Forall_drop. eapply Forall_impl; [exact Hpl|]. intros x Hx. apply Hx. }
  assert (Hgoal : forall r,
             isabs r = false ->
             fold_left (norm_step true) (comps r) sl = pl ->
             abs_list cwd (join start r) = pl).
  { intros r Hr Hf. rewrite (abs_list_norm _ _ Hc), (comps_absolute_join _ _ _ Hr).
    unfold norm_comps. rewrite fold_left_app.
    fold (norm_comps true (comps (absolute cwd start))).
    rewrite <- (abs_list_norm _ _ Hc). exact Hf. }
  destruct (repeat ".." (List.length sl - i) ++ skipn i pl) as [|a p] eqn:Hrl.
  - intros [= <-]. split; [reflexivity|]. split; [discriminate|].
    apply Hgoal; [reflexivity|]. simpl in Hfold. exact Hfold.
  - intros [= <-]. inversion Hplain as [|? ? Ha Hp]; subst.
    destruct (comps_join_all a p (proj2 Ha) Hp) as (H1 & H2 & H3).
    split; [rewrite H2; now apply plain_relative|]. split; [exact H3|].
    apply Hgoal; [rewrite H2; now apply plain_relative|].
    rewrite H1, (plain_comps _ Ha). exact Hfold.
Qed.

(** ** Replicating a link with a relative target *)

(** C2, as stated, fails: replicating the library directory into the empty
    staging directory completes, and the link made there for
    [libfoo.so -> libfoo.so.1] is relative but leads back to the file in the
    source tree, not to [libfoo.so.1] in the staging directory. *)
Lemma copy_link_points_into_source :
  let r := copy_all_files 1000 "/p/install/lib" "/p/build/lib" fresh_world in
  snd r = Ok tt
  /\ files (fst r) !! ["p"; "build"; "lib"; "libfoo.so"]
     = Some (Link "../../install/lib/libfoo.so.1")
  /\ files (fst r) !! ["p"; "build"; "lib"; "libfoo.so.1"] = Some (File 420 "ELF")
  /\ locate true (fst r) "/p/build/lib/libfoo.so" = Ok ["p"; "install"; "lib"; "libfoo.so.1"]
  /\ locate true (fst r) "/p/build/lib/libfoo.so" <> Ok ["p"; "build"; "lib"; "libfoo.so.1"].
Proof. vm_compute. repeat split. discriminate. Qed.

Lemma append_not_empty_r (a b : string) : b <> "" -> a +:+ b <> "".
Proof. destruct a; [trivial|discriminate]. Qed.

Lemma join_not_empty (a b : string) : b <> "" -> join a b <> "".
Proof.
  intros Hb. unfold join. destruct (startswith "/" b); [exact Hb|].
  destruct (_ || _); [now apply append_not_empty_r|].
  apply append_not_empty_r. discriminate.
Qed.

Lemma isabs_split_last (p : string) :
  isabs p = true -> isabs (fst (split_last p)) = true.
Proof.
  destruct p as [|c p]; [discriminate|]. rewrite isabs_cons. intros Hc.
  cbn [split_last]. destruct (split_last p) as [h t].
  destruct (String.eqb h ""); rewrite ?Hc; cbn [fst]; [reflexivity|].
  now rewrite isabs_cons.
Qed.

Lemma isabs_rstrip_sep (h : string) :
  isabs h = true -> rstrip_sep h <> "" -> isabs (rstrip_sep h) = true.
Proof.
  destruct h as [|c h]; [discriminate|]. rewrite isabs_cons. intros Hc.
  cbn [rstrip_sep]. destruct (String.eqb (rstrip_sep h) "" && is_sep c); [congruence|].
  intros _. now rewrite isabs_cons.
Qed.

Lemma isabs_dirname (p : string) : isabs p = true -> isabs (dirname p) = true.
Proof.
  intros Hp. apply isabs_split_last in Hp. unfold dirname.
  destruct (String.eqb_spec (rstrip_sep (fst (split_last p))) ""); [exact Hp|].
  now apply isabs_rstrip_sep.
Qed.

Lemma relpath_ok (cwd path start : string) :
  path <> "" -> exists rel, relpath cwd path start = Ok rel.
Proof.
  intros Hp. unfold relpath. destruct (String.eqb_spec path ""); [congruence|].
  destruct (_ ++ _); eauto.
Qed.

Lemma free_name_not_exists (w : world) (p : string) (l : loc) :
  locate false w p = Ok l ->
  node_at (files w) l = None ->
  path_exists w p = false.
Proof.
  intros Hl Hn. unfold path_exists, stat_node, locate in *.
  rewrite (walk_follow_irrelevant _ _ _ _ _ Hl), Hn; [reflexivity|].
  intros t. rewrite Hn. discriminate.
Qed.

(** ** Paths made of real directories *)

Lemma join_cwd_absolute (cwd p : string) : join cwd p = absolute cwd p.
Proof.
  unfold absolute. destruct (isabs p) eqn:Hp; [now apply join_absolute|reflexivity].
Qed.

Lemma path_comps_join (cwd top n : string) :
  plain n -> path_comps cwd (join top n) = path_comps cwd top ++ [n].
Proof.
  intros Hn. unfold path_comps.
  rewrite (join_cwd_absolute cwd (join top n)), (join_cwd_absolute cwd top).
  rewrite (comps_absolute_join _ _ _ (plain_relative _ Hn)), (plain_comps _ Hn).
  reflexivity.
Qed.

Lemma proper_not_special (c : string) :
  proper c ->
  String.eqb c "" || String.eqb c "." = false /\ String.eqb c ".." = false.
Proof.
  intros ((_ & H0) & H1 & H2).
  destruct (String.eqb_spec c ""); [congruence|].
  destruct (String.eqb_spec c "."); [congruence|].
  destruct (String.eqb_spec c ".."); [congruence|]. split; reflexivity.
Qed.

Lemma walk_dirs_along (n : nat) (fs : store) (f : bool) (rest : list string) :
  forall (cur : loc) (more : list string),
    Forall proper rest ->
    dirs_along fs cur rest ->
    walk n fs f cur (rest ++ more) = walk n fs f (cur ++ rest) more.
Proof.
  induction rest as [|c rest IH]; intros cur more Hp Hd.
  - now rewrite app_nil_r.
  - inversion Hp as [|? ? Hc Hrest]; subst. destruct Hd as [Hn Hd].
    simpl app. rewrite walk_cons.
    destruct (proper_not_special _ Hc) as [-> ->]. rewrite Hn.
    rewrite (IH _ _ Hrest Hd), <- app_assoc. reflexivity.
Qed.

Lemma walk_dirs (n : nat) (fs : store) (f : bool) (d : loc) :
  Forall proper d -> dirs_along fs [] d -> walk n fs f [] d = Ok d.
Proof.
  intros Hp Hd. rewrite <- (app_nil_r d) at 1.
  rewrite (walk_dirs_along _ _ _ _ _ _ Hp Hd). apply walk_nil.
Qed.

(** One more name after a path of real directories. *)
Lemma walk_dirs_last (n : nat) (fs : store) (f : bool) (d : loc) (c : string) :
  Forall proper d -> dirs_along fs [] d -> proper c ->
  (forall t, node_at fs (d ++ [c]) = Some (Link t) -> f = false) ->
  walk n fs f [] (d ++ [c]) = Ok (d ++ [c]).
Proof.
  intros Hp Hd Hc Hl. rewrite (walk_dirs_along _ _ _ _ _ _ Hp Hd). simpl app.
  rewrite walk_cons. destruct (proper_not_special _ Hc) as [-> ->].
  destruct (node_at fs (d ++ [c])) as [[m data|t|]|] eqn:Hn; try reflexivity.
  - now rewrite (Hl t eq_refl).
  - apply walk_nil.
Qed.

Lemma dirs_along_app (fs : store) (rest more : list string) :
  forall cur,
    dirs_along fs cur (rest ++ more)
    <-> dirs_along fs cur rest /\ dirs_along fs (cur ++ rest) more.
Proof.
  induction rest as [|c rest IH]; intros cur; simpl.
  - rewrite app_nil_r. tauto.
  - rewrite IH, <- app_assoc. simpl. tauto.
Qed.

Lemma dirs_along_last (fs : store) (d : loc) :
  dirs_along fs [] d -> node_at fs d = Some Dir.
Proof.
  destruct d as [|x d _] using rev_ind; [reflexivity|].
  intros H. apply dirs_along_app in H. destruct H as [_ [H _]]. exact H.
Qed.

(** ** The entries of a directory *)

Lemma child_name_spec (d k : loc) (n : string) :
  child_name d k = Some n <-> k = d ++ [n].
Proof.
  revert k. induction d as [|x d IH]; intros k; simpl.
  - destruct k as [|y [|z k]]; split; intros H; try discriminate; congruence.
  - destruct k as [|y k]; [split; discriminate|].
    destruct (String.eqb_spec x y) as [->|Hne].
    + rewrite IH. split; congruence.
    + split; [discriminate|]. intros [= ? ?]. congruence.
Qed.

Lemma elem_of_entries (fs : store) (d : loc) (n : string) :
  n ∈ entries fs d <-> exists nd, fs !! (d ++ [n]) = Some nd.
Proof.
  unfold entries. rewrite list_elem_of_omap. split.
  - intros ([k nd] & Hin & Hc). apply elem_of_map_to_list in Hin.
    apply child_name_spec in Hc. simpl in Hc. subst k. eauto.
  - intros [nd Hnd]. exists (d ++ [n], nd). split.
    + now apply elem_of_map_to_list.
    + now apply child_name_spec.
Qed.

(** ** Permission bits *)

Lemma chmod_bits (m : Z) :
  Z.land (Z.lor (Z.lor S_IFREG m) 493) PERM_MASK = with_755 m.
Proof.
  unfold with_755. rewrite !Z.land_lor_distr_l.
  change (Z.land S_IFREG PERM_MASK) with 0%Z.
  change (Z.land 493 PERM_MASK) with 493%Z.
  now rewrite Z.lor_0_l.
Qed.

Lemma with_755_idem (m : Z) : with_755 (with_755 m) = with_755 m.
Proof.
  unfold with_755. rewrite Z.land_lor_distr_l, <- Z.land_assoc, Z.land_diag.
  change (Z.land 493 PERM_MASK) with 493%Z.
  now rewrite <- Z.lor_assoc, Z.lor_diag.
Qed.

Lemma with_755_small (m : Z) : (0 <= m < 4096)%Z -> with_755 m = Z.lor m 493.
Proof.
  intros H. unfold with_755. f_equal.
  change PERM_MASK with (Z.ones 12). rewrite Z.land_ones by lia.
  apply Z.mod_small. exact H.
Qed.

Lemma with_755_exec (m : Z) : Z.land (with_755 m) 73 = 73%Z.
Proof.
  unfold with_755. rewrite Z.land_lor_distr_l.
  change (Z.land 493 73) with 73%Z.
  apply Z.bits_inj'. intros n Hn.
  rewrite Z.lor_spec, !Z.land_spec.
  destruct (Z.testbit 73 n); [now rewrite andb_true_r, orb_true_r|].
  now rewrite !andb_false_r.
Qed.

Lemma touched_refl (fs : store) : touched fs fs.
Proof. intros k. now left. Qed.

Lemma touched_trans (fs1 fs2 fs3 : store) :
  touched fs1 fs2 -> touched fs2 fs3 -> touched fs1 fs3.
Proof.
  intros H12 H23 k. destruct (H12 k) as [E12 | (m & data & E1 & E2)];
    destruct (H23 k) as [E23 | (m' & data' & E2' & E3)].
  - left. congruence.
  - right. exists m', data'. split; congruence.
  - right. exists m, data. split; congruence.
  - right. exists m, data. split; [exact E1|].
    rewrite E2 in E2'. injection E2' as <- <-. now rewrite with_755_idem in E3.
Qed.

Lemma perm_step_refl (w : world) : perm_step w w.
Proof. split; [reflexivity|apply touched_refl]. Qed.

Lemma perm_step_trans (w1 w2 w3 : world) :
  perm_step w1 w2 -> perm_step w2 w3 -> perm_step w1 w3.
Proof.
  intros [C12 T12] [C23 T23]. split; [congruence|]. eapply touched_trans; eauto.
Qed.

Lemma touched_node_at (fs fs' : store) (l : loc) :
  touched fs fs' ->
  node_at fs' l = node_at fs l
  \/ exists m data, node_at fs l = Some (File m data)
                    /\ node_at fs' l = Some (File (with_755 m) data).
Proof. intros H. destruct l as [|x l]; [now left|apply H]. Qed.

Lemma touched_dir (fs fs' : store) (l : loc) :
  touched fs fs' -> node_at fs l = Some Dir -> node_at fs' l = Some Dir.
Proof.
  intros H Hd. destruct (touched_node_at _ _ l H) as [E | (m & data & E & _)]; congruence.
Qed.

Lemma touched_file (fs fs' : store) (l : loc) (m : Z) (data : string) :
  touched fs fs' -> node_at fs l = Some (File m data) ->
  exists m', node_at fs' l = Some (File m' data) /\ with_755 m' = with_755 m.
Proof.
  intros H Hd. destruct (touched_node_at _ _ l H) as [E | (m0 & data0 & E & E')].
  - exists m. split; congruence.
  - exists (with_755 m). rewrite Hd in E. injection E as <- <-.
    split; [exact E'|apply with_755_idem].
Qed.

Lemma walk_touched (fs fs' : store) (f : bool) :
  touched fs fs' ->
  forall n rest cur, walk n fs' f cur rest = walk n fs f cur rest.
Proof.
  intros H. induction n as [|n IHn]; induction rest as [|c rest IH]; intros cur;
    rewrite ?walk_nil, ?walk_cons; try reflexivity.
  - rewrite !IH.
    destruct (touched_node_at _ _ (cur ++ [c]) H) as [-> | (m & data & -> & ->)];
      reflexivity.
  - rewrite !IH.
    destruct (touched_node_at _ _ (cur ++ [c]) H) as [-> | (m & data & -> & ->)];
      [|reflexivity].
    destruct (node_at fs (cur ++ [c])) as [[| |]|]; try reflexivity.
    now rewrite IHn.
Qed.

Lemma locate_perm_step (w w' : world) (f : bool) (p : string) :
  perm_step w w' -> locate f w' p = locate f w p.
Proof. intros [Hc Ht]. unfold locate. rewrite Hc. now apply walk_touched. Qed.

Lemma islink_perm_step (w w' : world) (p : string) :
  perm_step w w' -> islink w' p = islink w p.
Proof.
  intros H. unfold islink, stat_node. rewrite (locate_perm_step _ _ _ _ H).
  destruct (locate false w p) as [l|]; [|reflexivity].
  destruct (touched_node_at _ _ l (proj2 H)) as [-> | (m & data & -> & ->)]; reflexivity.
Qed.

Lemma path_exists_perm_step (w w' : world) (p : string) :
  perm_step w w' -> path_exists w' p = path_exists w p.
Proof.
  intros H. unfold path_exists, stat_node. rewrite (locate_perm_step _ _ _ _ H).
  destruct (locate true w p) as [l|]; [|reflexivity].
  destruct (touched_node_at _ _ l (proj2 H)) as [-> | (m & data & -> & ->)]; reflexivity.
Qed.

Lemma dirs_along_touched (fs fs' : store) (rest : list string) :
  touched fs fs' -> forall cur, dirs_along fs cur rest -> dirs_along fs' cur rest.
Proof.
  intros H. induction rest as [|c rest IH]; intros cur; simpl; [trivial|].
  intros [Hn Hd]. split; [now apply (touched_dir fs)|now apply IH].
Qed.

(** [fix_one] only ever changes the bits of one file, to [with_755]. *)
Lemma fix_one_perm_step (root file : string) (w : world) :
  perm_step w (fst (fix_one root file w)).
Proof.
  unfold fix_one. destruct (is_shared_lib _ _); [|apply perm_step_refl].
  rewrite bind_unfold. unfold os_stat_mode, stat_node.
  destruct (locate true w (join root file)) as [l|] eqn:Hl; [|apply perm_step_refl].
  destruct (node_at (files w) l) as [[m data| |]|] eqn:Hn; try apply perm_step_refl;
    unfold os_chmod; rewrite Hl, Hn; try apply perm_step_refl.
  split; [reflexivity|]. simpl. intros k.
  destruct (decide (l = k)) as [<-|Hne].
  - right. exists m, data. rewrite lookup_insert_eq, chmod_bits. split; [|reflexivity].
    destruct l; [discriminate|exact Hn].
  - left. now rewrite lookup_insert_ne.
Qed.

(** ** Loops under an invariant *)

Lemma bind_ok_inv {A B} (m : M A) (k : A -> M B) (w w' : world) (b : B) :
  (m ≫= k) w = (w', Ok b) ->
  exists w1 a, m w = (w1, Ok a) /\ k a w1 = (w', Ok b).
Proof.
  rewrite bind_unfold. destruct (m w) as [w1 [a|e]]; [eauto|discriminate].
Qed.

Section Loops.

Variable R : world -> world -> Prop.
Hypothesis R_refl : forall w, R w w.
Hypothesis R_trans : forall w1 w2 w3, R w1 w2 -> R w2 w3 -> R w1 w3.

Lemma bind_inv_R {A B} (m : M A) (k : A -> M B) (w : world) :
  R w (fst (m w)) ->
  (forall a w1, R w1 (fst (k a w1))) ->
  R w (fst ((m ≫= k) w)).
Proof.
  intros Hm Hk. rewrite bind_unfold. destruct (m w) as [w1 [a|e]]; simpl in *.
  - eapply R_trans; [exact Hm|apply Hk].
  - exact Hm.
Qed.

Lemma for_each_inv {A} (l : list A) (body : A -> M unit) :
  (forall x w, In x l -> R w (fst (body x w))) ->
  forall w, R w (fst (for_each l body w)).
Proof.
  induction l as [|x l IH]; intros Hb w; [apply R_refl|].
  simpl for_each. apply bind_inv_R.
  - apply Hb. now left.
  - intros _ w1. apply IH. intros y w2 Hy. apply Hb. now right.
Qed.

Lemma for_each_visit {A} (l : list A) (body : A -> M unit) (x : A) :
  (forall y w, In y l -> R w (fst (body y w))) ->
  In x l ->
  forall w w',
    for_each l body w = (w', Ok tt) ->
    exists wa wb, R w wa /\ body x wa = (wb, Ok tt) /\ R wb w'.
Proof.
  induction l as [|y l IH]; intros Hb Hx w w' Hr; [contradiction|].
  simpl for_each in Hr. apply bind_ok_inv in Hr. destruct Hr as (w1 & [] & H1 & H2).
  destruct Hx as [->|Hx].
  - exists w, w1. split; [apply R_refl|]. split; [exact H1|].
    replace w' with (fst (for_each l body w1)) by now rewrite H2.
    apply for_each_inv. intros z w2 Hz. apply Hb. now right.
  - destruct (IH (fun z w2 Hz => Hb z w2 (or_intror Hz)) Hx _ _ H2) as (wa & wb & Ha & Hbd & Hc).
    exists wa, wb. split; [|now split].
    eapply R_trans; [|exact Ha].
    replace w1 with (fst (body y w)) by now rewrite H1.
    apply Hb. now left.
Qed.

Lemma fold_each_inv {A S} (l : list A) (body : A -> S -> M S) :
  (forall x a w, In x l -> R w (fst (body x a w))) ->
  forall acc w, R w (fst (fold_each l body acc w)).
Proof.
  induction l as [|x l IH]; intros Hb acc w; [apply R_refl|].
  simpl fold_each. apply bind_inv_R.
  - apply Hb. now left.
  - intros a w1. apply IH. intros y a2 w2 Hy. apply Hb. now right.
Qed.

Lemma fold_each_visit {A S} (l : list A) (body : A -> S -> M S) (x : A) :
  (forall y a w, In y l -> R w (fst (body y a w))) ->
  In x l ->
  forall acc w w' acc',
    fold_each l body acc w = (w', Ok acc') ->
    exists a wa wb a', R w wa /\ body x a wa = (wb, Ok a') /\ R wb w'.
Proof.
  induction l as [|y l IH]; intros Hb Hx acc w w' acc' Hr; [contradiction|].
  simpl fold_each in Hr. apply bind_ok_inv in Hr. destruct Hr as (w1 & a1 & H1 & H2).
  destruct Hx as [->|Hx].
  - exists acc, w, w1, a1. split; [apply R_refl|]. split; [exact H1|].
    replace w' with (fst (fold_each l body a1 w1)) by now rewrite H2.
    apply fold_each_inv. intros z a2 w2 Hz. apply Hb. now right.
  - destruct (IH (fun z a2 w2 Hz => Hb z a2 w2 (or_intror Hz)) Hx _ _ _ _ H2)
      as (a & wa & wb & a' & Ha & Hbd & Hc).
    exists a, wa, wb, a'. split; [|now split].
    eapply R_trans; [|exact Ha].
    replace w1 with (fst (body y acc w)) by now rewrite H1.
    apply Hb. now left.
Qed.

End Loops.

(** ** The permission pass *)

Lemma os_walk_S {S} (depth : nat) (top : string)
    (body : string -> list string -> list string -> S -> M S) (acc : S) (w : world) :
  os_walk (Datatypes.S depth) top body acc w =
  match os_listdir top w with
  | (_, Raise _) => (w, Ok acc)
  | (_, Ok names) =>
      let dirs := List.filter (fun n => isdir w (join top n)) names in
      let nondirs := List.filter (fun n => negb (isdir w (join top n))) names in
      (acc ← body top dirs nondirs acc;
       fold_each dirs (fun dn acc =>
         let new_path := join top dn in
         l ← ask (fun w => islink w new_path);
         if l : bool then ret acc else os_walk depth new_path body acc) acc) w
  end.
Proof. reflexivity. Qed.

Lemma fix_walk_perm_step (depth : nat) :
  forall top w, perm_step w (fst (fix_walk depth top w)).
Proof.
  induction depth as [|depth IH]; intros top w; [apply perm_step_refl|].
  unfold fix_walk. rewrite os_walk_S.
  destruct (os_listdir top w) as [w0 [names|e]]; [|apply perm_step_refl].
  cbv zeta. apply (bind_inv_R perm_step perm_step_trans).
  - apply (for_each_inv perm_step perm_step_refl perm_step_trans).
    intros x w1 _. apply fix_one_perm_step.
  - intros [] w1. apply (fold_each_inv perm_step perm_step_refl perm_step_trans).
    intros dn [] w2 _. rewrite bind_ask.
    destruct (islink w2 (join top dn)); [apply perm_step_refl|apply IH].
Qed.

Lemma touched_fixed (fs fs' : store) (l : loc) (m : Z) (data : string) :
  touched fs fs' ->
  node_at fs l = Some (File (with_755 m) data) ->
  node_at fs' l = Some (File (with_755 m) data).
Proof.
  intros H Hn. destruct (touched_node_at _ _ l H) as [E | (m0 & data0 & E & E')].
  - congruence.
  - rewrite Hn in E. injection E as <- <-. now rewrite with_755_idem in E'.
Qed.

Lemma proper_plain (c : string) : proper c -> plain c.
Proof. intros H. apply H. Qed.

Lemma os_listdir_dirs (w : world) (top : string) (d : loc) :
  path_comps (cwd w) top = d -> Forall proper d -> dirs_along (files w) [] d ->
  os_listdir top w = (w, Ok (listing w (entries (files w) d))).
Proof.
  intros Hd Hp Ha. unfold os_listdir, locate. rewrite Hd, (walk_dirs _ _ _ _ Hp Ha).
  now rewrite (dirs_along_last _ _ Ha).
Qed.

(** Where a name directly under a path of real directories leads. *)
Lemma locate_child (w : world) (f : bool) (top n : string) (d : loc) :
  path_comps (cwd w) top = d -> Forall proper d -> dirs_along (files w) [] d ->
  proper n ->
  (forall t, node_at (files w) (d ++ [n]) = Some (Link t) -> f = false) ->
  locate f w (join top n) = Ok (d ++ [n]).
Proof.
  intros Hd Hp Ha Hn Hl. unfold locate.
  rewrite (path_comps_join _ _ _ (proper_plain _ Hn)), Hd.
  now apply walk_dirs_last.
Qed.

Lemma node_at_snoc (fs : store) (d : loc) (n : string) :
  node_at fs (d ++ [n]) = fs !! (d ++ [n]).
Proof. destruct d; reflexivity. Qed.

Lemma fix_one_file (root file : string) (w : world) (l : loc) (m : Z) (data : string) :
  is_shared_lib (join root file) file = true ->
  locate true w (join root file) = Ok l ->
  node_at (files w) l = Some (File m data) ->
  fix_one root file w
  = (set_files w (<[l := File (with_755 m) data]> (files w)), Ok tt).
Proof.
  intros Hs Hl Hn. unfold fix_one. rewrite Hs, bind_unfold.
  unfold os_stat_mode, stat_node. rewrite Hl, Hn.
  unfold os_chmod. rewrite Hl, Hn, chmod_bits. reflexivity.
Qed.

(** The walk reaches every file below its top through real directories, and
    a file with a library name comes out with [with_755]. *)
Lemma fix_walk_visit (depth : nat) :
  forall (top : string) (w w' : world) (d rel : loc) (m : Z) (data : string),
    fix_walk depth top w = (w', Ok tt) ->
    path_comps (cwd w) top = d -> Forall proper d -> dirs_along (files w) [] d ->
    rel <> [] -> Forall proper rel ->
    dirs_along (files w) d (removelast rel) ->
    node_at (files w) (d ++ rel) = Some (File m data) ->
    is_shared_lib (join_all top rel) (last_name rel) = true ->
    node_at (files w') (d ++ rel) = Some (File (with_755 m) data).
Proof.
  induction depth as [|depth IH];
    intros top w w' d rel m data Hrun Hd Hpd Hdd Hne Hprel Hdrel Hfile Hlib;
    [discriminate|].
  unfold fix_walk in Hrun. rewrite os_walk_S in Hrun.
  rewrite (os_listdir_dirs _ _ _ Hd Hpd Hdd) in Hrun. cbv zeta in Hrun.
  apply bind_ok_inv in Hrun. destruct Hrun as (w1 & [] & Hfiles & Hdirs).
  assert (Hw1 : perm_step w w1).
  { replace w1 with (fst (for_each
       (List.filter (fun n => negb (isdir w (join top n))) (listing w (entries (files w) d)))
       (fun file => fix_one top file) w)) by now rewrite Hfiles.
    apply (for_each_inv perm_step perm_step_refl perm_step_trans).
    intros x w2 _. apply fix_one_perm_step. }
  assert (Hw' : perm_step w1 w').
  { match type of Hdirs with ?t = _ => replace w' with (fst t) by now rewrite Hdirs end.
    apply (fold_each_inv perm_step perm_step_refl perm_step_trans).
    intros dn [] w2 _. rewrite bind_ask.
    destruct (islink w2 (join top dn)); [apply perm_step_refl|apply fix_walk_perm_step]. }
  destruct rel as [|n rel]; [congruence|]. clear Hne.
  inversion Hprel as [|? ? Hn Hprel']; subst.
  destruct rel as [|n2 rel].
  - (* the file is an entry of the top directory *)
    simpl in Hlib. change (last_name [n]) with n in Hlib.
    assert (Hin : In n (List.filter (fun n => negb (isdir w (join top n)))
                          (listing w (entries (files w) (path_comps (cwd w) top))))).
    { apply filter_In. split.
      - apply in_listing, list_elem_of_In, elem_of_entries. rewrite <- node_at_snoc. eauto.
      - unfold isdir, stat_node.
        rewrite (locate_child w true top n _ eq_refl Hpd Hdd Hn), Hfile; [reflexivity|].
        intros t Ht. congruence. }
    destruct (for_each_visit perm_step perm_step_refl perm_step_trans _ _ n
                (fun y w2 _ => fix_one_perm_step top y w2) Hin _ _ Hfiles)
      as (wa & wb & Ha & Hone & Hb).
    destruct (touched_file _ _ _ _ _ (proj2 Ha) Hfile) as (ma & Hfa & Hma).
    rewrite (fix_one_file top n wa (path_comps (cwd w) top ++ [n]) ma data) in Hone.
    + injection Hone as <-.
      apply (touched_fixed (files w1)); [apply Hw'|].
      apply (touched_fixed (<[path_comps (cwd w) top ++ [n] := File (with_755 ma) data]>
                              (files wa))); [apply Hb|].
      rewrite node_at_snoc, lookup_insert_eq, Hma. reflexivity.
    + exact Hlib.
    + rewrite (locate_perm_step _ _ _ _ Ha).
      apply (locate_child w true top n _ eq_refl Hpd Hdd Hn). intros t Ht. congruence.
    + exact Hfa.
  - (* the file lies below the directory [n] *)
    destruct Hdrel as [Hnd Hdrel].
    assert (Hin : In n (List.filter (fun n => isdir w (join top n))
                          (listing w (entries (files w) (path_comps (cwd w) top))))).
    { apply filter_In. split.
      - apply in_listing, list_elem_of_In, elem_of_entries. rewrite <- node_at_snoc. eauto.
      - unfold isdir, stat_node.
        rewrite (locate_child w true top n _ eq_refl Hpd Hdd Hn), Hnd; [reflexivity|].
        intros t Ht. congruence. }
    assert (Hstep : forall dn (a : unit) w2,
               In dn (List.filter (fun n => isdir w (join top n))
                        (listing w (entries (files w) (path_comps (cwd w) top)))) ->
               perm_step w2
                 (fst ((l ← ask (fun w => islink w (join top dn));
                        if l : bool then ret a
                        else os_walk depth (join top dn)
                               (fun root dirs files _ =>
                                  for_each files (fun file => fix_one root file)) a) w2))).
    { intros dn [] w2 _. rewrite bind_ask.
      destruct (islink w2 (join top dn)); [apply perm_step_refl|apply fix_walk_perm_step]. }
    destruct (fold_each_visit perm_step perm_step_refl perm_step_trans _ _ n
                Hstep Hin _ _ _ _ Hdirs)
      as ([] & wa & wb & [] & Ha & Hbody & Hb).
    rewrite bind_ask in Hbody.
    assert (Hwa : perm_step w wa) by (eapply perm_step_trans; eauto).
    assert (Hil : islink wa (join top n) = false).
    { rewrite (islink_perm_step _ _ _ Hwa). unfold islink, stat_node.
      rewrite (locate_child w false top n _ eq_refl Hpd Hdd Hn), Hnd; [reflexivity|].
      intros; reflexivity. }
    rewrite Hil in Hbody.
    destruct (touched_file _ _ _ _ _ (proj2 Hwa) Hfile) as (ma & Hfa & Hma).
    apply (touched_fixed (files wb)); [apply Hb|].
    rewrite <- Hma.
    change (path_comps (cwd w) top ++ n :: n2 :: rel)
      with (path_comps (cwd w) top ++ [n] ++ n2 :: rel).
    rewrite app_assoc.
    apply (IH (join top n) wa wb (path_comps (cwd w) top ++ [n]) (n2 :: rel) ma data).
    + exact Hbody.
    + rewrite (proj1 Hwa). now apply path_comps_join, proper_plain.
    + apply Forall_app. split; [exact Hpd|]. constructor; [exact Hn|constructor].
    + apply (dirs_along_touched (files w)); [apply Hwa|].
      apply dirs_along_app. split; [exact Hdd|]. simpl. split; [exact Hnd|exact I].
    + discriminate.
    + exact Hprel'.
    + apply (dirs_along_touched (files w)); [apply Hwa|]. exact Hdrel.
    + rewrite <- app_assoc. exact Hfa.
    + exact Hlib.
Qed.

(** ** Library names *)

Lemma substring_full (s : string) : String.substring 0 (String.length s) s = s.
Proof. induction s as [|c s IH]; [reflexivity|]. simpl. now rewrite IH. Qed.

Lemma eqb_length (a b : string) :
  String.length a <> String.length b -> String.eqb a b = false.
Proof. intros H. apply String.eqb_neq. intros ->. congruence. Qed.

Lemma endswith_cons (suf : string) (c : ascii) (s : string) :
  endswith suf (String c s) = endswith suf s || String.eqb (String c s) suf.
Proof.
  unfold endswith. change (String.length (String c s)) with (S (String.length s)).
  destruct (Nat.leb_spec (String.length suf) (String.length s)) as [Hle|Hgt].
  - replace (String.length suf <=? S (String.length s))%nat with true
      by (symmetry; apply Nat.leb_le; lia).
    replace (S (String.length s) - String.length suf)
      with (S (String.length s - String.length suf)) by lia.
    cbn [String.substring]. rewrite (eqb_length (String c s) suf) by (simpl; lia).
    now rewrite orb_false_r.
  - destruct (Nat.eq_dec (String.length suf) (S (String.length s))) as [He|Hne].
    + rewrite He, Nat.leb_refl, Nat.sub_diag.
      change (S (String.length s)) with (String.length (String c s)).
      now rewrite substring_full.
    + replace (String.length suf <=? S (String.length s))%nat with false
        by (symmetry; apply Nat.leb_gt; lia).
      rewrite (eqb_length (String c s) suf) by (simpl; lia). reflexivity.
Qed.

Lemma has_sep_append (a b : string) : has_sep (a +:+ "/" +:+ b) = true.
Proof.
  induction a as [|c a IH]; [reflexivity|].
  rewrite append_cons. simpl. rewrite IH. apply orb_true_r.
Qed.

Lemma has_sep_eqb (x suf : string) :
  has_sep x = true -> has_sep suf = false -> String.eqb x suf = false.
Proof. intros Hx Hs. apply String.eqb_neq. intros ->. congruence. Qed.

Lemma endswith_under (suf a file : string) :
  has_sep suf = false ->
  endswith suf (a +:+ "/" +:+ file) = endswith suf file.
Proof.
  intros Hs. induction a as [|c a IH].
  - change ("" +:+ "/" +:+ file) with (String "/" file).
    rewrite endswith_cons, (has_sep_eqb (String "/" file) suf); [apply orb_false_r| |exact Hs].
    reflexivity.
  - rewrite append_cons, endswith_cons, IH.
    rewrite (has_sep_eqb (String c (a +:+ "/" +:+ file)) suf); [apply orb_false_r| |exact Hs].
    simpl. rewrite has_sep_append. apply orb_true_r.
Qed.

Lemma endswith_join (suf root file : string) :
  has_sep suf = false -> plain file ->
  endswith suf (join root file) = endswith suf file.
Proof.
  intros Hs Hf. rewrite (join_relative _ _ (plain_relative _ Hf)).
  destruct (String.eqb_spec root "") as [->|Hr]; [reflexivity|].
  simpl. destruct (endswith "/" root) eqn:He; [|now apply endswith_under].
  destruct (endswith_sep_inv _ He) as [r' ->].
  rewrite append_assoc. now apply endswith_under.
Qed.

Lemma is_shared_lib_name (root file : string) :
  plain file -> is_shared_lib (join root file) file = shared_lib_name file.
Proof.
  intros Hf. unfold is_shared_lib, shared_lib_name.
  now rewrite !endswith_join by (reflexivity || exact Hf).
Qed.

Lemma join_all_snoc (top : string) (rel : list string) (n : string) :
  join_all top (rel ++ [n]) = join (join_all top rel) n.
Proof. unfold join_all. now rewrite fold_left_app. Qed.

Lemma last_name_snoc (rel : list string) (n : string) : last_name (rel ++ [n]) = n.
Proof. unfold last_name. now rewrite last_snoc. Qed.

Lemma is_shared_lib_join_all (top : string) (rel : list string) :
  rel <> [] -> Forall proper rel ->
  is_shared_lib (join_all top rel) (last_name rel) = shared_lib_name (last_name rel).
Proof.
  intros Hne Hp. destruct rel as [|n rel _] using rev_ind; [congruence|].
  rewrite join_all_snoc, last_name_snoc. apply is_shared_lib_name.
  apply Forall_app in Hp. destruct Hp as [_ Hp]. inversion Hp; subst.
  now apply proper_plain.
Qed.

Lemma isabs_abspath (cwd p : string) : isabs cwd = true -> isabs (abspath cwd p) = true.
Proof.
  intros Hc. unfold abspath. fold (absolute cwd p).
  pose proof (isabs_absolute cwd p Hc) as Ha.
  unfold normpath. destruct (absolute cwd p) as [|c s]; [discriminate|].
  simpl String.eqb. cbv iota. unfold initial_slashes. unfold isabs in Ha. rewrite Ha.
  set (L := norm_comps _ _).
  destruct (_ && _); cbv iota beta.
  - change ("//" +:+ join_sep L) with (String "/" (String "/" (join_sep L))).
    simpl String.eqb. cbv iota. apply isabs_cons.
  - change ("/" +:+ join_sep L) with (String "/" (join_sep L)).
    simpl String.eqb. cbv iota. apply isabs_cons.
Qed.

Lemma path_comps_abspath (cwd p : string) :
  isabs cwd = true -> path_comps cwd (abspath cwd p) = abs_list cwd p.
Proof.
  intros Hc. unfold path_comps. now rewrite join_absolute by now apply isabs_abspath.
Qed.

(** C4, as stated, fails: a library with mode [0o600] leaves the pass with
    mode [0o755]; adding only the three execute bits would give [0o711]. *)
Lemma fix_permissions_adds_read_bits :
  let w' := fst (_fix_file_permissions 1000 staging_command private_lib_world) in
  files private_lib_world !! ["d"; "libfoo.so"] = Some (File 384 "ELF")
  /\ files w' !! ["d"; "libfoo.so"] = Some (File 493 "ELF")
  /\ Z.lor 384 73 = 457%Z
  /\ 493%Z <> Z.lor 384 73.
Proof. repeat split. discriminate. Qed.

(** When the pass completes, every file that lies below the directory of an
    extension through real directories and whose name marks a shared library
    has the old bits OR-ed with [0o755]. *)
Lemma fix_permissions_sets_bits (depth : nat) (self : build_ext) (w w' : world)
    (ext : PrebuiltExtension) (rel : loc) (m : Z) (data : string) :
  _fix_file_permissions depth self w = (w', Ok tt) ->
  In ext (extensions self) ->
  isabs (cwd w) = true ->
  let d := path_comps (cwd w) (extdir_of self w ext) in
  dirs_along (files w) [] d ->
  rel <> [] -> Forall proper rel ->
  dirs_along (files w) d (removelast rel) ->
  files w !! (d ++ rel) = Some (File m data) ->
  shared_lib_name (last_name rel) = true ->
  (0 <= m < 4096)%Z ->
  files w' !! (d ++ rel) = Some (File (Z.lor m 493) data)
  /\ Z.land (Z.lor m 493) 73 = 73%Z.
Proof.
  intros Hrun Hext Hc d Hdd Hne Hprel Hdrel Hfile Hname Hm.
  rewrite <- (with_755_small _ Hm). split; [|apply with_755_exec].
  assert (Hpd : Forall proper d).
  { subst d. unfold extdir_of. rewrite (path_comps_abspath _ _ Hc).
    now apply abs_list_proper. }
  assert (Hnode : node_at (files w) (d ++ rel) = Some (File m data)).
  { destruct (d ++ rel) eqn:E; [|exact Hfile].
    apply app_eq_nil in E. destruct E as [_ E]. congruence. }
  assert (Hbody : forall (y : PrebuiltExtension) (w2 : world),
             In y (extensions self) ->
             perm_step w2
               (fst ((extdir ← ask (fun w => extdir_of self w y);
                      e ← ask (fun w => path_exists w extdir);
                      if e : bool then
                        os_walk depth extdir (fun root dirs files _ =>
                          for_each files (fun file => fix_one root file)) tt
                      else ret tt) w2))).
  { intros y w2 _. rewrite !bind_ask.
    destruct (path_exists w2 _); [apply fix_walk_perm_step|apply perm_step_refl]. }
  destruct (for_each_visit perm_step perm_step_refl perm_step_trans _ _ ext
              Hbody Hext _ _ Hrun) as (wa & wb & Ha & Hone & Hb).
  rewrite !bind_ask in Hone.
  assert (Hdir : extdir_of self wa ext = extdir_of self w ext).
  { unfold extdir_of. now rewrite (proj1 Ha). }
  rewrite Hdir in Hone.
  assert (Hex : path_exists wa (extdir_of self w ext) = true).
  { rewrite (path_exists_perm_step _ _ _ Ha). unfold path_exists, stat_node, locate.
    fold d. rewrite (walk_dirs _ _ _ _ Hpd Hdd), (dirs_along_last _ _ Hdd). reflexivity. }
  rewrite Hex in Hone.
  destruct (touched_file _ _ _ _ _ (proj2 Ha) Hnode) as (ma & Hfa & Hma).
  assert (Hres : node_at (files w') (d ++ rel) = Some (File (with_755 m) data)).
  { apply (touched_fixed (files wb)); [apply Hb|]. rewrite <- Hma.
    apply (fix_walk_visit depth (extdir_of self w ext) wa wb d rel ma data).
    - exact Hone.
    - now rewrite (proj1 Ha).
    - exact Hpd.
    - apply (dirs_along_touched (files w)); [apply Ha|exact Hdd].
    - exact Hne.
    - exact Hprel.
    - apply (dirs_along_touched (files w)); [apply Ha|exact Hdrel].
    - exact Hfa.
    - now rewrite (is_shared_lib_join_all _ _ Hne Hprel). }
  destruct (d ++ rel) eqn:E; [|exact Hres].
  apply app_eq_nil in E. destruct E as [_ E]. congruence.
Qed.


(** ** The replicator and the source tree *)

(** Into a staging directory left by an earlier run the copy alone already
    writes into the source tree: replicating the rebuilt source completes,
    and the library [libfoo.so.1] of the source tree has been overwritten
    through the old link. *)
Lemma copy_all_files_writes_through_stale_link :
  let r := copy_all_files 1000 "/s" "/d" rebuilt_world in
  snd r = Ok tt
  /\ within ["s"] ["s"; "libfoo.so.1"] = true
  /\ files rebuilt_world !! ["s"; "libfoo.so.1"] = Some (File 420 "OLD")
  /\ files (fst r) !! ["s"; "libfoo.so.1"] = Some (File 420 "NEW").
Proof. repeat split. Qed.

Lemma below_spec (d k : loc) :
  below d k = true <-> exists x l, k = d ++ x :: l.
Proof.
  revert k. induction d as [|y d IH]; intros [|z k]; simpl.
  - split; [discriminate|]. intros (x & l & H). discriminate.
  - split; [eauto|reflexivity].
  - split; [discriminate|]. intros (x & l & H). discriminate.
  - rewrite andb_true_iff, IH, String.eqb_eq. split.
    + intros [-> (x & l & ->)]. eauto.
    + intros (x & l & [= -> ->]). eauto.
Qed.

Lemma within_spec (d k : loc) : within d k = true <-> d `prefix_of` k.
Proof.
  unfold within. rewrite orb_true_iff, bool_decide_eq_true, below_spec. split.
  - intros [-> | (x & l & ->)]; [reflexivity|]. now exists (x :: l).
  - intros [[|x l] ->]; [left; now rewrite app_nil_r|right; eauto].
Qed.

Lemma within_false (d k : loc) : within d k = false <-> ~ d `prefix_of` k.
Proof. rewrite <- within_spec. destruct (within d k); split; congruence. Qed.

Lemma within_snoc (d k : loc) (x : string) :
  within (d ++ [x]) k = true -> below d k = true.
Proof.
  rewrite within_spec, below_spec. intros [l ->]. exists x, l. now rewrite <- app_assoc.
Qed.

Lemma below_within (d k : loc) : below d k = true -> within d k = true.
Proof. intros H. unfold within. rewrite H. apply orb_true_r. Qed.

Lemma within_snoc_other (d k : loc) (x y : string) :
  x <> y -> within (d ++ [x]) k = true -> within (d ++ [y]) k = false.
Proof.
  intros Hne Hx. apply within_false. intros [l2 H2].
  apply within_spec in Hx. destruct Hx as [l1 H1]. subst k.
  rewrite <- !app_assoc in H2. apply app_inv_head in H2. simpl in H2. congruence.
Qed.

Lemma prefix_not_within_snoc (d p : loc) (x : string) :
  p `prefix_of` d -> within (d ++ [x]) p = false.
Proof.
  intros Hp. apply within_false. intros Hd.
  apply prefix_length in Hp, Hd. rewrite length_app in Hd. simpl in Hd. lia.
Qed.

Lemma only_within_refl (d : loc) (w : world) : only_within d w w.
Proof. split; reflexivity. Qed.

Lemma only_within_trans (d : loc) (w1 w2 w3 : world) :
  only_within d w1 w2 -> only_within d w2 w3 -> only_within d w1 w3.
Proof.
  intros [C1 H1] [C2 H2]. split; [congruence|].
  intros k Hk. rewrite (H2 k Hk). now apply H1.
Qed.

Lemma only_within_snoc (d : loc) (x : string) (w w' : world) :
  only_within (d ++ [x]) w w' -> only_within d w w'.
Proof.
  intros [C H]. split; [exact C|]. intros k Hk. apply H.
  destruct (within (d ++ [x]) k) eqn:E; [|reflexivity].
  apply within_snoc, below_within in E. congruence.
Qed.

Lemma dirs_along_prefix (fs : store) (rest : list string) :
  forall cur p,
    dirs_along fs cur rest -> p `prefix_of` (cur ++ rest) ->
    List.length cur < List.length p -> node_at fs p = Some Dir.
Proof.
  induction rest as [|c rest IH]; intros cur p Hd Hp Hl.
  - rewrite app_nil_r in Hp. apply prefix_length in Hp. lia.
  - destruct Hd as [Hn Hd].
    destruct (decide (List.length p = S (List.length cur))) as [He|Hne].
    + assert (p = cur ++ [c]) as ->; [|exact Hn].
      destruct Hp as [l Hp]. change (c :: rest) with ([c] ++ rest) in Hp.
      rewrite app_assoc in Hp.
      apply app_inj_1 in Hp; [symmetry; apply Hp|].
      rewrite length_app. simpl. lia.
    + apply (IH (cur ++ [c])); [exact Hd|now rewrite <- app_assoc|].
      rewrite length_app. simpl. lia.
Qed.

Lemma dirs_along_agree (fs fs' : store) (rest : list string) :
  forall cur,
    (forall p, p `prefix_of` (cur ++ rest) -> p <> [] -> fs' !! p = fs !! p) ->
    dirs_along fs cur rest -> dirs_along fs' cur rest.
Proof.
  induction rest as [|c rest IH]; intros cur Hag; simpl; [trivial|].
  intros [Hn Hd]. split.
  - rewrite node_at_snoc in *. rewrite Hag; [exact Hn| |].
    + exists rest. now rewrite <- app_assoc.
    + destruct cur; discriminate.
  - apply IH; [|exact Hd]. intros p Hp. apply Hag. now rewrite <- app_assoc in Hp.
Qed.

Lemma dirs_or_free_agree (fs fs' : store) (rest : list string) :
  forall cur,
    (forall p, List.length cur < List.length p -> fs' !! p = fs !! p) ->
    dirs_or_free fs cur rest -> dirs_or_free fs' cur rest.
Proof.
  induction rest as [|c rest IH]; intros cur Hag; simpl; [trivial|].
  intros [Hn Hd]. split.
  - rewrite node_at_snoc in *. rewrite Hag; [exact Hn|].
    rewrite length_app. simpl. lia.
  - apply IH; [|exact Hd]. intros p Hp. apply Hag. rewrite length_app in Hp. simpl in Hp. lia.
Qed.

(** [os.makedirs] on a path whose leading parts are real directories or
    missing creates the missing ones and nothing else. *)
Lemma makedirs_go_spec (rest : list string) :
  forall (pre : list string) (fs : store),
    Forall proper pre -> Forall proper rest ->
    dirs_along fs [] pre -> dirs_or_free fs pre rest ->
    exists fs',
      makedirs_go fs pre rest = (fs', Ok tt)
      /\ dirs_along fs' [] (pre ++ rest)
      /\ forall k,
           fs' !! k = fs !! k
           \/ (k <> [] /\ k `prefix_of` (pre ++ rest)
               /\ fs !! k = None /\ fs' !! k = Some Dir).
Proof.
  induction rest as [|c rest IH]; intros pre fs Hpre Hrest Hd Hf.
  - exists fs. rewrite app_nil_r. split; [reflexivity|]. split; [exact Hd|]. now left.
  - inversion Hrest as [|? ? Hc Hrest']; subst. destruct Hf as [Hn Hf].
    assert (Hpre' : Forall proper (pre ++ [c])).
    { apply Forall_app. split; [exact Hpre|]. constructor; [exact Hc|constructor]. }
    cbn [makedirs_go].
    rewrite (walk_dirs_last _ _ false _ _ Hpre Hd Hc) by reflexivity.
    destruct Hn as [Hn|Hn]; rewrite Hn.
    + destruct (IH (pre ++ [c]) fs Hpre' Hrest') as (fs' & H1 & H2 & H3).
      * apply dirs_along_app. split; [exact Hd|]. simpl. now split.
      * exact Hf.
      * exists fs'. rewrite <- app_assoc in H2, H3. now split.
    + destruct (IH (pre ++ [c]) (<[pre ++ [c] := Dir]> fs) Hpre' Hrest')
        as (fs' & H1 & H2 & H3).
      * apply dirs_along_app. split.
        -- apply (dirs_along_agree fs); [|exact Hd].
           intros p Hp _. rewrite lookup_insert_ne; [reflexivity|].
           intros <-. apply prefix_length in Hp. rewrite length_app in Hp. simpl in Hp. lia.
        -- simpl. split; [|exact I]. now rewrite node_at_snoc, lookup_insert_eq.
      * apply (dirs_or_free_agree fs); [|exact Hf].
        intros p Hp. rewrite lookup_insert_ne; [reflexivity|]. intros <-. lia.
      * exists fs'. rewrite <- app_assoc in H2, H3. split; [exact H1|]. split; [exact H2|].
        intros k. destruct (H3 k) as [E | (E1 & E2 & E3 & E4)].
        -- destruct (decide (k = pre ++ [c])) as [->|Hk].
           ++ right. rewrite node_at_snoc in Hn.
              split; [destruct pre; discriminate|].
              split; [now exists rest; rewrite <- app_assoc|].
              split; [exact Hn|]. now rewrite E, lookup_insert_eq.
           ++ left. now rewrite E, lookup_insert_ne.
        -- right. split; [exact E1|]. split; [exact E2|]. split; [|exact E4].
           destruct (decide (k = pre ++ [c])) as [->|Hk].
           ++ now rewrite lookup_insert_eq in E3.
           ++ now rewrite lookup_insert_ne in E3.
Qed.

Lemma NoDup_entries (fs : store) (d : loc) : NoDup (entries fs d).
Proof.
  unfold entries. pose proof (NoDup_fst_map_to_list fs) as Hnd.
  induction (map_to_list fs) as [|[k nd] L IH]; [constructor|].
  simpl in Hnd. apply NoDup_cons in Hnd. destruct Hnd as [Hk Hnd].
  cbn [omap list_omap]. simpl. destruct (child_name d k) as [n|] eqn:Hc; [|now apply IH].
  apply NoDup_cons. split; [|now apply IH].
  intros Hin. apply list_elem_of_omap in Hin. destruct Hin as ([k' nd'] & Hin & Hc').
  apply child_name_spec in Hc, Hc'. simpl in Hc'. subst k k'.
  apply Hk. apply list_elem_of_fmap. now exists (d ++ [n], nd').
Qed.

Lemma entries_proper (fs : store) (d : loc) :
  wf_store fs -> Forall proper (entries fs d).
Proof.
  intros Hwf. apply Forall_forall. intros n Hn.
  apply elem_of_entries in Hn. destruct Hn as [nd Hnd].
  apply Hwf in Hnd. apply Forall_app in Hnd. destruct Hnd as [_ Hn].
  now inversion Hn.
Qed.

Lemma wf_store_insert (fs : store) (l : loc) (nd : node) :
  Forall proper l -> wf_store fs -> wf_store (<[l := nd]> fs).
Proof.
  intros Hl Hwf k nd'. destruct (decide (l = k)) as [<-|Hne].
  - intros _. exact Hl.
  - rewrite lookup_insert_ne by exact Hne. apply Hwf.
Qed.

Lemma at_most_insert_post (d l : loc) (w w' : world) :
  at_most_insert l w w' -> within d l = true -> Forall proper l ->
  wf_store (files w) ->
  only_within d w w' /\ wf_store (files w').
Proof.
  intros [Hc [He | [nd He]]] Hin Hl Hwf; rewrite He.
  - split; [|exact Hwf]. split; [exact Hc|]. intros k _. now rewrite He.
  - split; [|now apply wf_store_insert]. split; [exact Hc|].
    intros k Hk. rewrite He. apply lookup_insert_ne. congruence.
Qed.

(** On a free name in a directory reached through real directories, the
    link branch changes nothing or makes one link there. *)
Lemma copy_link_fresh (source_path destination_dir x : string) (w : world) (d : loc) :
  path_comps (cwd w) destination_dir = d -> Forall proper d ->
  dirs_along (files w) [] d -> proper x ->
  files w !! (d ++ [x]) = None ->
  at_most_insert (d ++ [x]) w (fst (copy_link source_path (join destination_dir x) w)).
Proof.
  intros Hd Hpd Hdd Hx Hfree.
  assert (Hn : node_at (files w) (d ++ [x]) = None) by now rewrite node_at_snoc.
  assert (Hl : forall f, locate f w (join destination_dir x) = Ok (d ++ [x])).
  { intros f. apply locate_child; try assumption. intros t Ht. congruence. }
  assert (Hsym : forall target,
             (exists e, os_symlink target (join destination_dir x) w = (w, Raise e))
             \/ os_symlink target (join destination_dir x) w
                = (set_files w (<[d ++ [x] := Link target]> (files w)), Ok tt)).
  { intros target. unfold os_symlink.
    destruct (String.eqb target ""); [left; eexists; reflexivity|].
    destruct (PATH_MAX <=? String.length target)%nat; [left; eexists; reflexivity|].
    right. now rewrite Hl, Hn. }
  unfold copy_link. rewrite bind_unfold. unfold os_readlink.
  destruct (stat_node false w source_path) as [[m data|t|]|e];
    try (split; [reflexivity|now left]).
  set (link_target := if negb (isabs t) then join (dirname source_path) t else t).
  rewrite bind_unfold, bind_ask, (free_name_not_exists _ _ _ (Hl false) Hn). cbv [ret].
  unfold try_except. rewrite bind_unfold.
  destruct (relpath (cwd w) link_target (dirname (join destination_dir x))) as [rel|e].
  - rewrite bind_unfold. destruct (Hsym rel) as [[e1 ->] | ->].
    + destruct (is_OSError e1 || is_ValueError e1); [|split; [reflexivity|now left]].
      rewrite bind_unfold. destruct (Hsym link_target) as [[e2 ->] | ->].
      * split; [reflexivity|now left].
      * split; [reflexivity|right; eexists; reflexivity].
    + split; [reflexivity|right; eexists; reflexivity].
  - destruct (is_OSError e || is_ValueError e); [|split; [reflexivity|now left]].
    rewrite bind_unfold. destruct (Hsym link_target) as [[e2 ->] | ->].
    + split; [reflexivity|now left].
    + split; [reflexivity|right; eexists; reflexivity].
Qed.

(** On a free name, [shutil.copy2] changes nothing or makes one file there. *)
Lemma copy2_fresh (source_path destination_dir x : string) (w : world) (d : loc) :
  path_comps (cwd w) destination_dir = d -> Forall proper d ->
  dirs_along (files w) [] d -> proper x ->
  files w !! (d ++ [x]) = None ->
  at_most_insert (d ++ [x]) w (fst (shutil_copy2 source_path (join destination_dir x) w)).
Proof.
  intros Hd Hpd Hdd Hx Hfree.
  assert (Hn : node_at (files w) (d ++ [x]) = None) by now rewrite node_at_snoc.
  assert (Hl : locate true w (join destination_dir x) = Ok (d ++ [x])).
  { apply locate_child; try assumption. intros t Ht. congruence. }
  unfold shutil_copy2.
  assert (Hnd : isdir w (join destination_dir x) = false).
  { unfold isdir, stat_node. now rewrite Hl, Hn. }
  rewrite Hnd, Hl.
  destruct (locate true w source_path) as [ls|e]; [|split; [reflexivity|now left]].
  destruct (node_at (files w) ls) as [[m data|t|]|]; try (split; [reflexivity|now left]).
  destruct (bool_decide (ls = d ++ [x])); [split; [reflexivity|now left]|].
  rewrite Hn. split; [reflexivity|right; eexists; reflexivity].
Qed.

Lemma dirs_or_free_snoc_from (fs : store) (d : loc) (x : string) :
  forall cur,
    dirs_along fs cur d -> node_at fs (cur ++ d ++ [x]) = None ->
    dirs_or_free fs cur (d ++ [x]).
Proof.
  induction d as [|c d IH]; intros cur Hd Hn; simpl in *.
  - split; [now right|exact I].
  - destruct Hd as [H1 H2]. split; [now left|]. apply IH; [exact H2|].
    now rewrite <- app_assoc.
Qed.

Lemma dirs_or_free_snoc (fs : store) (d : loc) (x : string) :
  dirs_along fs [] d -> node_at fs (d ++ [x]) = None -> dirs_or_free fs [] (d ++ [x]).
Proof. intros Hd Hn. now apply dirs_or_free_snoc_from. Qed.

(** One entry of the loop, on a free name. *)
Lemma copy_entry_fresh (recurse : string -> string -> M unit)
    (source_dir destination_dir x : string) (w : world) (d : loc) :
  replicates_into_fresh recurse ->
  path_comps (cwd w) destination_dir = d -> Forall proper d ->
  wf_store (files w) -> dirs_along (files w) [] d -> proper x ->
  (forall k, within (d ++ [x]) k = true -> files w !! k = None) ->
  only_within (d ++ [x]) w (fst (copy_entry recurse source_dir destination_dir x w))
  /\ wf_store (files (fst (copy_entry recurse source_dir destination_dir x w))).
Proof.
  intros Hrec Hd Hpd Hwf Hdd Hx Hfree.
  assert (Hnone : files w !! (d ++ [x]) = None).
  { apply Hfree. apply within_spec. reflexivity. }
  assert (Hpx : Forall proper (d ++ [x])).
  { apply Forall_app. split; [exact Hpd|]. constructor; [exact Hx|constructor]. }
  assert (Hself : within (d ++ [x]) (d ++ [x]) = true) by (apply within_spec; reflexivity).
  unfold copy_entry. rewrite bind_ask.
  destruct (islink w (join source_dir x)).
  { eapply at_most_insert_post; eauto using copy_link_fresh. }
  rewrite bind_ask. destruct (isdir w (join source_dir x)).
  - destruct (Hrec (join source_dir x) (join destination_dir x) w (d ++ [x]))
      as [[Hc Hch] Hwf'].
    + rewrite <- Hd. now apply path_comps_join, proper_plain.
    + exact Hpx.
    + exact Hwf.
    + apply dirs_or_free_snoc; [exact Hdd|now rewrite node_at_snoc].
    + intros k Hk. apply Hfree. now apply below_within.
    + split; [|exact Hwf']. split; [exact Hc|].
      intros k Hk. destruct (Hch k Hk) as [E | (Hne & Hp & Hn & _)]; [exact E|].
      exfalso. assert (Hpd' : k `prefix_of` d).
      { destruct Hp as [l Hp]. destruct l as [|y l _] using rev_ind.
        - rewrite app_nil_r in Hp. subst k. congruence.
        - rewrite app_assoc in Hp. apply app_inj_tail in Hp. destruct Hp as [-> _].
          now exists l. }
      assert (Hdir : node_at (files w) k = Some Dir).
      { apply (dirs_along_prefix _ d []); [exact Hdd|exact Hpd'|].
        destruct k; [congruence|simpl; lia]. }
      destruct k; [congruence|]. simpl in Hdir. congruence.
  - rewrite bind_unfold.
    pose proof (copy2_fresh (join source_dir x) destination_dir x w d Hd Hpd Hdd Hx Hnone)
      as H2.
    destruct (shutil_copy2 (join source_dir x) (join destination_dir x) w) as [w2 [[]|e]];
      simpl in H2; eapply at_most_insert_post; eauto.
Qed.

(** The loop over the entries of one directory: each works on its own free
    name of the destination. *)
Lemma for_each_fresh (body : string -> M unit) (d : loc) (c : string)
    (items : list string) :
  NoDup items ->
  (forall x w,
     In x items -> cwd w = c ->
     wf_store (files w) -> dirs_along (files w) [] d ->
     (forall k, within (d ++ [x]) k = true -> files w !! k = None) ->
     only_within (d ++ [x]) w (fst (body x w)) /\ wf_store (files (fst (body x w)))) ->
  forall w,
    cwd w = c ->
    wf_store (files w) -> dirs_along (files w) [] d ->
    (forall x, In x items -> forall k, within (d ++ [x]) k = true -> files w !! k = None) ->
    only_within d w (fst (for_each items body w))
    /\ wf_store (files (fst (for_each items body w))).
Proof.
  induction items as [|x items IH]; intros Hnd Hbody w Hcw Hwf Hdd Hfree.
  - split; [apply only_within_refl|exact Hwf].
  - apply NoDup_cons in Hnd. destruct Hnd as [Hx Hnd].
    destruct (Hbody x w (or_introl eq_refl) Hcw Hwf Hdd (Hfree x (or_introl eq_refl)))
      as [H1 Hwf1].
    simpl for_each. rewrite bind_unfold.
    destruct (body x w) as [w1 [[]|e]]; simpl in H1, Hwf1.
    + destruct (IH Hnd (fun y w2 Hy => Hbody y w2 (or_intror Hy)) w1) as [H2 Hwf2].
      * rewrite (proj1 H1). exact Hcw.
      * exact Hwf1.
      * apply (dirs_along_agree (files w)); [|exact Hdd].
        intros p Hp _. apply H1. now apply prefix_not_within_snoc.
      * intros y Hy k Hk. rewrite (proj2 H1 k).
        -- now apply (Hfree y (or_intror Hy)).
        -- apply (within_snoc_other d k y x); [|exact Hk].
           intros ->. apply Hx. now apply list_elem_of_In.
      * split; [|exact Hwf2].
        eapply only_within_trans; [apply (only_within_snoc d x); exact H1|exact H2].
    + split; [now apply (only_within_snoc d x)|exact Hwf1].
Qed.

(** The replicator into a fresh destination changes the destination only. *)
Lemma copy_all_files_fresh (depth : nat) :
  replicates_into_fresh (copy_all_files depth).
Proof.
  induction depth as [|depth IH]; intros source_dir destination_dir w d Hd Hpd Hwf Hdf Hfree.
  - split; [|exact Hwf]. split; [reflexivity|]. intros k _. now left.
  - cbn [copy_all_files]. rewrite bind_unfold. unfold os_makedirs. rewrite Hd.
    destruct (makedirs_go_spec d [] (files w) (List.Forall_nil proper) Hpd I Hdf)
      as (fs1 & Hmk & Hdd1 & Hch1).
    rewrite Hmk. simpl app in Hdd1, Hch1.
    set (w1 := set_files w fs1).
    assert (Hwf1 : wf_store (files w1)).
    { intros k nd Hk. simpl in Hk. destruct (Hch1 k) as [E | (_ & [l Hp] & _ & _)].
      - rewrite E in Hk. eapply Hwf; eauto.
      - rewrite Hp in Hpd. apply Forall_app in Hpd. apply Hpd. }
    assert (Hfree1 : forall k, below d k = true -> files w1 !! k = None).
    { intros k Hk. simpl. destruct (Hch1 k) as [E | (_ & Hp & _ & _)].
      - rewrite E. now apply Hfree.
      - exfalso. apply below_spec in Hk. destruct Hk as (y & l & ->).
        apply prefix_length in Hp. rewrite length_app in Hp. simpl in Hp. lia. }
    assert (H01 : only_dest d w w1).
    { split; [reflexivity|]. intros k _. simpl. apply Hch1. }
    rewrite bind_unfold. unfold os_listdir.
    destruct (locate true w1 source_dir) as [ls|e]; [|split; [exact H01|exact Hwf1]].
    destruct (node_at (files w1) ls) as [[m data|t|]|];
      try (split; [exact H01|exact Hwf1]).
    destruct (for_each_fresh (copy_entry (copy_all_files depth) source_dir destination_dir)
                d (cwd w) (listing w1 (entries (files w1) ls))
                (NoDup_listing _ _ (NoDup_entries _ _))) with (w := w1)
      as [H12 Hwf2].
    + intros x w2 Hx Hc2 Hwf2 Hdd2 Hfree2.
      apply copy_entry_fresh; try assumption.
      * now rewrite Hc2.
      * pose proof (entries_proper _ ls Hwf1) as Hpe. rewrite Forall_forall in Hpe.
        apply Hpe. apply list_elem_of_In. now apply (in_listing w1).
    + reflexivity.
    + exact Hwf1.
    + exact Hdd1.
    + intros x _ k Hk. apply Hfree1. now apply within_snoc in Hk.
    + split; [|exact Hwf2]. destruct H01 as [C01 H01]. destruct H12 as [C12 H12].
      split; [congruence|]. intros k Hk. rewrite (H12 k Hk). now apply H01.
Qed.

Lemma properb_spec (c : string) : properb c = true -> proper c.
Proof.
  unfold properb, nonempty. rewrite !andb_true_iff, !negb_true_iff, !String.eqb_neq.
  intros [[[Hs H0] H1] H2]. repeat split; try assumption.
  destruct (split_sep c) as [|x [|y l]]; try discriminate.
  apply String.eqb_eq in Hs. now subst.
Qed.

Lemma wf_storeb_spec (fs : store) : wf_storeb fs = true -> wf_store fs.
Proof.
  unfold wf_storeb. rewrite forallb_forall. intros H k nd Hk.
  apply elem_of_map_to_list, list_elem_of_In, H in Hk. simpl in Hk.
  rewrite forallb_forall in Hk. apply Forall_forall. intros x Hx.
  apply properb_spec, Hk. now apply list_elem_of_In.
Qed.

Lemma descendants_nil (fs : store) (d k : loc) :
  descendants fs d = [] -> below d k = true -> fs !! k = None.
Proof.
  intros Hn Hb. destruct (fs !! k) as [nd|] eqn:Hk; [|reflexivity].
  exfalso. apply elem_of_map_to_list in Hk.
  assert (Hin : In k (descendants fs d)).
  { unfold descendants. apply filter_In. split; [|exact Hb].
    apply in_map_iff. exists (k, nd). split; [reflexivity|now apply list_elem_of_In]. }
  now rewrite Hn in Hin.
Qed.

(** The copy alone, into a fresh destination.  When the destination path
    is made of real directories or missing names, nothing exists below it,
    and it does not overlap the source directory, [copy_all_files], whether
    it completes or raises, changes the store only at the destination
    directory and below it, apart from creating missing directories on the
    way to it; every entry of the source directory and below it is as it
    was.  The permission pass that follows is not part of this statement. *)
Theorem copy_all_files_leaves_source (depth : nat) (source_dir destination_dir : string)
    (w : world) (s : loc) :
  let d := path_comps (cwd w) destination_dir in
  let w' := fst (copy_all_files depth source_dir destination_dir w) in
  Forall proper d ->
  wf_store (files w) ->
  dirs_or_free (files w) [] d ->
  descendants (files w) d = [] ->
  locate true w source_dir = Ok s ->
  within s d = false -> within d s = false ->
  only_dest d w w'
  /\ forall k, within s k = true -> files w' !! k = files w !! k.
Proof.
  intros d w' Hpd Hwf Hdf Hdesc Hs Hsd Hds.
  destruct (copy_all_files_fresh depth source_dir destination_dir w d eq_refl Hpd Hwf Hdf)
    as [Hod _].
  { intros k. now apply descendants_nil. }
  split; [exact Hod|]. intros k Hk.
  apply within_spec in Hk. apply within_false in Hsd, Hds.
  destruct (proj2 Hod k) as [E | (_ & Hp & _)]; [|exact E|].
  - apply within_false. intros Hdk.
    destruct (prefix_weak_total _ _ _ Hk Hdk); contradiction.
  - exfalso. apply Hsd. now transitivity k.
Qed.

Lemma copy_all_files_leaves_source_witness :
  let w' := fst (copy_all_files 1000 "/p/install/lib" "/p/build/lib" fresh_world) in
  only_dest ["p"; "build"; "lib"] fresh_world w'
  /\ forall k, within ["p"; "install"; "lib"] k = true ->
               files w' !! k = files fresh_world !! k.
Proof.
  apply (copy_all_files_leaves_source 1000 "/p/install/lib" "/p/build/lib" fresh_world
           ["p"; "install"; "lib"]).
  - repeat constructor; discriminate.
  - apply wf_storeb_spec. vm_compute. reflexivity.
  - repeat split; left; reflexivity.
  - vm_compute. reflexivity.
  - reflexivity.
  - reflexivity.
  - reflexivity.
Defined.

(** C7.  The replicator changes the source tree, also into a fresh
    destination.  The run over the built library directory of [fresh_world]
    into the staging directory [/d], of which nothing exists, completes.  The
    link it makes for [libfoo.so] leads back to the library in the source
    tree, and the permission pass, which follows links, changes the
    permission bits of that source file from [0o644] to [0o755]. *)
Theorem run_changes_source_permissions :
  let r := run 1000 staging_command fresh_world in
  snd r = Ok tt
  /\ files fresh_world !! ["d"] = None
  /\ descendants (files fresh_world) ["d"] = []
  /\ lib_dir the_extension = "/p/install/lib"
  /\ files (fst r) !! ["d"; "libfoo.so"] = Some (Link "../p/install/lib/libfoo.so.1")
  /\ within ["p"; "install"; "lib"] ["p"; "install"; "lib"; "libfoo.so.1"] = true
  /\ files fresh_world !! ["p"; "install"; "lib"; "libfoo.so.1"] = Some (File 420 "ELF")
  /\ files (fst r) !! ["p"; "install"; "lib"; "libfoo.so.1"] = Some (File 493 "ELF").
Proof. vm_compute. repeat split. Qed.


(** ** The permission pass on the libraries of an extension *)

(** C4, amended.  Whenever the pass returns normally, every regular file
    that lies below the directory of an extension through real directories
    and whose name marks a shared library has as permission bits exactly the
    old bits OR-ed with [0o755] (read, write and execute for the owner, read
    and execute for group and others), not only with the three execute bits;
    its contents are unchanged, and the bits include the execute bits of
    owner, group and others. *)
Theorem fix_permissions_adds_0o755 (depth : nat) (self : build_ext) (w w' : world)
    (ext : PrebuiltExtension) (rel : loc) (m : Z) (data : string) :
  _fix_file_permissions depth self w = (w', Ok tt) ->
  In ext (extensions self) ->
  isabs (cwd w) = true ->
  let d := path_comps (cwd w) (extdir_of self w ext) in
  dirs_along (files w) [] d ->
  rel <> [] -> Forall proper rel ->
  dirs_along (files w) d (removelast rel) ->
  files w !! (d ++ rel) = Some (File m data) ->
  shared_lib_name (last_name rel) = true ->
  (0 <= m < 4096)%Z ->
  files w' !! (d ++ rel) = Some (File (Z.lor m 493) data)
  /\ Z.land (Z.lor m 493) 73 = 73%Z.
Proof. apply fix_permissions_sets_bits. Qed.

Lemma fix_permissions_adds_0o755_witness :
  _fix_file_permissions 1000 staging_command private_lib_world
  = (fst (_fix_file_permissions 1000 staging_command private_lib_world), Ok tt)
  /\ files (fst (_fix_file_permissions 1000 staging_command private_lib_world))
       !! (["d"] ++ ["libfoo.so"])
     = Some (File (Z.lor 384 493) "ELF")
  /\ Z.land (Z.lor 384 493) 73 = 73%Z.
Proof.
  assert (H : _fix_file_permissions 1000 staging_command private_lib_world
              = (fst (_fix_file_permissions 1000 staging_command private_lib_world), Ok tt))
    by (vm_compute; reflexivity).
  split; [exact H|].
  apply (fix_permissions_adds_0o755 1000 staging_command private_lib_world _
           the_extension ["libfoo.so"] 384 "ELF" H).
  - left. reflexivity.
  - reflexivity.
  - split; [reflexivity|exact I].
  - discriminate.
  - repeat constructor; discriminate.
  - exact I.
  - reflexivity.
  - reflexivity.
  - lia.
Defined.

(** ** What [get_tag] returns and what it leaves alone *)

(** X1.  [get_tag] never changes the file system or the working directory,
    prints at most one line (none when it raises), and whenever it returns,
    the Python tag and the ABI tag are the ones the parent class gave: only
    the platform tag is replaced. *)
Theorem get_tag_keeps_python_and_abi (h : host) (python abi plat : string) (w : world) :
  let r := get_tag h (python, abi, plat) w in
  files (fst r) = files w /\ cwd (fst r) = cwd w
  /\ match snd r with
     | Ok (python', abi', _) =>
         python' = python /\ abi' = abi
         /\ (stdout (fst r) = stdout w \/ exists line, stdout (fst r) = stdout w ++ [line])
     | Raise _ => stdout (fst r) = stdout w
     end.
Proof.
  cbv zeta. unfold get_tag.
  destruct (String.eqb (lower (system h)) "linux").
  - pose proof (linux_tag_cases h plat w) as H.
    change (_get_linux_platform_tag h plat ≫= (fun p => mret (python, abi, p)))
      with (bind (_get_linux_platform_tag h plat) (fun p => ret (python, abi, p))).
    unfold bind.
    destruct (ldd h) as [out|e].
    + destruct (str_in "glibc" out || str_in "GLIBC" out).
      * destruct (re_search_version out) as [v|]; rewrite H; simpl; eauto 10.
      * rewrite H; simpl; eauto 10.
    + destruct (is_probe_caught e); rewrite H; simpl; eauto 10.
  - destruct (String.eqb (lower (system h)) "darwin"); [simpl; eauto 10|].
    destruct (String.eqb (lower (system h)) "windows"); simpl; eauto 10.
Qed.

(** X2.  The platform tag [get_tag] returns is one of the five manylinux
    tags on Linux, one of the two macOS tags on Darwin, one of the two
    Windows tags on Windows, and the tag of the parent class on any other
    system; the letter case of the system name does not matter.  [get_tag]
    raises only on Linux, and only the exception of the [ldd] probe that the
    resolver does not handle. *)
Theorem get_tag_platform_range (h : host) (python abi plat : string) (w : world) :
  match snd (get_tag h (python, abi, plat) w) with
  | Ok (_, _, plat') => In plat' (platform_tags h plat)
  | Raise e =>
      lower (system h) = "linux" /\ ldd h = Raise e /\ is_probe_caught e = false
  end.
Proof.
  unfold get_tag, platform_tags. cbv zeta.
  destruct (String.eqb (lower (system h)) "linux") eqn:El.
  - apply String.eqb_eq in El.
    pose proof (linux_tag_cases h plat w) as H.
    change (_get_linux_platform_tag h plat ≫= (fun p => mret (python, abi, p)))
      with (bind (_get_linux_platform_tag h plat) (fun p => ret (python, abi, p))).
    unfold bind.
    destruct (ldd h) as [out|e].
    + destruct (str_in "glibc" out || str_in "GLIBC" out).
      * destruct (re_search_version out) as [v|]; rewrite H; simpl.
        -- apply manylinux_tag_in.
        -- tauto.
      * rewrite H; simpl; tauto.
    + destruct (is_probe_caught e) eqn:Ec; rewrite H; simpl; [tauto|].
      now repeat split.
  - destruct (String.eqb (lower (system h)) "darwin").
    + simpl. unfold _get_macos_platform_tag.
      destruct (String.eqb (lower (machine h)) "arm64"); simpl; tauto.
    + destruct (String.eqb (lower (system h)) "windows").
      * simpl. unfold _get_windows_platform_tag.
        destruct (str_in "amd64" plat || str_in "x64" plat); simpl; tauto.
      * simpl. tauto.
Qed.

(** X3.  The Linux resolver's answer depends on the [ldd] probe alone: not on
    the platform tag it is given, and not on the file system, so the look at
    [/lib64/libc.so.6] never changes the result. *)
Theorem linux_tag_depends_on_probe_only (h : host) (plat1 plat2 : string)
    (w1 w2 : world) :
  snd (_get_linux_platform_tag h plat1 w1) = snd (_get_linux_platform_tag h plat2 w2).
Proof.
  pose proof (linux_tag_cases h plat1 w1) as H1.
  pose proof (linux_tag_cases h plat2 w2) as H2.
  destruct (ldd h) as [out|e].
  - destruct (str_in "glibc" out || str_in "GLIBC" out).
    + destruct (re_search_version out); now rewrite H1, H2.
    + now rewrite H1, H2.
  - destruct (is_probe_caught e); now rewrite H1, H2.
Qed.

(** ** The version pattern *)

Lemma span_digits_spec (s : string) :
  s = fst (span_digits s) +:+ snd (span_digits s)
  /\ all_digits (fst (span_digits s)) = true
  /\ no_digit_ahead (snd (span_digits s)).
Proof.
  induction s as [|c s IH]; [now repeat split|].
  simpl. destruct (is_digit c) eqn:Ec.
  - destruct (span_digits s) as [d r]. simpl in *.
    destruct IH as (E & Hd & Hr). rewrite append_cons, <- E, Ec, Hd. now repeat split.
  - simpl. now repeat split.
Qed.

Lemma match_version_spec (s v : string) :
  match_version s = Some v ->
  exists a b post,
    v = a +:+ "." +:+ b /\ s = v +:+ post
    /\ a <> "" /\ b <> "" /\ all_digits a = true /\ all_digits b = true
    /\ no_digit_ahead post.
Proof.
  unfold match_version.
  pose proof (span_digits_spec s) as (E1 & D1 & _).
  destruct (span_digits s) as [d1 r1]. simpl in *.
  destruct (String.eqb d1 "") eqn:N1; [discriminate|].
  destruct r1 as [|c r2]; [discriminate|].
  destruct (Ascii.eqb c ".") eqn:Ec; [|discriminate].
  apply Ascii.eqb_eq in Ec. subst c.
  pose proof (span_digits_spec r2) as (E2 & D2 & A2).
  destruct (span_digits r2) as [d2 post]. simpl in *.
  destruct (String.eqb d2 "") eqn:N2; [discriminate|].
  intros [= <-]. exists d1, d2, post.
  apply String.eqb_neq in N1, N2.
  repeat split; try assumption.
  rewrite E1, E2 at 1. rewrite !append_assoc. reflexivity.
Qed.

Lemma re_search_version_parts (s v : string) :
  re_search_version s = Some v ->
  exists a b pre post,
    v = a +:+ "." +:+ b /\ s = pre +:+ v +:+ post
    /\ a <> "" /\ b <> "" /\ all_digits a = true /\ all_digits b = true
    /\ no_digit_ahead post.
Proof.
  induction s as [|c s IH]; simpl.
  - discriminate.
  - destruct (match_version (String c s)) eqn:E.
    + intros [= <-]. destruct (match_version_spec _ _ E) as (a & b & post & H).
      exists a, b, "", post. exact H.
    + intros H. destruct (IH H) as (a & b & pre & post & Hv & Hs & Hr).
      exists a, b, (String c pre), post. split; [exact Hv|].
      split; [|exact Hr]. rewrite append_cons. now rewrite <- Hs.
Qed.

(** X4.  When the output of [ldd] is ASCII text, the version the resolver
    reads from it is a piece of that output made of a run of digits, a dot
    and a run of digits, both runs not empty, and the second run is taken
    whole: the text goes on with something that is not a digit, or ends. *)
Theorem re_search_version_shape (s v : string) :
  isascii s = true ->
  re_search_version s = Some v ->
  exists a b pre post,
    v = a +:+ "." +:+ b /\ s = pre +:+ v +:+ post
    /\ a <> "" /\ b <> "" /\ all_digits a = true /\ all_digits b = true
    /\ no_digit_ahead post.
Proof. intros _. apply re_search_version_parts. Qed.

Lemma re_search_version_shape_witness :
  isascii "ldd (GNU libc) 2.17" = true
  /\ re_search_version "ldd (GNU libc) 2.17" = Some "2.17"
  /\ exists a b pre post,
       "2.17" = a +:+ "." +:+ b /\ "ldd (GNU libc) 2.17" = pre +:+ "2.17" +:+ post
       /\ a <> "" /\ b <> "" /\ all_digits a = true /\ all_digits b = true
       /\ no_digit_ahead post.
Proof.
  split; [reflexivity|]. split; [reflexivity|].
  apply (re_search_version_shape "ldd (GNU libc) 2.17" "2.17"); reflexivity.
Defined.

Lemma last_digit (d : string) :
  all_digits d = true -> d <> "" ->
  exists pre c, d = pre +:+ String c "" /\ is_digit c = true.
Proof.
  induction d as [|c d IH]; [congruence|].
  simpl. intros H _. apply andb_prop in H. destruct H as [Hc Hd].
  destruct d as [|c' d'].
  - exists "", c. now split.
  - destruct (IH Hd) as (pre & c1 & E & H1); [discriminate|].
    exists (String c pre), c1. split; [|exact H1]. rewrite append_cons. now rewrite <- E.
Qed.

Lemma span_digits_digit (c : ascii) (s : string) :
  is_digit c = true -> fst (span_digits (String c s)) <> "".
Proof. simpl. intros ->. destruct (span_digits s). discriminate. Qed.

Lemma span_digits_stop (c : ascii) (s : string) :
  is_digit c = false -> span_digits (String c s) = ("", String c s).
Proof. simpl. now intros ->. Qed.

Lemma match_version_digits (d : string) (c2 : ascii) (post : string) :
  all_digits d = true -> d <> "" -> is_digit c2 = true ->
  match_version (d +:+ String "." (String c2 post)) <> None.
Proof.
  intros Hd Hn H2. unfold match_version.
  assert (span_digits (d +:+ String "." (String c2 post))
          = (d, String "." (String c2 post))) as ->.
  { clear Hn. induction d as [|c d IH]; [reflexivity|].
    simpl in Hd. apply andb_prop in Hd. destruct Hd as [Hc Hd].
    rewrite append_cons. simpl. rewrite Hc, (IH Hd). reflexivity. }
  destruct (String.eqb d "") eqn:E; [apply String.eqb_eq in E; congruence|].
  change (Ascii.eqb "." ".") with true. cbv iota.
  pose proof (span_digits_digit c2 post H2) as Hs.
  destruct (span_digits (String c2 post)) as [d2 r]. simpl in Hs.
  destruct (String.eqb d2 "") eqn:E2; [apply String.eqb_eq in E2; congruence|].
  discriminate.
Qed.

(** A digit, a dot and a digit somewhere in the text: the search finds a
    version. *)
Lemma re_search_version_some (pre : string) (c1 c2 : ascii) (post : string) :
  is_digit c1 = true -> is_digit c2 = true ->
  re_search_version (pre +:+ String c1 (String "." (String c2 post))) <> None.
Proof.
  intros H1 H2. induction pre as [|c pre IH].
  - change ("" +:+ String c1 (String "." (String c2 post)))
      with (String c1 "" +:+ String "." (String c2 post)).
    pose proof (match_version_digits (String c1 "") c2 post) as Hm.
    simpl in Hm. rewrite H1 in Hm. specialize (Hm eq_refl ltac:(discriminate) H2).
    change (String c1 "" +:+ String "." (String c2 post))
      with (String c1 (String "." (String c2 post))) in *.
    cbn [re_search_version].
    destruct (match_version (String c1 (String "." (String c2 post)))); congruence.
  - rewrite append_cons. simpl.
    destruct (match_version _); [discriminate|exact IH].
Qed.

Lemma re_search_version_none (s : string) :
  re_search_version s = None
  <-> forall pre c1 c2 post,
        s = pre +:+ String c1 (String "." (String c2 post)) ->
        is_digit c1 && is_digit c2 = false.
Proof.
  split.
  - intros H pre c1 c2 post ->.
    destruct (is_digit c1) eqn:H1; [|reflexivity].
    destruct (is_digit c2) eqn:H2; [|reflexivity].
    exfalso. now apply (re_search_version_some pre c1 c2 post).
  - intros H. destruct (re_search_version s) as [v|] eqn:E; [|reflexivity].
    exfalso.
    destruct (re_search_version_parts s v E)
      as (a & b & pre & post & -> & -> & Ha & Hb & Da & Db & _).
    destruct (last_digit a Da Ha) as (a' & c1 & -> & H1).
    destruct b as [|c2 b]; [congruence|].
    simpl in Db. apply andb_prop in Db. destruct Db as [H2 _].
    specialize (H (pre +:+ a') c1 c2 (b +:+ post)).
    rewrite H1, H2 in H. discriminate H.
    rewrite !append_assoc. reflexivity.
Qed.

(** X5.  When the output of [ldd] is ASCII text, the search finds no version
    exactly when the output has no digit followed by a dot and a digit. *)
Theorem re_search_version_none_iff (s : string) :
  isascii s = true ->
  (re_search_version s = None
   <-> forall pre c1 c2 post,
         s = pre +:+ String c1 (String "." (String c2 post)) ->
         is_digit c1 && is_digit c2 = false).
Proof. intros _. apply re_search_version_none. Qed.

Lemma re_search_version_none_iff_witness :
  isascii "musl libc (x86_64) Version 1" = true
  /\ (re_search_version "musl libc (x86_64) Version 1" = None
      <-> forall pre c1 c2 post,
            "musl libc (x86_64) Version 1"
            = pre +:+ String c1 (String "." (String c2 post)) ->
            is_digit c1 && is_digit c2 = false).
Proof.
  split; [reflexivity|].
  apply (re_search_version_none_iff "musl libc (x86_64) Version 1"). reflexivity.
Defined.

(** ** What the permission pass leaves alone *)

Lemma quiet_refl (w : world) : quiet w w.
Proof. reflexivity. Qed.

Lemma quiet_trans (w1 w2 w3 : world) : quiet w1 w2 -> quiet w2 w3 -> quiet w1 w3.
Proof. unfold quiet. congruence. Qed.

Lemma fix_one_quiet (root file : string) (w : world) :
  quiet w (fst (fix_one root file w)).
Proof.
  unfold fix_one. destruct (is_shared_lib _ _); [|reflexivity].
  rewrite bind_unfold. unfold os_stat_mode.
  destruct (stat_node true w (join root file)) as [[m data| |]|e]; try reflexivity;
    unfold os_chmod;
    (destruct (locate true w (join root file)) as [l|]; [|reflexivity]);
    destruct (node_at (files w) l) as [[| |]|]; reflexivity.
Qed.

Section Pass.

Variable R : world -> world -> Prop.
Hypothesis R_refl : forall w, R w w.
Hypothesis R_trans : forall w1 w2 w3, R w1 w2 -> R w2 w3 -> R w1 w3.
Hypothesis R_fix_one : forall root file w, R w (fst (fix_one root file w)).

Lemma fix_walk_inv (depth : nat) :
  forall top w, R w (fst (fix_walk depth top w)).
Proof.
  induction depth as [|depth IH]; intros top w; [apply R_refl|].
  unfold fix_walk. rewrite os_walk_S.
  destruct (os_listdir top w) as [w0 [names|e]]; [|apply R_refl].
  cbv zeta. apply (bind_inv_R R R_trans).
  - apply (for_each_inv R R_refl R_trans). intros x w1 _. apply R_fix_one.
  - intros [] w1. apply (fold_each_inv R R_refl R_trans).
    intros dn [] w2 _. rewrite bind_ask.
    destruct (islink w2 (join top dn)); [apply R_refl|apply IH].
Qed.

Lemma fix_permissions_inv (depth : nat) (self : build_ext) (w : world) :
  R w (fst (_fix_file_permissions depth self w)).
Proof.
  unfold _fix_file_permissions.
  apply (for_each_inv R R_refl R_trans). intros ext w1 _.
  rewrite !bind_ask.
  destruct (path_exists w1 (extdir_of self w1 ext)); [|apply R_refl].
  apply fix_walk_inv.
Qed.

End Pass.

(** X6.  Whatever the permission pass returns, it prints nothing, keeps the
    working directory, creates and removes no entry, changes no link, no
    directory and no contents: an entry differs afterwards only when it is a
    regular file, and then only in its permission bits, which are the old
    ones with [0o755] added. *)
Theorem fix_permissions_changes_only_bits (depth : nat) (self : build_ext) (w : world) :
  let w' := fst (_fix_file_permissions depth self w) in
  cwd w' = cwd w /\ stdout w' = stdout w
  /\ forall k,
       match files w !! k with
       | Some (File m data) =>
           files w' !! k = Some (File m data)
           \/ files w' !! k = Some (File (with_755 m) data)
       | other => files w' !! k = other
       end.
Proof.
  cbv zeta.
  destruct (fix_permissions_inv perm_step perm_step_refl perm_step_trans
              fix_one_perm_step depth self w) as [Hc Ht].
  pose proof (fix_permissions_inv quiet quiet_refl quiet_trans
                fix_one_quiet depth self w) as Hq.
  split; [exact Hc|]. split; [exact Hq|]. intros k.
  destruct (Ht k) as [E | (m & data & E & E')].
  - rewrite E. destruct (files w !! k) as [[m data| |]|]; auto.
  - rewrite E. now right.
Qed.

(** ** The report of the installed files *)

Lemma os_listdir_pure (p : string) (w : world) : fst (os_listdir p w) = w.
Proof.
  unfold os_listdir. destruct (locate true w p) as [l|]; [|reflexivity].
  destruct (node_at (files w) l) as [[| |]|]; reflexivity.
Qed.

Lemma same_refl (w : world) : (fun w w' : world => w' = w) w w.
Proof. reflexivity. Qed.

Lemma same_trans (w1 w2 w3 : world) :
  (fun w w' : world => w' = w) w1 w2 -> (fun w w' : world => w' = w) w2 w3 ->
  (fun w w' : world => w' = w) w1 w3.
Proof. congruence. Qed.

(** The walk that collects the installed files changes nothing. *)
Lemma record_walk_pure (extdir : string) (depth : nat) :
  forall top acc w,
    fst (os_walk depth top (fun root dirs files installed_files =>
           fold_each files (fun file installed_files =>
             r ← (fun w => (w, relpath (cwd w) (join root file) extdir));
             mret (installed_files ++ [r])) installed_files) acc w) = w.
Proof.
  induction depth as [|depth IH]; intros top acc w; [reflexivity|].
  rewrite os_walk_S.
  destruct (os_listdir top w) as [w0 [names|e]]; [|reflexivity].
  cbv zeta.
  apply (bind_inv_R (fun w w' : world => w' = w) same_trans).
  - apply (fold_each_inv (fun w w' : world => w' = w) same_refl same_trans).
    intros x a w1 _. rewrite bind_unfold.
    destruct (relpath (cwd w1) (join top x) extdir); reflexivity.
  - intros a w1. apply (fold_each_inv (fun w w' : world => w' = w) same_refl same_trans).
    intros dn a2 w2 _. rewrite bind_ask.
    destruct (islink w2 (join top dn)); [reflexivity|apply IH].
Qed.

Lemma for_each_print (g : string -> string) (l : list string) :
  forall w,
    for_each l (fun x => print (g x)) w
    = (mkWorld (files w) (cwd w) (stdout w ++ List.map g l) (rank w), Ok tt).
Proof.
  induction l as [|x l IH]; intros w.
  - simpl. rewrite app_nil_r. now destruct w.
  - simpl for_each. rewrite bind_unfold. unfold print at 1. rewrite IH. simpl.
    now rewrite <- app_assoc.
Qed.

Lemma insert_by_ascending (x : string) (l : list string) :
  ascending l -> ascending (insert_by String.leb x l).
Proof.
  unfold ascending. induction l as [|y l IH]; intros Hs; simpl.
  - repeat constructor.
  - destruct (String.leb x y) eqn:E.
    + constructor; [exact Hs|]. now constructor.
    + inversion Hs as [|? ? Hl Hh]; subst. constructor; [now apply IH|].
      assert (Hyx : String.leb y x = true)
        by (destruct (String.leb_total x y); congruence).
      destruct l as [|z l]; simpl.
      * now constructor.
      * inversion Hh; subst. destruct (String.leb x z); now constructor.
Qed.

Lemma sorted_ascending (l : list string) : ascending (sorted l).
Proof.
  unfold sorted, sort_by. induction l as [|x l IH]; simpl.
  - constructor.
  - now apply insert_by_ascending.
Qed.

Lemma record_installed_files_run (depth : nat) (extdir : string) (w : world) :
  (exists e, _record_installed_files depth extdir w = (w, Raise e))
  \/ exists installed_files,
       _record_installed_files depth extdir w
       = (mkWorld (files w) (cwd w) (stdout w ++ installed_report installed_files)
            (rank w), Ok tt).
Proof.
  unfold _record_installed_files. rewrite bind_unfold.
  pose proof (record_walk_pure extdir depth extdir [] w) as Hp.
  destruct (os_walk depth extdir _ [] w) as [w1 [installed|e]]; simpl in Hp; subst w1.
  - right. exists installed. rewrite bind_unfold. unfold print at 1.
    rewrite for_each_print. simpl. now rewrite <- app_assoc.
  - left. now exists e.
Qed.

(** X7.  [_record_installed_files] changes nothing in the file system.  When
    it returns, it has printed one header with a number and then exactly that
    many lines, one for each path it collected and in ascending order; when
    it raises, it has printed nothing. *)
Theorem record_installed_files_report (depth : nat) (extdir : string) (w : world) :
  let r := _record_installed_files depth extdir w in
  files (fst r) = files w /\ cwd (fst r) = cwd w
  /\ match snd r with
     | Ok _ =>
         exists paths,
           ascending paths
           /\ stdout (fst r)
              = stdout w
                ++ ("Installed " +:+ str_of_nat (List.length paths) +:+ " files:")
                   :: List.map (fun file => "  - " +:+ file) paths
     | Raise _ => stdout (fst r) = stdout w
     end.
Proof.
  cbv zeta.
  destruct (record_installed_files_run depth extdir w) as [[e ->] | [installed ->]].
  - now repeat split.
  - simpl. split; [reflexivity|]. split; [reflexivity|].
    exists (sorted installed). split; [apply sorted_ascending|].
    unfold installed_report, sorted.
    now rewrite (Permutation_length (sort_by_perm String.leb installed)).
Qed.

(** ** The validator: what it reads and when it passes *)

Lemma collect_errors_pure (here : string) (w : world) :
  fst (collect_errors here w) = w.
Proof.
  unfold collect_errors. rewrite bind_ask.
  destruct (path_exists w (join (join here "install") "lib")) eqn:Ex; cbn [negb].
  - rewrite bind_unfold. rewrite bind_unfold.
    pose proof (os_listdir_pure (join (join here "install") "lib") w) as Hp.
    destruct (os_listdir (join (join here "install") "lib") w) as [w1 [items|e]];
      simpl in Hp; subst w1; [|reflexivity].
    destruct (is_nil items); cbv [mret M_ret ret]; rewrite bind_ask, Ex, bind_ask;
      destruct (negb _); reflexivity.
  - rewrite bind_unfold. cbv [mret M_ret ret]. rewrite bind_ask, Ex. reflexivity.
Qed.

Lemma check_prerequisites_pure (here : string) (w : world) :
  fst (check_prerequisites here w) = w.
Proof.
  unfold check_prerequisites. rewrite bind_unfold.
  pose proof (collect_errors_pure here w) as Hp.
  destruct (collect_errors here w) as [w1 [errors|e]]; simpl in Hp; subst w1;
    [|reflexivity].
  destruct (negb (is_nil errors)); reflexivity.
Qed.

(** X8.  [check_prerequisites] only reads: whatever it returns or raises, the
    world is as before.  Its invocation at module level changes no file and
    prints either nothing or exactly two lines, the warning with the message
    of the [RuntimeError] and the notice that setup continues. *)
Theorem prerequisite_check_reads_only (here : string) (w : world) :
  fst (check_prerequisites here w) = w
  /\ files (fst (module_check here w)) = files w
  /\ cwd (fst (module_check here w)) = cwd w
  /\ (stdout (fst (module_check here w)) = stdout w
      \/ exists msg,
           snd (check_prerequisites here w) = Raise (RuntimeError msg)
           /\ stdout (fst (module_check here w))
              = stdout w
                ++ ["Warning: " +:+ msg;
                    "Continuing setup, but installation may fail if libraries are missing."]).
Proof.
  pose proof (check_prerequisites_pure here w) as Hp.
  split; [exact Hp|].
  unfold module_check, try_except.
  destruct (check_prerequisites here w) as [w1 [[]|e]]; simpl in Hp; subst w1.
  - simpl. auto.
  - destruct e; simpl; auto.
    do 2 (split; [reflexivity|]). right. exists msg. split; [reflexivity|].
    now rewrite <- app_assoc.
Qed.

(** X9.  When [install/lib] is a directory with at least one entry, and some
    entry below it has a known library suffix, [check_prerequisites] returns
    normally, and the module-level invocation prints nothing. *)
Theorem prerequisites_met (here : string) (w : world) :
  isdir w (lib_dir_of here) = true ->
  (exists items, os_listdir (lib_dir_of here) w = (w, Ok items) /\ items <> []) ->
  has_library w (lib_dir_of here) = true ->
  check_prerequisites here w = (w, Ok tt) /\ module_check here w = (w, Ok tt).
Proof.
  intros Hd (items & Hl & Hne) Hh.
  assert (Hc : check_prerequisites here w = (w, Ok tt)).
  { unfold check_prerequisites, collect_errors. fold (lib_dir_of here).
    cbv [mbind M_bind bind ask mret M_ret ret].
    rewrite (isdir_exists _ _ Hd). cbn [negb]. rewrite Hl.
    destruct items as [|i items]; [congruence|]. cbn [is_nil].
    rewrite (isdir_exists _ _ Hd).
    unfold has_library in Hh. rewrite Hh. reflexivity. }
  split; [exact Hc|]. unfold module_check, try_except. now rewrite Hc.
Qed.

Lemma prerequisites_met_witness :
  isdir fresh_world (lib_dir_of "/p") = true
  /\ (exists items,
        os_listdir (lib_dir_of "/p") fresh_world = (fresh_world, Ok items)
        /\ items <> [])
  /\ has_library fresh_world (lib_dir_of "/p") = true
  /\ check_prerequisites "/p" fresh_world = (fresh_world, Ok tt)
  /\ module_check "/p" fresh_world = (fresh_world, Ok tt).
Proof.
  assert (H1 : isdir fresh_world (lib_dir_of "/p") = true) by (vm_compute; reflexivity).
  assert (H2 : exists items,
             os_listdir (lib_dir_of "/p") fresh_world = (fresh_world, Ok items)
             /\ items <> []).
  { exists ["libfoo.so"; "libfoo.so.1"]. split; [vm_compute; reflexivity|discriminate]. }
  assert (H3 : has_library fresh_world (lib_dir_of "/p") = true)
    by (vm_compute; reflexivity).
  split; [exact H1|]. split; [exact H2|]. split; [exact H3|].
  exact (prerequisites_met "/p" fresh_world H1 H2 H3).
Defined.

(** X10.  When [install/lib] is, or leads to, a regular file,
    [check_prerequisites] raises [NotADirectoryError] from listing it; the
    module-level invocation handles [RuntimeError] only, so the exception
    leaves it and nothing is printed. *)
Theorem prerequisite_check_on_a_file (here : string) (w : world) (m : Z)
    (data : string) :
  stat_node true w (lib_dir_of here) = Ok (File m data) ->
  check_prerequisites here w = (w, Raise NotADirectoryError)
  /\ module_check here w = (w, Raise NotADirectoryError).
Proof.
  intros Hs.
  assert (Hc : check_prerequisites here w = (w, Raise NotADirectoryError)).
  { unfold check_prerequisites, collect_errors. fold (lib_dir_of here).
    cbv [mbind M_bind bind ask mret M_ret ret].
    unfold path_exists. rewrite Hs. cbn [is_ok negb].
    unfold os_listdir. unfold stat_node in Hs.
    destruct (locate true w (lib_dir_of here)) as [l|]; [|discriminate].
    destruct (node_at (files w) l) as [[| |]|]; try discriminate. reflexivity. }
  split; [exact Hc|]. unfold module_check, try_except. now rewrite Hc.
Qed.

Lemma prerequisite_check_on_a_file_witness :
  stat_node true lib_is_a_file_world (lib_dir_of "/p") = Ok (File 420 "")
  /\ check_prerequisites "/p" lib_is_a_file_world
     = (lib_is_a_file_world, Raise NotADirectoryError)
  /\ module_check "/p" lib_is_a_file_world
     = (lib_is_a_file_world, Raise NotADirectoryError).
Proof.
  assert (H : stat_node true lib_is_a_file_world (lib_dir_of "/p") = Ok (File 420 ""))
    by (vm_compute; reflexivity).
  split; [exact H|].
  exact (prerequisite_check_on_a_file "/p" lib_is_a_file_world 420 "" H).
Defined.

(** ** Library names: the two tests of the script *)

Lemma prefix_append (a b : string) : String.prefix a (a +:+ b) = true.
Proof.
  induction a as [|c a IH]; [now destruct b|].
  rewrite append_cons. cbn [String.prefix].
  destruct (ascii_dec c c); [exact IH|congruence].
Qed.

Lemma str_in_append (pre sub post : string) :
  str_in sub (pre +:+ sub +:+ post) = true.
Proof.
  induction pre as [|c pre IH].
  - change ("" +:+ sub +:+ post) with (sub +:+ post).
    pose proof (prefix_append sub post) as Hp.
    destruct (sub +:+ post); cbn [str_in]; now rewrite Hp.
  - rewrite append_cons. simpl. rewrite IH. apply orb_true_r.
Qed.

Lemma length_append (a b : string) :
  String.length (a +:+ b) = String.length a + String.length b.
Proof.
  induction a as [|c a IH]; [reflexivity|]. rewrite append_cons. simpl. now rewrite IH.
Qed.

Lemma digit_cases (c : ascii) :
  is_digit c = true ->
  In c ["0"; "1"; "2"; "3"; "4"; "5"; "6"; "7"; "8"; "9"]%char.
Proof.
  destruct c as [[] [] [] [] [] [] [] []]; vm_compute; intros H;
    try discriminate H; tauto.
Qed.

Lemma last_dot_digits (s : string) : all_digits s = true -> last_dot s = None.
Proof.
  induction s as [|c s IH]; [reflexivity|].
  simpl. intros H. apply andb_prop in H. destruct H as [Hc Hs].
  rewrite (IH Hs). apply digit_cases in Hc. simpl in Hc.
  repeat (destruct Hc as [<-|Hc]; [reflexivity|]). contradiction.
Qed.

Lemma last_dot_append (pre e : string) :
  last_dot e = None -> last_dot (pre +:+ "." +:+ e) = Some ("." +:+ e).
Proof.
  intros He. induction pre as [|c pre IH].
  - change ("" +:+ "." +:+ e) with (String "." e). simpl. now rewrite He.
  - rewrite append_cons. simpl. now rewrite IH.
Qed.

(** X11.  A library with a version after [.so], such as [libfoo.so.1], is
    treated in two ways: the permission pass takes it for a shared library,
    while for [check_prerequisites] its suffix is the dot with the last
    number, which is not a library extension, so it does not count as a
    library file. *)
Theorem versioned_library_name (root base ver : string) :
  ver <> "" -> all_digits ver = true ->
  let file := base +:+ ".so." +:+ ver in
  is_shared_lib (join root file) file = true
  /\ suffix file = "." +:+ ver
  /\ has_library_suffix file = false.
Proof.
  intros Hne Hd file.
  assert (Hs : suffix file = "." +:+ ver).
  { unfold suffix, file.
    change (base +:+ ".so." +:+ ver) with (base +:+ ".so" +:+ "." +:+ ver).
    rewrite <- (append_assoc base ".so").
    rewrite (last_dot_append _ _ (last_dot_digits _ Hd)).
    rewrite !length_append.
    change (String.length ".so") with 3. change (String.length ".") with 1.
    destruct ver as [|c ver]; [congruence|].
    change (String.length (String c ver)) with (S (String.length ver)).
    replace (0 <? _)%nat with true by (symmetry; apply Nat.ltb_lt; lia).
    replace (_ <? _)%nat with true by (symmetry; apply Nat.ltb_lt; lia).
    reflexivity. }
  split; [|split; [exact Hs|]].
  - unfold is_shared_lib, file. rewrite (str_in_append base ".so." ver).
    now rewrite !orb_true_r.
  - unfold has_library_suffix. rewrite Hs.
    destruct ver as [|c ver]; [congruence|].
    simpl in Hd. apply andb_prop in Hd. destruct Hd as [Hc _].
    apply digit_cases in Hc. simpl in Hc.
    repeat (destruct Hc as [<-|Hc]; [reflexivity|]). contradiction.
Qed.

Lemma versioned_library_name_witness :
  "1" <> "" /\ all_digits "1" = true
  /\ is_shared_lib (join "/d" "libfoo.so.1") "libfoo.so.1" = true
  /\ suffix "libfoo.so.1" = ".1"
  /\ has_library_suffix "libfoo.so.1" = false.
Proof.
  split; [discriminate|]. split; [reflexivity|].
  exact (versioned_library_name "/d" "libfoo" "1" ltac:(discriminate) eq_refl).
Defined.

(** ** The extension object *)

(** X12.  The library directory of a [PrebuiltExtension] made while the
    working directory is absolute is an absolute, normalised path, whatever
    text was given: its names are proper names (not empty, no separator, no
    [.] and no [..]), and it leads where the given text leads from that
    working directory. *)
Theorem extension_lib_dir_is_absolute (cwd name dir : string) :
  isabs cwd = true ->
  let ext := PrebuiltExtension_init cwd name dir in
  isabs (lib_dir ext) = true
  /\ Forall proper (comps (lib_dir ext))
  /\ forall cwd', path_comps cwd' (lib_dir ext) = abs_list cwd dir.
Proof.
  intros Hc ext. unfold ext, PrebuiltExtension_init. cbn [lib_dir].
  split; [now apply isabs_abspath|]. split; [now apply abs_list_proper|].
  intros cwd'. unfold path_comps.
  rewrite join_absolute by now apply isabs_abspath. reflexivity.
Qed.

Lemma extension_lib_dir_is_absolute_witness :
  isabs "/p" = true
  /\ isabs (lib_dir the_extension) = true
  /\ Forall proper (comps (lib_dir the_extension))
  /\ forall cwd', path_comps cwd' (lib_dir the_extension) = abs_list "/p" "install/lib".
Proof.
  split; [reflexivity|].
  exact (extension_lib_dir_is_absolute "/p" "pyorbbecsdk" "install/lib" eq_refl).
Defined.

(** ** The link branch: what it leaves at the destination *)

(** Putting an entry at the free place a path leads to does not change where
    the path leads. *)
Lemma walk_insert_free (fs : store) (l : loc) (nd : node) :
  node_at fs l = None ->
  forall n rest cur,
    walk n fs false cur rest = Ok l ->
    walk n (<[l := nd]> fs) false cur rest = Ok l.
Proof.
  intros Hnone.
  assert (Hstep : forall cur c,
            cur ++ [c] <> l ->
            node_at (<[l := nd]> fs) (cur ++ [c]) = node_at fs (cur ++ [c])).
  { intros cur c Hne. unfold node_at.
    destruct (cur ++ [c]) eqn:E; [now destruct cur|].
    now rewrite lookup_insert_ne. }
  assert (Hat : forall cur c,
            cur ++ [c] = l -> node_at (<[l := nd]> fs) (cur ++ [c]) = Some nd).
  { intros cur c <-. unfold node_at.
    destruct (cur ++ [c]) eqn:E; [now destruct cur|].
    now rewrite lookup_insert_eq. }
  induction n as [|n IHn]; induction rest as [|c rest IH]; intros cur Hw;
    rewrite ?walk_nil, ?walk_cons in *; try exact Hw.
  - destruct (String.eqb c "" || String.eqb c "."); [eauto|].
    destruct (String.eqb c ".."); [eauto|].
    destruct (decide (cur ++ [c] = l)) as [E|NE].
    + rewrite (Hat _ _ E). rewrite E, Hnone in Hw.
      destruct rest; [|discriminate]. cbn [is_nil] in *.
      destruct nd; cbn [andb negb]; rewrite ?walk_nil; congruence.
    + rewrite (Hstep _ _ NE).
      destruct (node_at fs (cur ++ [c])) as [[m d|t|]|]; eauto.
  - destruct (String.eqb c "" || String.eqb c "."); [eauto|].
    destruct (String.eqb c ".."); [eauto|].
    destruct (decide (cur ++ [c] = l)) as [E|NE].
    + rewrite (Hat _ _ E). rewrite E, Hnone in Hw.
      destruct rest; [|discriminate]. cbn [is_nil] in *.
      destruct nd; cbn [andb negb]; rewrite ?walk_nil; congruence.
    + rewrite (Hstep _ _ NE).
      destruct (node_at fs (cur ++ [c])) as [[m d|t|]|]; eauto.
      destruct (is_nil rest && negb false); eauto.
Qed.

Lemma symlink_then_print (target p line : string) (w w' : world) :
  (os_symlink target p ;; print line) w = (w', Ok tt) ->
  stat_node false w' p = Ok (Link target) /\ target <> "".
Proof.
  intros H. apply bind_ok_inv in H. destruct H as (w1 & [] & Hs & Hp).
  unfold os_symlink in Hs.
  destruct (String.eqb_spec target "") as [|Hne]; [discriminate|].
  destruct (PATH_MAX <=? String.length target)%nat; [discriminate|].
  destruct (locate false w p) as [l|] eqn:Hl; [|discriminate].
  destruct (node_at (files w) l) eqn:Hn; [discriminate|].
  injection Hs as <-. unfold print in Hp. injection Hp as <-.
  split; [|exact Hne].
  unfold stat_node, locate in *. cbn [files cwd set_files].
  rewrite (walk_insert_free _ _ (Link target) Hn _ _ _ Hl).
  unfold node_at. destruct l; [discriminate|]. now rewrite lookup_insert_eq.
Qed.

(** X13.  Whenever the link branch of the replicator returns, the
    destination path is a symbolic link with a target that is not empty:
    a link of the source is never replicated as a copy of what it leads to,
    also when an entry had to be removed at the destination first or when the
    relative link could not be made. *)
Theorem copy_link_makes_a_link (source_path destination_path : string)
    (w w' : world) :
  copy_link source_path destination_path w = (w', Ok tt) ->
  islink w' destination_path = true
  /\ exists target,
       stat_node false w' destination_path = Ok (Link target) /\ target <> "".
Proof.
  intros H.
  assert (Hx : exists target,
             stat_node false w' destination_path = Ok (Link target) /\ target <> "").
  { unfold copy_link in H.
    apply bind_ok_inv in H. destruct H as (w1 & t0 & _ & H).
    apply bind_ok_inv in H. destruct H as (w2 & [] & _ & H).
    unfold try_except in H.
    match type of H with
    | match ?b w2 with _ => _ end = _ => destruct (b w2) as [w3 [[]|e]] eqn:Hb
    end.
    - injection H as <-.
      apply bind_ok_inv in Hb. destruct Hb as (w4 & rel & Hr & Hb).
      injection Hr as <- _.
      eexists. eapply symlink_then_print. exact Hb.
    - destruct (is_OSError e || is_ValueError e); [|discriminate].
      eexists. eapply symlink_then_print. exact H. }
  split; [|exact Hx]. destruct Hx as (target & Hs & _).
  unfold islink. now rewrite Hs.
Qed.

Lemma copy_link_makes_a_link_witness :
  copy_link "/s/liba.so" "/d/liba.so" dir_collision_world
  = (fst (copy_link "/s/liba.so" "/d/liba.so" dir_collision_world), Ok tt)
  /\ islink (fst (copy_link "/s/liba.so" "/d/liba.so" dir_collision_world))
       "/d/liba.so" = true
  /\ exists target,
       stat_node false (fst (copy_link "/s/liba.so" "/d/liba.so" dir_collision_world))
         "/d/liba.so" = Ok (Link target)
       /\ target <> "".
Proof.
  assert (H : copy_link "/s/liba.so" "/d/liba.so" dir_collision_world
              = (fst (copy_link "/s/liba.so" "/d/liba.so" dir_collision_world), Ok tt))
    by (vm_compute; reflexivity).
  split; [exact H|].
  exact (copy_link_makes_a_link "/s/liba.so" "/d/liba.so" dir_collision_world _ H).
Defined.

(** ** The replicator: order of its steps, and the file branch *)

(** X15.  [copy_all_files] creates the destination directory before it looks
    at the source: when the source directory does not exist (its parent being
    a real directory), it raises [FileNotFoundError], and the destination
    directory, with its missing parents, has been created and stays. *)
Theorem copy_all_files_missing_source (depth : nat)
    (source_dir destination_dir : string) (w : world) (d s : loc) (c : string) :
  path_comps (cwd w) destination_dir = d -> Forall proper d ->
  dirs_or_free (files w) [] d ->
  path_comps (cwd w) source_dir = s ++ [c] -> Forall proper (s ++ [c]) ->
  dirs_along (files w) [] s ->
  files w !! (s ++ [c]) = None ->
  ~ (s ++ [c]) `prefix_of` d ->
  exists w',
    copy_all_files (S depth) source_dir destination_dir w = (w', Raise FileNotFoundError)
    /\ node_at (files w') d = Some Dir
    /\ cwd w' = cwd w /\ stdout w' = stdout w
    /\ forall k, files w' !! k = files w !! k
                 \/ (k `prefix_of` d /\ files w !! k = None /\ files w' !! k = Some Dir).
Proof.
  intros Hd Hpd Hfree Hs Hps Hds Hnone Hnp.
  destruct (makedirs_go_spec d [] (files w) (List.Forall_nil proper) Hpd I Hfree)
    as (fs' & Hgo & Hdirs & Hframe).
  simpl in Hdirs, Hframe.
  exists (set_files w fs').
  assert (Hm : os_makedirs destination_dir w = (set_files w fs', Ok tt)).
  { unfold os_makedirs. now rewrite Hd, Hgo. }
  assert (Hds' : dirs_along fs' [] s).
  { apply (dirs_along_agree (files w)); [|exact Hds].
    intros p Hp Hne. simpl in Hp.
    pose proof (dirs_along_prefix _ _ [] p Hds Hp) as Hdir.
    assert (Hlen : @List.length string [] < List.length p)
      by (destruct p; [congruence|simpl; lia]).
    specialize (Hdir Hlen).
    destruct (Hframe p) as [E | (_ & _ & E & _)]; [exact E|].
    destruct p; [congruence|]. simpl in Hdir. congruence. }
  assert (Hn' : node_at fs' (s ++ [c]) = None).
  { rewrite node_at_snoc.
    destruct (Hframe (s ++ [c])) as [E | (_ & Hp & _)]; [congruence|contradiction]. }
  apply Forall_app in Hps. destruct Hps as [Hps Hpc].
  apply Forall_inv in Hpc.
  assert (Hl : os_listdir source_dir (set_files w fs')
               = (set_files w fs', Raise FileNotFoundError)).
  { unfold os_listdir, locate. cbn [set_files files cwd]. rewrite Hs.
    rewrite (walk_dirs_last _ fs' true s c Hps Hds' Hpc) by (intros t; congruence).
    now rewrite Hn'. }
  split.
  { cbn [copy_all_files]. rewrite bind_unfold, Hm, bind_unfold, Hl. reflexivity. }
  split; [now apply dirs_along_last|].
  split; [reflexivity|]. split; [reflexivity|].
  intros k. cbn [set_files files].
  destruct (Hframe k) as [E | (_ & Hp & E & E')]; [now left|right; auto].
Qed.

Lemma copy_all_files_missing_source_witness :
  exists w',
    copy_all_files 1 "/gone" "/out/lib" no_source_world = (w', Raise FileNotFoundError)
    /\ node_at (files w') ["out"; "lib"] = Some Dir
    /\ cwd w' = cwd no_source_world /\ stdout w' = stdout no_source_world
    /\ forall k, files w' !! k = files no_source_world !! k
                 \/ (k `prefix_of` ["out"; "lib"]
                     /\ files no_source_world !! k = None /\ files w' !! k = Some Dir).
Proof.
  apply (copy_all_files_missing_source 0 "/gone" "/out/lib" no_source_world
           ["out"; "lib"] [] "gone").
  - reflexivity.
  - repeat constructor; discriminate.
  - repeat split; right; reflexivity.
  - reflexivity.
  - repeat constructor; discriminate.
  - exact I.
  - reflexivity.
  - intros [k Hk]. discriminate Hk.
Defined.

Lemma copy_entry_file_run (recurse : string -> string -> M unit)
    (source_dir destination_dir item : string) (w : world) (d ls : loc)
    (m : Z) (data : string) :
  path_comps (cwd w) destination_dir = d -> Forall proper d ->
  dirs_along (files w) [] d -> proper item ->
  files w !! (d ++ [item]) = None ->
  locate false w (join source_dir item) = Ok ls ->
  node_at (files w) ls = Some (File m data) ->
  copy_entry recurse source_dir destination_dir item w
  = (mkWorld (<[d ++ [item] := File m data]> (files w)) (cwd w)
       (stdout w ++ ["Copied: " +:+ join source_dir item +:+ " -> "
                     +:+ join destination_dir item])
       (rank w),
     Ok tt).
Proof.
  intros Hd Hpd Hdd Hx Hfree Hls Hns.
  assert (Hn : node_at (files w) (d ++ [item]) = None) by now rewrite node_at_snoc.
  assert (Hl : locate true w (join destination_dir item) = Ok (d ++ [item])).
  { apply locate_child; try assumption. intros t Ht. congruence. }
  assert (Hlt : locate true w (join source_dir item) = Ok ls).
  { apply (stat_node_follow_irrelevant _ _ _ _ Hls Hns). discriminate. }
  destruct (islink_file _ _ _ _ _ Hls Hns) as [Hli _].
  assert (Hsd : isdir w (join source_dir item) = false).
  { unfold isdir, stat_node. now rewrite Hlt, Hns. }
  assert (Hdd' : isdir w (join destination_dir item) = false).
  { unfold isdir, stat_node. now rewrite Hl, Hn. }
  unfold copy_entry. rewrite bind_ask, Hli, bind_ask, Hsd, bind_unfold.
  unfold shutil_copy2. rewrite Hdd', Hlt, Hl, Hns.
  rewrite bool_decide_eq_false_2 by (intros ->; congruence).
  rewrite Hn. reflexivity.
Qed.

(** X16.  The file branch: whenever the replication of a regular file of the
    source directory that is not a link, under a free name of a destination
    that is a real directory, returns normally, the file has arrived with the
    same contents and the same permission bits under the same name, one line
    reports it, and nothing else has changed. *)
Theorem copy_entry_regular_file (recurse : string -> string -> M unit)
    (source_dir destination_dir item : string) (w w' : world) (d ls : loc)
    (m : Z) (data : string) :
  copy_entry recurse source_dir destination_dir item w = (w', Ok tt) ->
  path_comps (cwd w) destination_dir = d -> Forall proper d ->
  dirs_along (files w) [] d -> proper item ->
  files w !! (d ++ [item]) = None ->
  locate false w (join source_dir item) = Ok ls ->
  node_at (files w) ls = Some (File m data) ->
  w' = mkWorld (<[d ++ [item] := File m data]> (files w)) (cwd w)
         (stdout w ++ ["Copied: " +:+ join source_dir item +:+ " -> "
                       +:+ join destination_dir item])
         (rank w).
Proof.
  intros Hrun Hd Hpd Hdd Hx Hfree Hls Hns.
  rewrite (copy_entry_file_run recurse source_dir destination_dir item w d ls m data)
    in Hrun by assumption.
  now injection Hrun as <-.
Qed.

Lemma copy_entry_regular_file_witness :
  copy_entry (copy_all_files 10) "/p/install/lib" "/p/build/lib" "libfoo.so.1" fresh_world
  = (fst (copy_entry (copy_all_files 10) "/p/install/lib" "/p/build/lib" "libfoo.so.1"
            fresh_world), Ok tt)
  /\ fst (copy_entry (copy_all_files 10) "/p/install/lib" "/p/build/lib" "libfoo.so.1"
            fresh_world)
     = mkWorld (<[["p"; "build"; "lib"; "libfoo.so.1"] := File 420 "ELF"]>
                  (files fresh_world))
         (cwd fresh_world)
         (stdout fresh_world
          ++ ["Copied: " +:+ join "/p/install/lib" "libfoo.so.1" +:+ " -> "
              +:+ join "/p/build/lib" "libfoo.so.1"])
         (rank fresh_world).
Proof.
  assert (H : copy_entry (copy_all_files 10) "/p/install/lib" "/p/build/lib"
                "libfoo.so.1" fresh_world
              = (fst (copy_entry (copy_all_files 10) "/p/install/lib" "/p/build/lib"
                        "libfoo.so.1" fresh_world), Ok tt))
    by (vm_compute; reflexivity).
  split; [exact H|].
  apply (copy_entry_regular_file (copy_all_files 10) "/p/install/lib" "/p/build/lib"
           "libfoo.so.1" fresh_world _ ["p"; "build"; "lib"]
           ["p"; "install"; "lib"; "libfoo.so.1"] 420 "ELF" H).
  - reflexivity.
  - repeat constructor; discriminate.
  - repeat split; reflexivity.
  - apply properb_spec. reflexivity.
  - reflexivity.
  - vm_compute. reflexivity.
  - reflexivity.
Defined.

(** ** Text files *)

Lemma universal_newlines_no_cr (t : text) : ~ In 13%N (universal_newlines t).
Proof.
  assert (H : forall n (t : text), List.length t <= n -> ~ In 13%N (universal_newlines t)).
  { induction n as [|n IH]; intros [|c r] Hn; simpl in *; try tauto; try lia.
    destruct (N.eqb_spec c 13) as [->|Hc].
    - intros [E|Hin]; [discriminate|].
      destruct r as [|c' r']; [exact Hin|].
      destruct (c' =? 10)%N; revert Hin; apply IH; simpl in *; lia.
    - intros [E|Hin]; [congruence|]. revert Hin. apply IH. lia. }
  apply (H (List.length t)). lia.
Qed.

Lemma dirs_along_removelast (fs : store) (cur : loc) :
  dirs_along fs [] cur -> dirs_along fs [] (removelast cur).
Proof.
  induction cur as [|x l' _] using rev_ind; [simpl; tauto|].
  rewrite removelast_last. intros H. now apply dirs_along_app in H.
Qed.

(** A path followed to its end does not lead to a link. *)
Lemma walk_follow_no_link (fs : store) (n : nat) :
  forall (rest : list string) (cur l : loc),
    dirs_along fs [] cur ->
    walk n fs true cur rest = Ok l ->
    forall t, node_at fs l <> Some (Link t).
Proof.
  induction n as [|n IHn]; induction rest as [|c rest IH]; intros cur l Hd Hw t;
    rewrite ?walk_nil, ?walk_cons in Hw.
  - injection Hw as <-. rewrite (dirs_along_last _ _ Hd). discriminate.
  - destruct (String.eqb c "" || String.eqb c "."); [eauto|].
    destruct (String.eqb c ".."); [eauto using dirs_along_removelast|].
    destruct (node_at fs (cur ++ [c])) as [[m d|t'|]|] eqn:Hn.
    + destruct (is_nil rest); [|discriminate]. injection Hw as <-. congruence.
    + rewrite andb_false_r in Hw. discriminate.
    + eapply IH; [|exact Hw]. apply dirs_along_app. simpl. auto.
    + destruct (is_nil rest); [|discriminate]. injection Hw as <-. congruence.
  - injection Hw as <-. rewrite (dirs_along_last _ _ Hd). discriminate.
  - destruct (String.eqb c "" || String.eqb c "."); [eauto|].
    destruct (String.eqb c ".."); [eauto using dirs_along_removelast|].
    destruct (node_at fs (cur ++ [c])) as [[m d|t'|]|] eqn:Hn.
    + destruct (is_nil rest); [|discriminate]. injection Hw as <-. congruence.
    + rewrite andb_false_r in Hw. eapply IHn; [|exact Hw].
      destruct (isabs t'); [exact I|exact Hd].
    + eapply IH; [|exact Hw]. apply dirs_along_app. simpl. auto.
    + destruct (is_nil rest); [|discriminate]. injection Hw as <-. congruence.
Qed.

Lemma stat_follow_no_link (w : world) (p t : string) :
  stat_node true w p <> Ok (Link t).
Proof.
  unfold stat_node, locate.
  destruct (walk MAXSYMLINKS (files w) true [] (path_comps (cwd w) p)) as [l|] eqn:Hw;
    [|discriminate].
  pose proof (walk_follow_no_link (files w) _ _ [] l I Hw t) as Hn.
  destruct (node_at (files w) l); congruence.
Qed.

Lemma read_long_description_closed (here : string) (w : world) :
  read_long_description here w
  = match stat_node true w (join here "README.md") with
    | Ok (File _ data) =>
        (w, Ok (universal_newlines
                  match utf8 (bytes_of data) with
                  | Some t => t
                  | None => bytes_of data
                  end))
    | Ok _ => (w, Raise IsADirectoryError)
    | Raise _ => (w, Ok [])
    end.
Proof.
  unfold read_long_description. rewrite bind_ask. unfold path_exists.
  destruct (stat_node true w (join here "README.md")) as [nd|e] eqn:Hs;
    cbn [is_ok]; [|reflexivity].
  unfold try_except, read_text, decode_utf8, decode_latin1. rewrite Hs.
  destruct nd as [m data|t|]; try reflexivity.
  destruct (utf8 (bytes_of data)); [reflexivity|].
  cbn [is_UnicodeDecodeError]. now rewrite Hs.
Qed.

(** X18.  Whatever the bytes of [README.md], a failure to decode never
    leaves [read_long_description]: it does not raise [UnicodeDecodeError],
    since bytes that are not valid UTF-8 are read as Latin-1; and the text
    it returns holds no carriage return. *)
Theorem read_long_description_no_cr (here : string) (w : world) :
  match snd (read_long_description here w) with
  | Ok t => ~ In 13%N t
  | Raise e => e <> UnicodeDecodeError
  end.
Proof.
  rewrite read_long_description_closed.
  destruct (stat_node true w (join here "README.md")) as [[m data|t|]|e] eqn:Hs; simpl.
  - apply universal_newlines_no_cr.
  - discriminate.
  - discriminate.
  - tauto.
Qed.

(** ** The requirements *)

Lemma get_requirements_closed (here : string) (w : world) :
  get_requirements here w
  = match stat_node true w (join here "requirements.txt") with
    | Ok (File _ data) =>
        match utf8 (bytes_of data) with
        | Some t => (w, Ok (requirements_of (readlines (universal_newlines t))))
        | None => (w, Raise UnicodeDecodeError)
        end
    | Ok _ => (w, Raise IsADirectoryError)
    | Raise _ => (w, Ok [])
    end.
Proof.
  unfold get_requirements. rewrite bind_ask. unfold path_exists.
  destruct (stat_node true w (join here "requirements.txt")) as [nd|e] eqn:Hs;
    cbn [is_ok]; [|reflexivity].
  rewrite bind_unfold. unfold read_text, decode_utf8. rewrite Hs.
  destruct nd as [m data|t|]; try reflexivity.
  destruct (utf8 (bytes_of data)); reflexivity.
Qed.

(** X19.  [get_requirements] has no fallback: when [requirements.txt] is a
    regular file whose bytes are not valid UTF-8 it does not return a list
    but raises; whereas [read_long_description], whenever it returns on a
    [README.md] of the same bytes, returns their Latin-1 reading. *)
Theorem get_requirements_no_fallback (here : string) (w : world) (m : Z)
    (data : string) :
  stat_node true w (join here "requirements.txt") = Ok (File m data) ->
  utf8 (bytes_of data) = None ->
  is_ok (snd (get_requirements here w)) = false
  /\ forall w' w'' m' t,
       stat_node true w' (join here "README.md") = Ok (File m' data) ->
       read_long_description here w' = (w'', Ok t) ->
       t = universal_newlines (bytes_of data).
Proof.
  intros Hs Hu. rewrite get_requirements_closed, Hs, Hu.
  split; [reflexivity|].
  intros w' w'' m' t Hs' Hr.
  rewrite read_long_description_closed, Hs', Hu in Hr. now injection Hr as _ <-.
Qed.

Lemma get_requirements_no_fallback_witness :
  is_ok (snd (get_requirements "/p" latin1_files_world)) = false
  /\ read_long_description "/p" latin1_files_world
     = (latin1_files_world, Ok [233%N; 10%N])
  /\ [233%N; 10%N] = universal_newlines (bytes_of (String (ascii_of_nat 233) nl)).
Proof.
  destruct (get_requirements_no_fallback "/p" latin1_files_world 420
              (String (ascii_of_nat 233) nl)) as [H1 H2].
  - vm_compute. reflexivity.
  - vm_compute. reflexivity.
  - assert (Hr : read_long_description "/p" latin1_files_world
                 = (latin1_files_world, Ok [233%N; 10%N])) by (vm_compute; reflexivity).
    split; [exact H1|]. split; [exact Hr|].
    apply (H2 latin1_files_world latin1_files_world 420%Z); [|exact Hr].
    vm_compute. reflexivity.
Defined.

Lemma lstrip_head (s : text) (c : N) (r : text) :
  lstrip s = c :: r -> isspace c = false.
Proof.
  induction s as [|x s IH]; [discriminate|].
  simpl. destruct (isspace x) eqn:E; [exact IH|]. now intros [= <- _].
Qed.

Lemma lstrip_suffix (s : text) : exists pre, s = pre ++ lstrip s.
Proof.
  induction s as [|x s [pre IH]]; [now exists []|].
  simpl. destruct (isspace x).
  - exists (x :: pre). simpl. now rewrite <- IH.
  - now exists [].
Qed.

Lemma rstrip_prefix (s : text) : exists suf, s = rstrip s ++ suf.
Proof.
  unfold rstrip. destruct (lstrip_suffix (rev s)) as [pre E].
  exists (rev pre). rewrite <- rev_app_distr, <- E. now rewrite rev_involutive.
Qed.

Lemma rstrip_last (s : text) (c : N) :
  last (rstrip s) = Some c -> isspace c = false.
Proof.
  unfold rstrip. destruct (lstrip (rev s)) as [|x r] eqn:E; [discriminate|].
  simpl. rewrite last_snoc. intros [= <-]. exact (lstrip_head _ _ _ E).
Qed.

Lemma strip_head (s : text) (c : N) : head (strip s) = Some c -> isspace c = false.
Proof.
  unfold strip. destruct (rstrip_prefix (lstrip s)) as [suf E].
  destruct (rstrip (lstrip s)) as [|x r]; [discriminate|].
  intros [= <-]. exact (lstrip_head _ _ _ E).
Qed.

Lemma In_lstrip (s : text) (c : N) : In c (lstrip s) -> In c s.
Proof.
  destruct (lstrip_suffix s) as [pre E]. intros H. rewrite E. apply in_or_app. now right.
Qed.

Lemma In_strip (s : text) (c : N) : In c (strip s) -> In c s.
Proof.
  unfold strip. destruct (rstrip_prefix (lstrip s)) as [suf E]. intros H.
  apply In_lstrip. rewrite E. apply in_or_app. now left.
Qed.

Lemma lstrip_snoc_space (s : text) (c : N) :
  isspace c = true ->
  lstrip (s ++ [c]) = match lstrip s with [] => [] | x => x ++ [c] end.
Proof.
  intros Hc. induction s as [|x s IH]; simpl; [now rewrite Hc|].
  destruct (isspace x); [exact IH|reflexivity].
Qed.

Lemma strip_snoc_space (s : text) (c : N) :
  isspace c = true -> strip (s ++ [c]) = strip s.
Proof.
  intros Hc. unfold strip. rewrite (lstrip_snoc_space _ _ Hc).
  destruct (lstrip s) as [|x r]; [reflexivity|].
  unfold rstrip. rewrite rev_app_distr. simpl. now rewrite Hc.
Qed.

(** A line of the file ends at its first [\n]. *)
Lemma readlines_go_spec (t : text) :
  forall (cur line : text),
    ~ In 10%N cur ->
    In line (readlines_go cur t) ->
    exists body,
      ~ In 10%N body /\ (line = body \/ line = body ++ [10%N])
      /\ forall c, In c body -> In c cur \/ In c t.
Proof.
  induction t as [|c r IH]; intros cur line Hc Hin; simpl in Hin.
  - destruct cur as [|x cur]; [contradiction|]. destruct Hin as [<-|[]].
    exists (x :: cur). repeat split; auto.
  - destruct (N.eqb_spec c 10) as [->|Hne].
    + destruct Hin as [<-|Hin].
      * exists cur. repeat split; auto.
      * destruct (IH [] line (fun H => H) Hin) as (body & Hb & Hl & Hs).
        exists body. repeat split; auto. intros x Hx.
        destruct (Hs x Hx) as [[]|H]. right. now right.
    + assert (Hc' : ~ In 10%N (cur ++ [c])).
      { intros H. apply in_app_or in H. destruct H as [H|[H|[]]]; [tauto|congruence]. }
      destruct (IH _ line Hc' Hin) as (body & Hb & Hl & Hs).
      exists body. repeat split; auto. intros x Hx.
      destruct (Hs x Hx) as [H|H]; [|right; now right].
      apply in_app_or in H. destruct H as [H|[<-|[]]]; [now left|right; now left].
Qed.

(** What [requirements_of] keeps of the lines of a text without carriage
    returns. *)
Lemma requirements_of_stripped (t r : text) :
  ~ In 13%N t ->
  In r (requirements_of (readlines t)) ->
  r <> []
  /\ (forall c, head r = Some c -> isspace c = false)
  /\ (forall c, last r = Some c -> isspace c = false)
  /\ ~ In 10%N r /\ ~ In 13%N r.
Proof.
  intros Hcr Hin. unfold requirements_of in Hin.
  apply in_map_iff in Hin. destruct Hin as (line & <- & Hin).
  apply filter_In in Hin. destruct Hin as [Hin Hf].
  apply andb_prop in Hf. destruct Hf as [Hne _].
  split; [now destruct (strip line)|].
  split; [intros c; apply strip_head|].
  split; [intros c; apply rstrip_last|].
  destruct (readlines_go_spec t [] line (fun H => H) Hin) as (body & Hb & Hl & Hs).
  assert (E : strip line = strip body).
  { destruct Hl as [->| ->]; [reflexivity|]. now apply strip_snoc_space. }
  rewrite E. split; intros H; apply In_strip in H; [tauto|].
  destruct (Hs _ H) as [[]|H']. tauto.
Qed.

(** X20.  Every requirement [get_requirements] returns is a non-empty text
    that neither starts nor ends with white space and holds no line break,
    whatever the line ends of [requirements.txt] were. *)
Theorem requirements_are_stripped (here : string) (w w' : world)
    (requirements : list text) (r : text) :
  get_requirements here w = (w', Ok requirements) ->
  In r requirements ->
  r <> []
  /\ (forall c, head r = Some c -> isspace c = false)
  /\ (forall c, last r = Some c -> isspace c = false)
  /\ ~ In 10%N r /\ ~ In 13%N r.
Proof.
  rewrite get_requirements_closed. intros H Hin.
  destruct (stat_node true w (join here "requirements.txt")) as [[m data|t|]|e].
  - destruct (utf8 (bytes_of data)) as [t|]; [|discriminate].
    injection H as _ <-.
    exact (requirements_of_stripped _ _ (universal_newlines_no_cr t) Hin).
  - discriminate.
  - discriminate.
  - injection H as _ <-. contradiction.
Qed.

Lemma requirements_are_stripped_witness :
  get_requirements "/p" text_files_world
  = (text_files_world, Ok [bytes_of "# pinned"; bytes_of "numpy>=1.20"])
  /\ bytes_of "numpy>=1.20" <> []
  /\ (forall c, head (bytes_of "numpy>=1.20") = Some c -> isspace c = false)
  /\ (forall c, last (bytes_of "numpy>=1.20") = Some c -> isspace c = false)
  /\ ~ In 10%N (bytes_of "numpy>=1.20") /\ ~ In 13%N (bytes_of "numpy>=1.20").
Proof.
  assert (H : get_requirements "/p" text_files_world
              = (text_files_world, Ok [bytes_of "# pinned"; bytes_of "numpy>=1.20"]))
    by (vm_compute; reflexivity).
  split; [exact H|].
  apply (requirements_are_stripped "/p" text_files_world text_files_world _ _ H).
  right. now left.
Defined.

Lemma readlines_go_one_line (body : text) :
  forall cur,
    ~ In 10%N body -> readlines_go cur (body ++ [10%N]) = [cur ++ body ++ [10%N]].
Proof.
  induction body as [|c body IH]; intros cur Hb; [reflexivity|].
  simpl. destruct (N.eqb_spec c 10) as [->|Hne]; [simpl in Hb; tauto|].
  rewrite IH by (simpl in Hb; tauto). now rewrite <- app_assoc.
Qed.

Lemma readlines_one_line (body : text) :
  ~ In 10%N body -> readlines (body ++ [10%N]) = [body ++ [10%N]].
Proof. intros Hb. unfold readlines. now rewrite readlines_go_one_line. Qed.

(** X21.  The comment test looks at the line as read, the result is the
    stripped line: a line that starts with [#] is dropped, but the same
    comment after white space is returned as a requirement, and that
    requirement starts with [#]. *)
Theorem indented_comment_is_kept (ws body : text) :
  ws <> [] -> forallb isspace ws = true ->
  ~ In 10%N ws -> ~ In 10%N body ->
  requirements_of (readlines (35%N :: body ++ [10%N])) = []
  /\ requirements_of (readlines (ws ++ 35%N :: body ++ [10%N])) = [strip (35%N :: body)]
  /\ starts_with_hash (strip (35%N :: body)) = true.
Proof.
  intros Hne Hws Hw Hb.
  assert (Hs : forall pre, forallb isspace pre = true ->
               strip (pre ++ 35%N :: body ++ [10%N]) = strip (35%N :: body)).
  { intros pre Hp.
    change (pre ++ 35%N :: body ++ [10%N]) with (pre ++ (35%N :: body) ++ [10%N]).
    rewrite app_assoc, strip_snoc_space by reflexivity.
    unfold strip. f_equal. induction pre as [|x pre IH]; [reflexivity|].
    simpl in *. apply andb_prop in Hp. destruct Hp as [-> Hp]. now apply IH. }
  assert (Hh : starts_with_hash (strip (35%N :: body)) = true).
  { unfold strip. cbn [lstrip]. change (isspace 35) with false. cbv iota.
    destruct (rstrip_prefix (35%N :: body)) as [suf E].
    unfold rstrip in *. cbn [rev] in *.
    destruct (lstrip_suffix (rev body ++ [35%N])) as [pre E'].
    destruct (lstrip (rev body ++ [35%N])) as [|x r] eqn:El.
    - rewrite app_nil_r in E'. subst pre.
      clear -El. exfalso. induction (rev body) as [|y l IH]; simpl in El.
      + discriminate.
      + destruct (isspace y); [now apply IH|discriminate].
    - destruct (rev (x :: r)) as [|y l] eqn:Er.
      + apply (f_equal (@List.length N)) in Er. rewrite length_rev in Er. discriminate.
      + simpl in E. injection E as <- _. reflexivity. }
  split; [|split; [|exact Hh]].
  - change (35%N :: body ++ [10%N]) with ((35%N :: body) ++ [10%N]).
    rewrite readlines_one_line by (simpl; intros [H|H]; [discriminate|tauto]).
    unfold requirements_of. cbn [List.filter starts_with_hash app].
    change (35 =? 35)%N with true. now rewrite andb_false_r.
  - replace (ws ++ 35%N :: body ++ [10%N]) with ((ws ++ 35%N :: body) ++ [10%N])
      by now rewrite <- app_assoc.
    rewrite readlines_one_line.
    2:{ intros H. apply in_app_or in H. destruct H as [H|[H|H]];
          [tauto|discriminate|tauto]. }
    rewrite <- app_assoc. change ((35%N :: body) ++ [10%N]) with (35%N :: body ++ [10%N]).
    assert (Hsh : starts_with_hash (ws ++ 35%N :: body ++ [10%N]) = false).
    { destruct ws as [|x ws']; [congruence|]. cbn [app starts_with_hash].
      simpl in Hws. apply andb_prop in Hws. destruct Hws as [Hx _].
      destruct (N.eqb_spec x 35) as [->|_]; [discriminate Hx|reflexivity]. }
    assert (Hn : is_nil (strip (35%N :: body)) = false)
      by (destruct (strip (35%N :: body)); [discriminate Hh|reflexivity]).
    unfold requirements_of. cbn [List.filter].
    rewrite (Hs ws Hws), Hsh, Hn. cbn [negb andb List.map].
    now rewrite (Hs ws Hws).
Qed.

Lemma indented_comment_is_kept_witness :
  requirements_of (readlines (35%N :: bytes_of " pinned" ++ [10%N])) = []
  /\ requirements_of (readlines ([32%N; 32%N] ++ 35%N :: bytes_of " pinned" ++ [10%N]))
     = [strip (35%N :: bytes_of " pinned")]
  /\ starts_with_hash (strip (35%N :: bytes_of " pinned")) = true.
Proof.
  apply (indented_comment_is_kept [32%N; 32%N] (bytes_of " pinned")).
  - discriminate.
  - reflexivity.
  - vm_compute. intuition discriminate.
  - vm_compute. intuition discriminate.
Defined.

(** ** The permission pass and links *)

Lemma fix_walk_through_link (depth : nat) (top : string) (w w' : world)
    (d l : loc) (n t : string) (m : Z) (data : string) :
  fix_walk depth top w = (w', Ok tt) ->
  path_comps (cwd w) top = d -> Forall proper d -> dirs_along (files w) [] d ->
  proper n ->
  node_at (files w) (d ++ [n]) = Some (Link t) ->
  locate true w (join top n) = Ok l ->
  node_at (files w) l = Some (File m data) ->
  is_shared_lib (join top n) n = true ->
  node_at (files w') l = Some (File (with_755 m) data).
Proof.
  intros Hrun Hd Hpd Hdd Hn Hlink Hl Hfile Hlib.
  destruct depth as [|depth]; [discriminate|].
  unfold fix_walk in Hrun. rewrite os_walk_S in Hrun.
  rewrite (os_listdir_dirs _ _ _ Hd Hpd Hdd) in Hrun. cbv zeta in Hrun.
  apply bind_ok_inv in Hrun. destruct Hrun as (w1 & [] & Hfiles & Hdirs).
  assert (Hw' : perm_step w1 w').
  { match type of Hdirs with ?t = _ => replace w' with (fst t) by now rewrite Hdirs end.
    apply (fold_each_inv perm_step perm_step_refl perm_step_trans).
    intros dn [] w2 _. rewrite bind_ask.
    destruct (islink w2 (join top dn)); [apply perm_step_refl|apply fix_walk_perm_step]. }
  assert (Hin : In n (List.filter (fun n => negb (isdir w (join top n)))
                        (listing w (entries (files w) d)))).
  { apply filter_In. split.
    - apply in_listing, list_elem_of_In, elem_of_entries. rewrite <- node_at_snoc. eauto.
    - unfold isdir, stat_node. now rewrite Hl, Hfile. }
  destruct (for_each_visit perm_step perm_step_refl perm_step_trans _ _ n
              (fun y w2 _ => fix_one_perm_step top y w2) Hin _ _ Hfiles)
    as (wa & wb & Ha & Hone & Hb).
  destruct (touched_file _ _ _ _ _ (proj2 Ha) Hfile) as (ma & Hfa & Hma).
  rewrite (fix_one_file top n wa l ma data) in Hone.
  - injection Hone as <-.
    apply (touched_fixed (files w1)); [apply Hw'|].
    apply (touched_fixed (<[l := File (with_755 ma) data]> (files wa))); [apply Hb|].
    assert (Hne : l <> []) by (intros ->; discriminate Hfile).
    unfold node_at. destruct l; [congruence|].
    now rewrite lookup_insert_eq, Hma.
  - exact Hlib.
  - now rewrite (locate_perm_step _ _ _ _ Ha).
  - exact Hfa.
Qed.

(** X22.  The permission pass follows links: for a link with a library name
    in the directory of an extension, the regular file the link leads to gets
    the bits [0o755] added, wherever that file lies, also outside the
    directory of the extension. *)
Theorem fix_permissions_follows_links (depth : nat) (self : build_ext) (w w' : world)
    (ext : PrebuiltExtension) (n t : string) (l : loc) (m : Z) (data : string) :
  _fix_file_permissions depth self w = (w', Ok tt) ->
  In ext (extensions self) ->
  isabs (cwd w) = true ->
  let d := path_comps (cwd w) (extdir_of self w ext) in
  dirs_along (files w) [] d ->
  proper n ->
  files w !! (d ++ [n]) = Some (Link t) ->
  locate true w (join (extdir_of self w ext) n) = Ok l ->
  node_at (files w) l = Some (File m data) ->
  shared_lib_name n = true ->
  node_at (files w') l = Some (File (with_755 m) data).
Proof.
  intros Hrun Hext Hc d Hdd Hn Hlink Hl Hfile Hname.
  assert (Hpd : Forall proper d).
  { subst d. unfold extdir_of. rewrite (path_comps_abspath _ _ Hc).
    now apply abs_list_proper. }
  assert (Hbody : forall (y : PrebuiltExtension) (w2 : world),
             In y (extensions self) ->
             perm_step w2
               (fst ((extdir ← ask (fun w => extdir_of self w y);
                      e ← ask (fun w => path_exists w extdir);
                      if e : bool then
                        os_walk depth extdir (fun root dirs files _ =>
                          for_each files (fun file => fix_one root file)) tt
                      else ret tt) w2))).
  { intros y w2 _. rewrite !bind_ask.
    destruct (path_exists w2 _); [apply fix_walk_perm_step|apply perm_step_refl]. }
  destruct (for_each_visit perm_step perm_step_refl perm_step_trans _ _ ext
              Hbody Hext _ _ Hrun) as (wa & wb & Ha & Hone & Hb).
  rewrite !bind_ask in Hone.
  assert (Hdir : extdir_of self wa ext = extdir_of self w ext).
  { unfold extdir_of. now rewrite (proj1 Ha). }
  rewrite Hdir in Hone.
  assert (Hex : path_exists wa (extdir_of self w ext) = true).
  { rewrite (path_exists_perm_step _ _ _ Ha). unfold path_exists, stat_node, locate.
    fold d. rewrite (walk_dirs _ _ _ _ Hpd Hdd), (dirs_along_last _ _ Hdd). reflexivity. }
  rewrite Hex in Hone.
  destruct (touched_file _ _ _ _ _ (proj2 Ha) Hfile) as (ma & Hfa & Hma).
  apply (touched_fixed (files wb)); [apply Hb|]. rewrite <- Hma.
  apply (fix_walk_through_link depth (extdir_of self w ext) wa wb d l n t ma data).
  - exact Hone.
  - now rewrite (proj1 Ha).
  - exact Hpd.
  - apply (dirs_along_touched (files w)); [apply Ha|exact Hdd].
  - exact Hn.
  - rewrite node_at_snoc.
    destruct (proj2 Ha (d ++ [n])) as [E | (m0 & d0 & E & _)]; congruence.
  - now rewrite (locate_perm_step _ _ _ _ Ha).
  - exact Hfa.
  - now rewrite (is_shared_lib_name _ _ (proper_plain _ Hn)).
Qed.

Lemma fix_permissions_follows_links_witness :
  _fix_file_permissions 10 staging_command linked_lib_world
  = (fst (_fix_file_permissions 10 staging_command linked_lib_world), Ok tt)
  /\ node_at (files (fst (_fix_file_permissions 10 staging_command linked_lib_world)))
       ["opt"; "libfoo.so.1"]
     = Some (File (with_755 384) "ELF").
Proof.
  assert (H : _fix_file_permissions 10 staging_command linked_lib_world
              = (fst (_fix_file_permissions 10 staging_command linked_lib_world), Ok tt))
    by (vm_compute; reflexivity).
  split; [exact H|].
  apply (fix_permissions_follows_links 10 staging_command linked_lib_world _
           the_extension "libfoo.so" "/opt/libfoo.so.1" ["opt"; "libfoo.so.1"] 384 "ELF" H).
  - now left.
  - reflexivity.
  - vm_compute. tauto.
  - apply properb_spec. reflexivity.
  - vm_compute. reflexivity.
  - vm_compute. reflexivity.
  - reflexivity.
  - reflexivity.
Defined.

(** ** The validator and the builder look at the same directory *)

Lemma same_place (w : world) (p q : string) :
  path_comps (cwd w) p = path_comps (cwd w) q ->
  isdir w p = isdir w q /\ rglob_all w p = rglob_all w q.
Proof. unfold isdir, rglob_all, stat_node, locate. now intros ->. Qed.

Lemma extension_lib_dir_place (c n : string) :
  isabs c = true -> Forall proper (comps c) ->
  path_comps c (lib_dir (PrebuiltExtension_init c n "install/lib"))
  = path_comps c (lib_dir_of c).
Proof.
  intros Hc Hp. cbn [lib_dir PrebuiltExtension_init].
  rewrite (path_comps_abspath _ _ Hc), (abs_list_norm _ _ Hc).
  unfold absolute. change (isabs "install/lib") with false. cbv iota.
  rewrite comps_join by reflexivity.
  change (comps "install/lib") with ["install"; "lib"].
  unfold norm_comps. rewrite norm_fold_append.
  2:{ apply Forall_app. split; [exact Hp|].
      repeat constructor; discriminate. }
  assert (Hne : c <> "") by (intros ->; discriminate Hc).
  assert (H1 : isabs (join c "install") = true) by now rewrite isabs_join.
  assert (H2 : isabs (join (join c "install") "lib") = true).
  { rewrite isabs_join; [exact H1| |reflexivity]. intros E. rewrite E in H1. discriminate. }
  unfold path_comps, lib_dir_of. rewrite (join_absolute _ _ H2).
  rewrite !comps_join by reflexivity. now rewrite <- app_assoc.
Qed.

Lemma check_prerequisites_ok_inv (here : string) (w w' : world) :
  check_prerequisites here w = (w', Ok tt) ->
  rglob_all w (lib_dir_of here) <> [].
Proof.
  unfold check_prerequisites, collect_errors. fold (lib_dir_of here).
  cbv [mbind M_bind bind ask mret M_ret ret raise].
  destruct (path_exists w (lib_dir_of here)) eqn:Ex; cbn [negb].
  - pose proof (os_listdir_pure (lib_dir_of here) w) as Hp.
    destruct (os_listdir (lib_dir_of here) w) as [w1 [items|e]]; simpl in Hp; subst w1;
      [|discriminate].
    destruct (is_nil items); rewrite Ex;
      (destruct (existsb _ (rglob_all w (lib_dir_of here))) eqn:Hh; cbn [negb];
       [|discriminate]);
      try discriminate.
    intros _ E. rewrite E in Hh. discriminate.
  - rewrite Ex. discriminate.
Qed.

(** X23.  Run from the directory of the script, the validator and the
    builder look at the same place: when [check_prerequisites] returns
    normally, the library directory of the extension of this package is a
    directory with something below it, so the two checks at the start of
    [build_extension] pass and it does not stop with their
    [FileNotFoundError] before it prints what it found. *)
Theorem validated_library_directory (depth : nat) (self : build_ext) (n : string)
    (w w' : world) :
  isabs (cwd w) = true -> Forall proper (comps (cwd w)) ->
  check_prerequisites (cwd w) w = (w', Ok tt) ->
  let ext := PrebuiltExtension_init (cwd w) n "install/lib" in
  isdir w (lib_dir ext) = true
  /\ rglob_all w (lib_dir ext) <> []
  /\ build_extension depth self ext w
     = (print ("Found " +:+ str_of_nat (List.length (rglob_all w (lib_dir ext)))
               +:+ " files in " +:+ lib_dir ext) ;;
        extdir ← ask (fun w => extdir_of self w ext);
        os_makedirs extdir ;;
        copy_all_files depth (lib_dir ext) extdir ;;
        _record_installed_files depth extdir) w.
Proof.
  intros Hc Hp Hok ext.
  apply check_prerequisites_ok_inv in Hok.
  destruct (same_place w _ _ (extension_lib_dir_place (cwd w) n Hc Hp)) as [Ed Er].
  fold ext in Ed, Er.
  assert (Hr : rglob_all w (lib_dir ext) <> []) by now rewrite Er.
  assert (Hd : isdir w (lib_dir ext) = true).
  { rewrite Ed. unfold rglob_all in Hok. unfold isdir, stat_node.
    destruct (locate true w (lib_dir_of (cwd w))) as [l|]; [|congruence].
    destruct (node_at (files w) l) as [[| |]|]; congruence. }
  split; [exact Hd|]. split; [exact Hr|].
  unfold build_extension. rewrite bind_ask, Hd. cbn [negb]. rewrite bind_ask.
  destruct (rglob_all w (lib_dir ext)); [congruence|reflexivity].
Qed.

Lemma validated_library_directory_witness :
  let ext := PrebuiltExtension_init (cwd fresh_world) "pyorbbecsdk" "install/lib" in
  isdir fresh_world (lib_dir ext) = true
  /\ rglob_all fresh_world (lib_dir ext) <> []
  /\ build_extension 10 staging_command ext fresh_world
     = (print ("Found " +:+ str_of_nat (List.length (rglob_all fresh_world (lib_dir ext)))
               +:+ " files in " +:+ lib_dir ext) ;;
        extdir ← ask (fun w => extdir_of staging_command w ext);
        os_makedirs extdir ;;
        copy_all_files 10 (lib_dir ext) extdir ;;
        _record_installed_files 10 extdir) fresh_world.
Proof.
  apply (validated_library_directory 10 staging_command "pyorbbecsdk"
           fresh_world fresh_world).
  - reflexivity.
  - repeat constructor; discriminate.
  - vm_compute. reflexivity.
Defined.

(** ** [build_extension] into a fresh build directory *)

Lemma only_dest_refl (d : loc) (w : world) : only_dest d w w.
Proof. split; [reflexivity|]. intros k _. now left. Qed.

Lemma only_dest_trans (d : loc) (w1 w2 w3 : world) :
  only_dest d w1 w2 -> only_dest d w2 w3 -> only_dest d w1 w3.
Proof.
  intros [C1 H1] [C2 H2]. split; [congruence|]. intros k Hk.
  destruct (H2 k Hk) as [E2 | (Hn & Hp & E2 & E3)].
  - rewrite E2. now apply H1.
  - destruct (H1 k Hk) as [E1 | (_ & _ & E1 & E1')]; [|congruence].
    right. repeat split; try assumption. now rewrite <- E1.
Qed.

Lemma dirs_along_or_free (fs : store) (rest : list string) :
  forall cur, dirs_along fs cur rest -> dirs_or_free fs cur rest.
Proof.
  induction rest as [|c rest IH]; intros cur H; [exact I|].
  destruct H as [H1 H2]. split; [now left|now apply IH].
Qed.

(** Making the directories of a fresh destination. *)
Lemma os_makedirs_fresh (name : string) (w : world) (d : loc) :
  path_comps (cwd w) name = d -> Forall proper d ->
  wf_store (files w) -> dirs_or_free (files w) [] d ->
  (forall k, below d k = true -> files w !! k = None) ->
  exists fs1,
    os_makedirs name w = (set_files w fs1, Ok tt)
    /\ only_dest d w (set_files w fs1)
    /\ wf_store fs1 /\ dirs_along fs1 [] d
    /\ forall k, below d k = true -> fs1 !! k = None.
Proof.
  intros Hd Hpd Hwf Hdf Hfree.
  destruct (makedirs_go_spec d [] (files w) (List.Forall_nil proper) Hpd I Hdf)
    as (fs1 & Hmk & Hdd1 & Hch1).
  simpl app in Hdd1, Hch1. exists fs1.
  split; [unfold os_makedirs; now rewrite Hd, Hmk|].
  split; [split; [reflexivity|]; intros k _; apply Hch1|].
  split.
  { intros k nd Hk. destruct (Hch1 k) as [E | (_ & [l Hp] & _ & _)].
    - rewrite E in Hk. eapply Hwf; eauto.
    - rewrite Hp in Hpd. apply Forall_app in Hpd. apply Hpd. }
  split; [exact Hdd1|].
  intros k Hk. destruct (Hch1 k) as [E | (_ & Hp & _ & _)].
  - rewrite E. now apply Hfree.
  - exfalso. apply below_spec in Hk. destruct Hk as (y & l & ->).
    apply prefix_length in Hp. rewrite length_app in Hp. simpl in Hp. lia.
Qed.

(** X24.  [build_extension] into a fresh build directory: when every
    leading part of the directory of the extension is a real directory or
    missing and nothing exists below it, then whatever [build_extension]
    returns or raises, the store has changed only at that directory and below
    it, apart from the missing directories created on the way to it, and the
    working directory is the same. *)
Theorem build_extension_changes_only_the_build_directory (depth : nat)
    (self : build_ext) (ext : PrebuiltExtension) (w : world) :
  isabs (cwd w) = true ->
  wf_store (files w) ->
  let d := path_comps (cwd w) (extdir_of self w ext) in
  dirs_or_free (files w) [] d ->
  descendants (files w) d = [] ->
  only_dest d w (fst (build_extension depth self ext w)).
Proof.
  intros Hc Hwf d Hdf Hdesc.
  assert (Hpd : Forall proper d).
  { subst d. unfold extdir_of. rewrite (path_comps_abspath _ _ Hc).
    now apply abs_list_proper. }
  unfold build_extension. rewrite bind_ask.
  destruct (isdir w (lib_dir ext)); cbn [negb]; [|apply only_dest_refl].
  rewrite bind_ask.
  destruct (is_nil (rglob_all w (lib_dir ext))); [apply only_dest_refl|].
  rewrite bind_unfold. unfold print at 1.
  set (w0 := mkWorld (files w) (cwd w) _ (rank w)).
  rewrite bind_ask.
  change (extdir_of self w0 ext) with (extdir_of self w ext).
  destruct (os_makedirs_fresh (extdir_of self w ext) w0 d eq_refl Hpd Hwf Hdf)
    as (fs1 & Hmk & H01 & Hwf1 & Hdd1 & Hfree1).
  { intros k. now apply descendants_nil. }
  rewrite bind_unfold, Hmk.
  set (w1 := set_files w0 fs1) in *.
  destruct (copy_all_files_fresh depth (lib_dir ext) (extdir_of self w ext) w1 d
              eq_refl Hpd Hwf1 (dirs_along_or_free _ _ _ Hdd1) Hfree1) as [H12 _].
  assert (H02 : only_dest d w
                  (fst (copy_all_files depth (lib_dir ext) (extdir_of self w ext) w1))).
  { apply (only_dest_trans d w w1); [exact H01|exact H12]. }
  rewrite bind_unfold.
  destruct (copy_all_files depth (lib_dir ext) (extdir_of self w ext) w1)
    as [w2 [[]|e]]; simpl in H02; [|exact H02].
  destruct (record_installed_files_run depth (extdir_of self w ext) w2)
    as [[e ->] | [installed ->]]; [exact H02|].
  destruct H02 as [C H]. split; [exact C|exact H].
Qed.

Lemma build_extension_changes_only_the_build_directory_witness :
  only_dest (path_comps (cwd fresh_world)
               (extdir_of staging_command fresh_world the_extension))
    fresh_world
    (fst (build_extension 10 staging_command the_extension fresh_world)).
Proof.
  apply (build_extension_changes_only_the_build_directory 10 staging_command
           the_extension fresh_world).
  - reflexivity.
  - apply wf_storeb_spec. vm_compute. reflexivity.
  - vm_compute. tauto.
  - vm_compute. reflexivity.
Defined.

(** ** The directory of a joined path *)

Lemma append_empty_r (a : string) : a +:+ "" = a.
Proof. induction a as [|c a IH]; [reflexivity|]. rewrite append_cons. now rewrite IH. Qed.

Lemma rstrip_sep_slashes (s : string) : exists k, s = rstrip_sep s +:+ slashes k.
Proof.
  induction s as [|c s [k IH]]; [now exists 0|].
  cbn [rstrip_sep]. destruct (String.eqb_spec (rstrip_sep s) "") as [E|E].
  - destruct (is_sep c) eqn:Hc; cbn [andb].
    + exists (S k). unfold is_sep in Hc. apply Ascii.eqb_eq in Hc. subst c.
      rewrite E in IH. rewrite IH. reflexivity.
    + exists k. rewrite append_cons. now rewrite <- IH.
  - cbn [andb]. exists k. rewrite append_cons. now rewrite <- IH.
Qed.

Lemma comps_slashes (k : nat) : comps (slashes k) = [].
Proof.
  induction k as [|k IH]; [reflexivity|].
  change (slashes (S k)) with ("" +:+ "/" +:+ slashes k).
  now rewrite comps_app_sep, IH.
Qed.

Lemma comps_append_slashes (x : string) (k : nat) : comps (x +:+ slashes k) = comps x.
Proof.
  destruct k as [|k]; [now rewrite append_empty_r|].
  change (slashes (S k)) with ("/" +:+ slashes k).
  now rewrite comps_app_sep, comps_slashes, app_nil_r.
Qed.

Lemma comps_rstrip_sep (s : string) : comps (rstrip_sep s) = comps s.
Proof.
  destruct (rstrip_sep_slashes s) as [k E]. rewrite E at 2.
  now rewrite comps_append_slashes.
Qed.

Lemma plain_no_sep (n : string) : split_sep n = [n] -> has_sep n = false.
Proof.
  induction n as [|c n IH]; [reflexivity|].
  cbn [split_sep has_sep]. destruct (is_sep c); cbn [orb].
  - intros H. injection H as H _. discriminate H.
  - pose proof (split_sep_not_nil n) as Hn.
    destruct (split_sep n) as [|x xs] eqn:E; [congruence|].
    intros H. injection H as H1 H2. subst xs. apply IH. congruence.
Qed.

Lemma split_last_no_sep (n : string) : has_sep n = false -> split_last n = ("", n).
Proof.
  induction n as [|c n IH]; [reflexivity|].
  cbn [has_sep split_last]. intros H. apply orb_false_elim in H. destruct H as [Hc Hn].
  rewrite (IH Hn). cbn [String.eqb]. now rewrite Hc.
Qed.

Lemma split_last_under (a n : string) :
  has_sep n = false -> split_last (a +:+ "/" +:+ n) = (a +:+ "/", n).
Proof.
  intros Hn. induction a as [|c a IH].
  - change ("" +:+ "/" +:+ n) with (String "/" n). cbn [split_last].
    now rewrite (split_last_no_sep _ Hn).
  - change (String c a +:+ "/" +:+ n) with (String c (a +:+ "/" +:+ n)).
    cbn [split_last]. rewrite IH.
    destruct (String.eqb_spec (a +:+ "/") "") as [E|_]; [|reflexivity].
    destruct a; discriminate E.
Qed.

Lemma comps_dirname_join (a n : string) :
  plain n -> comps (dirname (join a n)) = comps a.
Proof.
  intros Hn. pose proof (plain_no_sep n (proj1 Hn)) as Hs.
  assert (Hhead : forall h, comps (if String.eqb (rstrip_sep h) "" then h else rstrip_sep h)
                            = comps h).
  { intros h. destruct (String.eqb (rstrip_sep h) ""); [reflexivity|apply comps_rstrip_sep]. }
  rewrite (join_relative _ _ (plain_relative _ Hn)). unfold dirname.
  destruct (String.eqb_spec a "") as [->|Ha]; cbn [orb].
  - change ("" +:+ n) with n. now rewrite (split_last_no_sep _ Hs).
  - destruct (endswith "/" a) eqn:He.
    + destruct (endswith_sep_inv _ He) as [a' ->].
      rewrite append_assoc, (split_last_under _ _ Hs). cbn [fst]. apply Hhead.
    + rewrite (split_last_under _ _ Hs). cbn [fst]. rewrite Hhead.
      change (a +:+ "/") with (a +:+ "/" +:+ ""). now rewrite comps_app_sep, app_nil_r.
Qed.

Lemma isabs_dirname_join (a n : string) :
  isabs a = true -> plain n -> isabs (dirname (join a n)) = true.
Proof.
  intros Ha Hn. apply isabs_dirname. rewrite isabs_join; [exact Ha| |now apply plain_relative].
  intros ->. discriminate Ha.
Qed.

Lemma path_comps_absolute (cwd p : string) : isabs p = true -> path_comps cwd p = comps p.
Proof. intros H. unfold path_comps. now rewrite join_absolute. Qed.

Lemma norm_comps_proper (l : list string) : Forall proper l -> norm_comps true l = l.
Proof. intros H. unfold norm_comps. now rewrite norm_fold_append. Qed.

(** ** Where a replicated link leads *)

Lemma walk_parents (n : nat) (fs : store) (f : bool) (k : nat) :
  forall (cur : loc) (rest : list string),
    walk n fs f cur (repeat ".." k ++ rest)
    = walk n fs f (firstn (List.length cur - k) cur) rest.
Proof.
  induction k as [|k IH]; intros cur rest.
  - simpl. now rewrite Nat.sub_0_r, firstn_all.
  - cbn [repeat app]. rewrite walk_cons. cbn [String.eqb Ascii.eqb Bool.eqb orb andb].
    rewrite IH. f_equal.
    rewrite removelast_firstn_len, firstn_firstn, length_firstn. f_equal. lia.
Qed.

(** An entry put at a free place does not change where a path leads that
    leads elsewhere. *)
Lemma walk_insert_other (fs : store) (l0 : loc) (nd0 : node) (f : bool) :
  node_at fs l0 = None ->
  forall n rest cur l,
    walk n fs f cur rest = Ok l -> l <> l0 ->
    walk n (<[l0 := nd0]> fs) f cur rest = Ok l.
Proof.
  intros Hnone.
  assert (Hstep : forall cur c,
            cur ++ [c] <> l0 ->
            node_at (<[l0 := nd0]> fs) (cur ++ [c]) = node_at fs (cur ++ [c])).
  { intros cur c Hne. unfold node_at.
    destruct (cur ++ [c]) eqn:E; [now destruct cur|].
    now rewrite lookup_insert_ne. }
  induction n as [|n IHn]; induction rest as [|c rest IH]; intros cur l Hw Hl;
    rewrite ?walk_nil, ?walk_cons in *; try exact Hw.
  - destruct (String.eqb c "" || String.eqb c "."); [eauto|].
    destruct (String.eqb c ".."); [eauto|].
    destruct (decide (cur ++ [c] = l0)) as [E|NE].
    + exfalso. rewrite E, Hnone in Hw. destruct (is_nil rest); congruence.
    + rewrite (Hstep _ _ NE).
      destruct (node_at fs (cur ++ [c])) as [[m d|t|]|]; eauto.
  - destruct (String.eqb c "" || String.eqb c "."); [eauto|].
    destruct (String.eqb c ".."); [eauto|].
    destruct (decide (cur ++ [c] = l0)) as [E|NE].
    + exfalso. rewrite E, Hnone in Hw. destruct (is_nil rest); congruence.
    + rewrite (Hstep _ _ NE).
      destruct (node_at fs (cur ++ [c])) as [[m d|t|]|]; eauto.
      destruct (is_nil rest && negb f); eauto.
Qed.

(** The components of the text [relpath] returns. *)
Lemma relpath_comps (cwd path start rel : string) :
  isabs cwd = true ->
  relpath cwd path start = Ok rel ->
  let sl := abs_list cwd start in
  let pl := abs_list cwd path in
  let i := common_len sl pl in
  isabs rel = false
  /\ (comps rel = repeat ".." (List.length sl - i) ++ skipn i pl
      \/ (comps rel = ["."] /\ repeat ".." (List.length sl - i) ++ skipn i pl = [])).
Proof.
  intros Hc Hrel sl pl i.
  destruct (relpath_round_trip _ _ _ _ Hc Hrel) as (Hr1 & _ & _).
  split; [exact Hr1|].
  unfold relpath in Hrel. destruct (String.eqb path ""); [discriminate|].
  fold sl pl i in Hrel.
  pose proof (abs_list_proper cwd path Hc) as Hpl. fold pl in Hpl.
  assert (Hplain : Forall plain (repeat ".." (List.length sl - i) ++ skipn i pl)).
  { apply Forall_app. split.
    - apply Forall_forall. intros x Hx. apply list_elem_of_In, repeat_spec in Hx.
      subst. apply dotdot_plain.
    - apply Forall_drop. eapply Forall_impl; [exact Hpl|]. intros x Hx. apply Hx. }
  destruct (repeat ".." (List.length sl - i) ++ skipn i pl) as [|a p] eqn:Hrl.
  - injection Hrel as <-. right. now split.
  - injection Hrel as <-. left. inversion Hplain as [|? ? Ha Hp]; subst.
    destruct (comps_join_all a p (proj2 Ha) Hp) as (H1 & _ & _).
    now rewrite H1, (plain_comps _ Ha).
Qed.

(** From the directory at [sl], the relative text leads where the path
    [pl] leads from the root. *)
Lemma walk_relative (n : nat) (fs : store) (f : bool) (sl pl : loc) (rl : list string) :
  Forall proper sl -> dirs_along fs [] sl -> Forall proper pl ->
  let i := common_len sl pl in
  (rl = repeat ".." (List.length sl - i) ++ skipn i pl
   \/ (rl = ["."] /\ repeat ".." (List.length sl - i) ++ skipn i pl = [])) ->
  walk n fs f sl rl = walk n fs f [] pl.
Proof.
  intros Hsl Hd Hpl i Hrl.
  destruct (common_len_firstn sl pl) as [Hcp Hle]. fold i in Hcp, Hle.
  assert (Hgo : walk n fs f sl (repeat ".." (List.length sl - i) ++ skipn i pl)
                = walk n fs f [] pl).
  { rewrite walk_parents.
    replace (List.length sl - (List.length sl - i)) with i by lia.
    rewrite <- (firstn_skipn i pl) at 2.
    rewrite <- (app_nil_r (skipn i pl)) at 2.
    rewrite (walk_dirs_along n fs f (firstn i pl) [] (skipn i pl ++ [])).
    - now rewrite app_nil_r, Hcp.
    - now apply Forall_take.
    - rewrite <- Hcp. rewrite <- (firstn_skipn i sl) in Hd.
      now apply dirs_along_app in Hd. }
  destruct Hrl as [-> | [-> E]]; [exact Hgo|].
  rewrite E in Hgo. rewrite <- Hgo. rewrite walk_cons. reflexivity.
Qed.

(** The link branch under a free name of a destination made of real
    directories, for a joined target [link_target] that is absolute and made
    of proper names: the new link carries the relative text, or the absolute
    one when the relative text does not fit, and leads where the path
    [link_target] leads. *)
Lemma copy_link_to_target (source_path destination_dir item t : string)
    (w : world) (d pl l : loc) (nd : node) :
  let destination_path := join destination_dir item in
  let link_target := if negb (isabs t) then join (dirname source_path) t else t in
  isabs (cwd w) = true ->
  isabs destination_dir = true ->
  path_comps (cwd w) destination_dir = d -> Forall proper d ->
  dirs_along (files w) [] d ->
  proper item ->
  files w !! (d ++ [item]) = None ->
  stat_node false w source_path = Ok (Link t) ->
  isabs link_target = true -> comps link_target = pl -> Forall proper pl ->
  walk (pred MAXSYMLINKS) (files w) true [] pl = Ok l ->
  node_at (files w) l = Some nd ->
  exists rel_target,
    relpath (cwd w) link_target (dirname destination_path) = Ok rel_target
    /\ isabs rel_target = false
    /\ forall new_target,
         new_target = (if (PATH_MAX <=? String.length rel_target)%nat
                       then link_target else rel_target) ->
         String.length new_target < PATH_MAX ->
         copy_link source_path destination_path w
         = (mkWorld (<[d ++ [item] := Link new_target]> (files w)) (cwd w)
              (stdout w ++ ["Created symbolic link: " +:+ destination_path
                            +:+ " -> " +:+ new_target])
              (rank w),
            Ok tt)
         /\ locate true
              (mkWorld (<[d ++ [item] := Link new_target]> (files w)) (cwd w)
                 (stdout w ++ ["Created symbolic link: " +:+ destination_path
                               +:+ " -> " +:+ new_target])
                 (rank w))
              destination_path = Ok l
         /\ node_at (<[d ++ [item] := Link new_target]> (files w)) l = Some nd.
Proof.
  intros destination_path link_target Hc Hda Hd Hpd Hdd Hx Hfree Hs Hla Hpl Hppl Hw Hnd.
  assert (Hn : node_at (files w) (d ++ [item]) = None) by now rewrite node_at_snoc.
  assert (Hl : locate false w destination_path = Ok (d ++ [item])).
  { apply locate_child; try assumption. intros; reflexivity. }
  assert (Hlne : link_target <> "") by (intros E; rewrite E in Hla; discriminate).
  destruct (relpath_ok (cwd w) link_target (dirname destination_path) Hlne) as [rel Hrel].
  destruct (relpath_round_trip _ _ _ _ Hc Hrel) as (Hr1 & Hr2 & _).
  exists rel. split; [exact Hrel|]. split; [exact Hr1|].
  intros new_target Hnew Hlen.
  (* the texts of start and target, as lists of names *)
  assert (Hsl : abs_list (cwd w) (dirname destination_path) = d).
  { rewrite (abs_list_norm _ _ Hc). unfold absolute.
    unfold destination_path.
    rewrite (isabs_dirname_join _ _ Hda (proper_plain _ Hx)).
    rewrite (comps_dirname_join _ _ (proper_plain _ Hx)).
    rewrite <- (path_comps_absolute (cwd w) _ Hda), Hd. now apply norm_comps_proper. }
  assert (Hplist : abs_list (cwd w) link_target = pl).
  { rewrite (abs_list_norm _ _ Hc). unfold absolute. rewrite Hla, Hpl.
    now apply norm_comps_proper. }
  destruct (relpath_comps _ _ _ _ Hc Hrel) as [_ Hrc]. cbv zeta in Hrc.
  rewrite Hsl, Hplist in Hrc.
  set (fs' := <[d ++ [item] := Link new_target]> (files w)).
  assert (Hne : l <> d ++ [item]) by (intros ->; congruence).
  assert (Hdd' : dirs_along fs' [] d).
  { apply (dirs_along_agree (files w)); [|exact Hdd].
    intros p Hp _. unfold fs'. apply lookup_insert_ne. intros <-.
    apply prefix_length in Hp. rewrite length_app in Hp. simpl in Hp. lia. }
  assert (Hw' : walk (pred MAXSYMLINKS) fs' true [] pl = Ok l).
  { apply walk_insert_other; assumption. }
  assert (Hfollow : walk (pred MAXSYMLINKS) fs' true
                      (if isabs new_target then [] else d) (comps new_target ++ [])
                    = Ok l).
  { rewrite app_nil_r, Hnew.
    destruct (PATH_MAX <=? String.length rel)%nat.
    - now rewrite Hla, Hpl.
    - rewrite Hr1. rewrite (walk_relative _ fs' true d pl (comps rel) Hpd Hdd' Hppl Hrc).
      exact Hw'. }
  split; [|split].
  - unfold copy_link. rewrite bind_unfold. unfold os_readlink at 1. rewrite Hs.
    fold link_target.
    rewrite bind_unfold, bind_ask, (free_name_not_exists _ _ _ Hl Hn). cbv [ret].
    unfold try_except. rewrite bind_unfold. fold destination_path. rewrite Hrel, bind_unfold.
    unfold os_symlink at 1. destruct (String.eqb_spec rel ""); [congruence|].
    clear Hfollow Hw' Hdd'. subst fs'. rewrite Hnew in Hlen |- *.
    destruct (PATH_MAX <=? String.length rel)%nat eqn:Hfit.
    + cbn [is_OSError is_ValueError orb]. rewrite bind_unfold. unfold os_symlink.
      destruct (String.eqb_spec link_target ""); [congruence|].
      replace (PATH_MAX <=? String.length link_target)%nat with false
        by (symmetry; apply Nat.leb_gt; exact Hlen).
      rewrite Hl, Hn. reflexivity.
    + rewrite Hl, Hn. reflexivity.
  - unfold locate. cbn [files cwd]. fold fs'. unfold destination_path.
    rewrite (path_comps_join _ _ _ (proper_plain _ Hx)), Hd.
    rewrite (walk_dirs_along _ fs' true d [] [item] Hpd Hdd'). cbn [app].
    change MAXSYMLINKS with (S (pred MAXSYMLINKS)). rewrite walk_cons.
    destruct (proper_not_special _ Hx) as [-> ->].
    assert (Hat : node_at fs' (d ++ [item]) = Some (Link new_target)).
    { rewrite node_at_snoc. unfold fs'. apply lookup_insert_eq. }
    rewrite Hat. cbn [is_nil negb andb]. exact Hfollow.
  - fold fs'. unfold fs', node_at. destruct l as [|x l']; [exact Hnd|].
    rewrite lookup_insert_ne by congruence. exact Hnd.
Qed.

(** A link in a source directory made of real directories, and where
    following it leads. *)
Lemma source_link_leads (w : world) (source_dir item t : string) (s : loc) :
  path_comps (cwd w) source_dir = s -> Forall proper s ->
  dirs_along (files w) [] s -> proper item ->
  files w !! (s ++ [item]) = Some (Link t) ->
  stat_node false w (join source_dir item) = Ok (Link t)
  /\ islink w (join source_dir item) = true
  /\ locate true w (join source_dir item)
     = walk (pred MAXSYMLINKS) (files w) true (if isabs t then [] else s) (comps t).
Proof.
  intros Hs Hps Hds Hx Hlink.
  assert (Hn : node_at (files w) (s ++ [item]) = Some (Link t)) by now rewrite node_at_snoc.
  assert (Hl : locate false w (join source_dir item) = Ok (s ++ [item])).
  { apply locate_child; try assumption. intros; reflexivity. }
  assert (Hst : stat_node false w (join source_dir item) = Ok (Link t)).
  { unfold stat_node. now rewrite Hl, Hn. }
  split; [exact Hst|]. split; [unfold islink; now rewrite Hst|].
  unfold locate. rewrite (path_comps_join _ _ _ (proper_plain _ Hx)), Hs.
  rewrite (walk_dirs_along _ (files w) true s [] [item] Hps Hds). cbn [app].
  change MAXSYMLINKS with (S (pred MAXSYMLINKS)). rewrite walk_cons.
  destruct (proper_not_special _ Hx) as [-> ->].
  rewrite Hn. cbn [is_nil negb andb]. now rewrite app_nil_r.
Qed.

(** When neither the relative text nor the joined target fits [PATH_MAX],
    both calls of [os.symlink] are refused and the link branch raises. *)
Lemma copy_link_no_room (source_path destination_path t rel : string) (w : world)
    (l : loc) :
  let link_target := if negb (isabs t) then join (dirname source_path) t else t in
  stat_node false w source_path = Ok (Link t) ->
  locate false w destination_path = Ok l -> node_at (files w) l = None ->
  relpath (cwd w) link_target (dirname destination_path) = Ok rel ->
  (PATH_MAX <=? String.length rel)%nat = true ->
  (PATH_MAX <=? String.length link_target)%nat = true ->
  copy_link source_path destination_path w = (w, Raise OSError).
Proof.
  intros link_target Hs Hl Hn Hrel Hr Hla.
  unfold copy_link. rewrite bind_unfold. unfold os_readlink at 1. rewrite Hs.
  fold link_target.
  rewrite bind_unfold, bind_ask, (free_name_not_exists _ _ _ Hl Hn). cbv [ret].
  unfold try_except. rewrite bind_unfold, Hrel, bind_unfold.
  unfold os_symlink at 1. rewrite Hr.
  destruct (String.eqb_spec rel "") as [E|_]; [rewrite E in Hr; discriminate Hr|].
  cbn [is_OSError is_ValueError orb]. rewrite bind_unfold. unfold os_symlink. rewrite Hla.
  destruct (String.eqb_spec link_target "") as [E|_]; [rewrite E in Hla; discriminate Hla|].
  reflexivity.
Qed.

(** C2, amended.  For an entry [item] of a source directory that is a link
    with a relative target [t] made of proper names, where the source and the
    destination directory are absolute paths made of real directories, the
    destination name is free and the source link leads to an entry [l]:
    the replicator joins [t] to the link's own directory, which gives an
    absolute path, and whenever the replication of the entry returns
    normally, it has made at the destination a link with the relative text
    [relpath] computes from the destination link's directory, or, only when
    that text does not fit [PATH_MAX], with the absolute text; nothing else
    has changed but the line that reports it.  Following the new link leads
    to [l], the entry the source link leads to in the source tree, not to an
    entry of the destination tree. *)
Theorem copy_link_relative_target (recurse : string -> string -> M unit)
    (source_dir destination_dir item t : string) (w w' : world) (s d l : loc) (nd : node) :
  let source_path := join source_dir item in
  let destination_path := join destination_dir item in
  let link_target := join (dirname source_path) t in
  isabs (cwd w) = true ->
  isabs source_dir = true -> path_comps (cwd w) source_dir = s ->
  Forall proper s -> dirs_along (files w) [] s ->
  isabs destination_dir = true -> path_comps (cwd w) destination_dir = d ->
  Forall proper d -> dirs_along (files w) [] d ->
  proper item ->
  files w !! (s ++ [item]) = Some (Link t) ->
  isabs t = false -> Forall proper (comps t) ->
  files w !! (d ++ [item]) = None ->
  locate true w source_path = Ok l -> node_at (files w) l = Some nd ->
  copy_entry recurse source_dir destination_dir item w = (w', Ok tt) ->
  isabs link_target = true
  /\ exists rel_target,
       relpath (cwd w) link_target (dirname destination_path) = Ok rel_target
       /\ isabs rel_target = false
       /\ let new_target := if (PATH_MAX <=? String.length rel_target)%nat
                            then link_target else rel_target in
          w' = mkWorld (<[d ++ [item] := Link new_target]> (files w)) (cwd w)
                 (stdout w ++ ["Created symbolic link: " +:+ destination_path
                               +:+ " -> " +:+ new_target])
                 (rank w)
          /\ locate true w' destination_path = Ok l
          /\ node_at (files w') l = Some nd.
Proof.
  intros source_path destination_path link_target
    Hc Hsa Hs Hps Hds Hda Hd Hpd Hdd Hx Hlink Ht Hpt Hfree Hl Hnd Hrun.
  destruct (source_link_leads w source_dir item t s Hs Hps Hds Hx Hlink)
    as (Hst & Hil & Hlead).
  fold source_path in Hst, Hil, Hlead. rewrite Ht in Hlead.
  assert (Hdir : isabs (dirname source_path) = true)
    by (apply isabs_dirname_join; [exact Hsa|now apply proper_plain]).
  assert (Hla : isabs link_target = true).
  { unfold link_target. rewrite isabs_join; [exact Hdir| |exact Ht].
    intros E. rewrite E in Hdir. discriminate. }
  split; [exact Hla|].
  assert (Hpl : comps link_target = s ++ comps t).
  { unfold link_target, source_path. rewrite (comps_join _ _ Ht).
    rewrite (comps_dirname_join _ _ (proper_plain _ Hx)).
    now rewrite <- (path_comps_absolute (cwd w) _ Hsa), Hs. }
  assert (Hw : walk (pred MAXSYMLINKS) (files w) true [] (s ++ comps t) = Ok l).
  { rewrite (walk_dirs_along _ (files w) true s [] (comps t) Hps Hds). cbn [app].
    now rewrite <- Hlead. }
  rewrite copy_entry_link in Hrun by exact Hil. fold source_path destination_path in Hrun.
  destruct (copy_link_to_target source_path destination_dir item t w d (s ++ comps t) l nd
              Hc Hda Hd Hpd Hdd Hx Hfree Hst) as (rel & Hrel & Hr1 & Hdone).
  - rewrite Ht. exact Hla.
  - rewrite Ht. exact Hpl.
  - apply Forall_app. now split.
  - exact Hw.
  - exact Hnd.
  - fold destination_path in Hrel, Hdone.
    exists rel. split; [rewrite Ht in Hrel; exact Hrel|]. split; [exact Hr1|].
    intros new_target.
    destruct (lt_dec (String.length new_target) PATH_MAX) as [Hlen|Hlen].
    + rewrite Ht in Hdone. cbn [negb] in Hdone.
      destruct (Hdone new_target eq_refl Hlen) as (H1 & H2 & H3).
      rewrite H1 in Hrun. injection Hrun as <-. now split.
    + exfalso. subst new_target.
      destruct (PATH_MAX <=? String.length rel)%nat eqn:Hfit.
      * assert (Hn : node_at (files w) (d ++ [item]) = None) by now rewrite node_at_snoc.
        assert (Hdl : locate false w destination_path = Ok (d ++ [item])).
        { apply locate_child; try assumption. intros; reflexivity. }
        rewrite (copy_link_no_room source_path destination_path t rel w _ Hst Hdl Hn Hrel Hfit)
          in Hrun; [discriminate Hrun|].
        rewrite Ht. cbn [negb]. apply Nat.leb_le. apply Nat.nlt_ge. exact Hlen.
      * apply Nat.leb_gt in Hfit. contradiction.
Qed.

Lemma copy_link_relative_target_witness :
  let w' := fst (copy_entry (copy_all_files 10) "/p/install/lib" "/p/build/lib"
                   "libfoo.so" fresh_world) in
  copy_entry (copy_all_files 10) "/p/install/lib" "/p/build/lib" "libfoo.so" fresh_world
  = (w', Ok tt)
  /\ w' = mkWorld (<[["p"; "build"; "lib"; "libfoo.so"]
                     := Link "../../install/lib/libfoo.so.1"]> (files fresh_world))
            (cwd fresh_world)
            (stdout fresh_world
             ++ ["Created symbolic link: /p/build/lib/libfoo.so -> ../../install/lib/libfoo.so.1"])
            (rank fresh_world)
  /\ locate true w' "/p/build/lib/libfoo.so" = Ok ["p"; "install"; "lib"; "libfoo.so.1"]
  /\ node_at (files w') ["p"; "install"; "lib"; "libfoo.so.1"] = Some (File 420 "ELF").
Proof.
  intros w'.
  assert (H : copy_entry (copy_all_files 10) "/p/install/lib" "/p/build/lib" "libfoo.so"
                fresh_world = (w', Ok tt)) by (vm_compute; reflexivity).
  split; [exact H|].
  destruct (copy_link_relative_target (copy_all_files 10) "/p/install/lib" "/p/build/lib"
              "libfoo.so" "libfoo.so.1" fresh_world w' ["p"; "install"; "lib"]
              ["p"; "build"; "lib"] ["p"; "install"; "lib"; "libfoo.so.1"] (File 420 "ELF"))
    as (_ & rel & Hrel & _ & Hres).
  - reflexivity.
  - reflexivity.
  - reflexivity.
  - repeat constructor; discriminate.
  - repeat split; reflexivity.
  - reflexivity.
  - reflexivity.
  - repeat constructor; discriminate.
  - repeat split; reflexivity.
  - apply properb_spec. reflexivity.
  - reflexivity.
  - reflexivity.
  - repeat constructor; discriminate.
  - reflexivity.
  - vm_compute. reflexivity.
  - reflexivity.
  - exact H.
  - vm_compute in Hrel. injection Hrel as <-. exact Hres.
Defined.

(** X14.  For an entry [item] of a source directory that is a link with an
    absolute target [t] made of proper names, where the source and the
    destination directory are made of real directories, the destination is
    an absolute path, the destination name is free and the source link leads
    to an entry [l]: whenever the replication of the entry returns normally,
    the new link does not keep the absolute text.  It has the relative text
    [relpath] computes from the directory of the new link, and the absolute
    text [t] only when the relative one does not fit [PATH_MAX]; following
    the new link leads to [l], the entry the source link leads to. *)
Theorem copy_link_absolute_target (recurse : string -> string -> M unit)
    (source_dir destination_dir item t : string) (w w' : world) (s d l : loc) (nd : node) :
  let source_path := join source_dir item in
  let destination_path := join destination_dir item in
  isabs (cwd w) = true ->
  path_comps (cwd w) source_dir = s ->
  Forall proper s -> dirs_along (files w) [] s ->
  isabs destination_dir = true -> path_comps (cwd w) destination_dir = d ->
  Forall proper d -> dirs_along (files w) [] d ->
  proper item ->
  files w !! (s ++ [item]) = Some (Link t) ->
  isabs t = true -> Forall proper (comps t) ->
  files w !! (d ++ [item]) = None ->
  locate true w source_path = Ok l -> node_at (files w) l = Some nd ->
  copy_entry recurse source_dir destination_dir item w = (w', Ok tt) ->
  exists rel_target,
    relpath (cwd w) t (dirname destination_path) = Ok rel_target
    /\ isabs rel_target = false
    /\ let new_target := if (PATH_MAX <=? String.length rel_target)%nat
                         then t else rel_target in
       w' = mkWorld (<[d ++ [item] := Link new_target]> (files w)) (cwd w)
              (stdout w ++ ["Created symbolic link: " +:+ destination_path
                            +:+ " -> " +:+ new_target])
              (rank w)
       /\ locate true w' destination_path = Ok l
       /\ node_at (files w') l = Some nd.
Proof.
  intros source_path destination_path
    Hc Hs Hps Hds Hda Hd Hpd Hdd Hx Hlink Ht Hpt Hfree Hl Hnd Hrun.
  destruct (source_link_leads w source_dir item t s Hs Hps Hds Hx Hlink)
    as (Hst & Hil & Hlead).
  fold source_path in Hst, Hil, Hlead. rewrite Ht in Hlead.
  rewrite copy_entry_link in Hrun by exact Hil. fold source_path destination_path in Hrun.
  destruct (copy_link_to_target source_path destination_dir item t w d (comps t) l nd
              Hc Hda Hd Hpd Hdd Hx Hfree Hst) as (rel & Hrel & Hr1 & Hdone).
  - rewrite Ht. exact Ht.
  - rewrite Ht. reflexivity.
  - exact Hpt.
  - now rewrite <- Hlead.
  - exact Hnd.
  - fold destination_path in Hrel, Hdone.
    exists rel. split; [rewrite Ht in Hrel; exact Hrel|]. split; [exact Hr1|].
    intros new_target.
    destruct (lt_dec (String.length new_target) PATH_MAX) as [Hlen|Hlen].
    + rewrite Ht in Hdone. cbn [negb] in Hdone.
      destruct (Hdone new_target eq_refl Hlen) as (H1 & H2 & H3).
      rewrite H1 in Hrun. injection Hrun as <-. now split.
    + exfalso. subst new_target.
      destruct (PATH_MAX <=? String.length rel)%nat eqn:Hfit.
      * assert (Hn : node_at (files w) (d ++ [item]) = None) by now rewrite node_at_snoc.
        assert (Hdl : locate false w destination_path = Ok (d ++ [item])).
        { apply locate_child; try assumption. intros; reflexivity. }
        rewrite (copy_link_no_room source_path destination_path t rel w _ Hst Hdl Hn Hrel Hfit)
          in Hrun; [discriminate Hrun|].
        rewrite Ht. cbn [negb]. apply Nat.leb_le. apply Nat.nlt_ge. exact Hlen.
      * apply Nat.leb_gt in Hfit. contradiction.
Qed.

Lemma copy_link_absolute_target_witness :
  let w' := fst (copy_entry (copy_all_files 10) "/s" "/d" "liba.so" absolute_link_world) in
  copy_entry (copy_all_files 10) "/s" "/d" "liba.so" absolute_link_world = (w', Ok tt)
  /\ w' = mkWorld (<[["d"; "liba.so"] := Link "../opt/liba.so.1"]>
                     (files absolute_link_world))
            (cwd absolute_link_world)
            (stdout absolute_link_world
             ++ ["Created symbolic link: /d/liba.so -> ../opt/liba.so.1"])
            (rank absolute_link_world)
  /\ locate true w' "/d/liba.so" = Ok ["opt"; "liba.so.1"]
  /\ node_at (files w') ["opt"; "liba.so.1"] = Some (File 420 "ELF").
Proof.
  intros w'.
  assert (H : copy_entry (copy_all_files 10) "/s" "/d" "liba.so" absolute_link_world
              = (w', Ok tt)) by (vm_compute; reflexivity).
  split; [exact H|].
  destruct (copy_link_absolute_target (copy_all_files 10) "/s" "/d" "liba.so"
              "/opt/liba.so.1" absolute_link_world w' ["s"] ["d"] ["opt"; "liba.so.1"]
              (File 420 "ELF")) as (rel & Hrel & _ & Hres).
  - reflexivity.
  - reflexivity.
  - repeat constructor; discriminate.
  - repeat split; reflexivity.
  - reflexivity.
  - reflexivity.
  - repeat constructor; discriminate.
  - repeat split; reflexivity.
  - apply properb_spec. reflexivity.
  - reflexivity.
  - reflexivity.
  - repeat constructor; discriminate.
  - reflexivity.
  - vm_compute. reflexivity.
  - reflexivity.
  - exact H.
  - vm_compute in Hrel. injection Hrel as <-. exact Hres.
Defined.
